(** * Static thrust logger (Calibration.ino): sampling, calibration and
      persistent calibration factor.

    The sketch is embedded as functions on an explicit sketch state.  Its
    collaborators (the HX711_ADC driver, the Serial channel, the EEPROM and
    the millisecond clock) are not part of the sketch: what their calls
    return is supplied by a script of snapshots, one per pass of a polling
    loop, and by the [Board] interface. *)

From Stdlib Require Import ZArith List String Ascii Bool Lia.
From Stdlib Require Import Floats.SpecFloat.
Import ListNotations.
Local Open Scope Z_scope.

(** ** Binary32 values

    [float] in the sketch is IEEE-754 binary32: 24 bits of precision,
    exponent of the infinities 128.  Values are [spec_float]s and the
    operations are the parameterised ones of the standard library. *)

Definition float32 : Set := spec_float.

Module F32.

Definition prec : Z := 24.
Definition emax : Z := 128.

Definition zero : float32 := S754_zero false.

Definition is_nan (x : float32) : bool :=
  match x with S754_nan => true | _ => false end.

Definition is_finite (x : float32) : bool :=
  match x with S754_zero _ | S754_finite _ _ _ => true | _ => false end.

Definition ltb (x y : float32) : bool := SFltb x y.
Definition leb (x y : float32) : bool := SFleb x y.
Definition eqb (x y : float32) : bool := SFeqb x y.

(** Conversion of an integer to binary32, rounding to nearest even. *)
Definition of_Z (n : Z) : float32 := binary_normalize prec emax n 0 false.

Definition div (x y : float32) : float32 := SFdiv prec emax x y.
Definition mul (x y : float32) : float32 := SFmul prec emax x y.
Definition add (x y : float32) : float32 := SFadd prec emax x y.

Definition one : float32 := of_Z 1.

(** The values a binary32 variable can hold: a finite one has its mantissa
    and exponent in canonical form. *)
Definition valid (x : float32) : bool := valid_binary prec emax x.

(** Integer part, rounding toward zero; infinities and NaN have none. *)
Definition trunc (x : float32) : option Z :=
  match x with
  | S754_zero _ => Some 0
  | S754_finite s m e =>
      let a := Z.shiftl (Zpos m) e in
      Some (if s then - a else a)
  | S754_infinity _ | S754_nan => None
  end.

(** [(unsigned long) x]: the truncated value when a 32-bit unsigned integer
    can hold it; the conversion is undefined otherwise. *)
Definition to_ulong (x : float32) : option Z :=
  match trunc x with
  | Some n => if (0 <=? n) && (n <? 2 ^ 32) then Some n else None
  | None => None
  end.

End F32.

(** ** 32-bit unsigned arithmetic ([unsigned long]) *)

Definition wrap32 (z : Z) : Z := z mod 2 ^ 32.

(** ** clampZero (lines 34-37) *)

Definition clampZero (v : float32) : float32 :=
  if F32.ltb v F32.zero then F32.zero else v.

(** ** Collaborators

    One [poll] is what the sketch can observe of the outside world during
    one pass of a polling loop: the clock, the bytes pending on the serial
    line and what the load-cell driver would answer. *)

Record poll := {
  millis : Z;                          (* millis() *)
  rx : string;                         (* pending serial input; empty when
                                          Serial.available() is 0 *)
  update : bool;                       (* LoadCell.update() *)
  data : float32;                      (* LoadCell.getData() *)
  tareStatus : bool;                   (* LoadCell.getTareStatus() *)
  tareTimeoutFlag : bool;              (* LoadCell.getTareTimeoutFlag() *)
  signalTimeoutFlag : bool;            (* LoadCell.getSignalTimeoutFlag() *)
  newCalibration : float32 -> float32  (* LoadCell.getNewCalibration(mass) *)
}.

Definition now (p : poll) : Z := wrap32 (millis p).

Definition available (p : poll) : bool :=
  match rx p with EmptyString => false | String _ _ => true end.

(** The board: the non-volatile cell at [calVal_eepromAdress] and the
    numeric parser of the serial stream. *)
Class Board := {
  store : Type;
  EEPROM_get : store -> float32;
  EEPROM_put : store -> float32 -> store;
  parseFloat : string -> float32
}.

(** What the sketch writes to the serial line. *)
Inductive item :=
| Text (s : string)
| Num (v : float32) (digits : Z)
| Int (n : Z).

Inductive out :=
| Print (i : item)
| Println (i : item)
| Newline.

(** The part of the driver the sketch sets and reads back. *)
Record HX711_ADC := {
  calFactor : float32;
  tareRequests : nat
}.

Definition calVal_eepromAdress : Z := 0.

Definition nl : string := String (ascii_of_nat 10) EmptyString.
Definition tab : string := String (ascii_of_nat 9) EmptyString.

(** How a run of sketch code ends: it returns, it needs more polls than
    the script holds, it performs a conversion whose result is undefined,
    or it spins in [while (1)] with the given text on the serial line. *)
Inductive outcome (A : Type) :=
| Ret (a : A)
| Starved
| Undefined
| Hang (printed : list out).
Arguments Ret {A} a.
Arguments Starved {A}.
Arguments Undefined {A}.
Arguments Hang {A} printed.

Record world := { cur : poll; future : list poll }.

Definition prog (A : Type) : Type := world -> outcome (A * world).

Definition ret {A} (a : A) : prog A := fun w => Ret (a, w).

Definition bind {A B} (c : prog A) (k : A -> prog B) : prog B :=
  fun w =>
    match c w with
    | Ret (a, w') => k a w'
    | Starved => Starved
    | Undefined => Undefined
    | Hang printed => Hang printed
    end.

Notation "x <- c ;; k" := (bind c (fun x => k))
  (at level 61, c at next level, right associativity).

Definition current : prog poll := fun w => Ret (cur w, w).

Definition advance : prog poll :=
  fun w =>
    match future w with
    | [] => Starved
    | p :: rest => Ret (p, {| cur := p; future := rest |})
    end.

Definition undefined {A} : prog A := fun _ => Undefined.
Definition hang {A} (printed : list out) : prog A := fun _ => Hang printed.

(** [while (_resume == false) { body }]: every pass looks at a fresh poll. *)
Fixpoint wait_loop {S : Type} (body : poll -> S -> S * bool) (s : S)
    (fut : list poll) : outcome (S * world) :=
  match fut with
  | [] => Starved
  | p :: rest =>
      let (s', resume) := body p s in
      if resume then Ret (s', {| cur := p; future := rest |})
      else wait_loop body s' rest
  end.

Definition busy_wait {S : Type} (body : poll -> S -> S * bool) (s : S) : prog S :=
  fun w => wait_loop body s (future w).

(** ** The sketch *)

Section Sketch.

Context {B : Board}.

(** The globals of the sketch (lines 23-31), the EEPROM cell and the text
    written to the serial line so far, oldest first. *)
Record Sketch := {
  startTimeMs : Z;
  lastSampleMs : Z;
  sampleIntervalMs : Z;
  csvMode : bool;
  printingHeader : bool;
  LoadCell : HX711_ADC;
  EEPROM : store;
  Serial : list out
}.

Definition set_startTimeMs (v : Z) (s : Sketch) : Sketch :=
  {| startTimeMs := v; lastSampleMs := lastSampleMs s;
     sampleIntervalMs := sampleIntervalMs s; csvMode := csvMode s;
     printingHeader := printingHeader s; LoadCell := LoadCell s;
     EEPROM := EEPROM s; Serial := Serial s |}.

Definition set_lastSampleMs (v : Z) (s : Sketch) : Sketch :=
  {| startTimeMs := startTimeMs s; lastSampleMs := v;
     sampleIntervalMs := sampleIntervalMs s; csvMode := csvMode s;
     printingHeader := printingHeader s; LoadCell := LoadCell s;
     EEPROM := EEPROM s; Serial := Serial s |}.

Definition set_sampleIntervalMs (v : Z) (s : Sketch) : Sketch :=
  {| startTimeMs := startTimeMs s; lastSampleMs := lastSampleMs s;
     sampleIntervalMs := v; csvMode := csvMode s;
     printingHeader := printingHeader s; LoadCell := LoadCell s;
     EEPROM := EEPROM s; Serial := Serial s |}.

Definition set_csvMode (v : bool) (s : Sketch) : Sketch :=
  {| startTimeMs := startTimeMs s; lastSampleMs := lastSampleMs s;
     sampleIntervalMs := sampleIntervalMs s; csvMode := v;
     printingHeader := printingHeader s; LoadCell := LoadCell s;
     EEPROM := EEPROM s; Serial := Serial s |}.

Definition set_printingHeader (v : bool) (s : Sketch) : Sketch :=
  {| startTimeMs := startTimeMs s; lastSampleMs := lastSampleMs s;
     sampleIntervalMs := sampleIntervalMs s; csvMode := csvMode s;
     printingHeader := v; LoadCell := LoadCell s;
     EEPROM := EEPROM s; Serial := Serial s |}.

Definition set_LoadCell (v : HX711_ADC) (s : Sketch) : Sketch :=
  {| startTimeMs := startTimeMs s; lastSampleMs := lastSampleMs s;
     sampleIntervalMs := sampleIntervalMs s; csvMode := csvMode s;
     printingHeader := printingHeader s; LoadCell := v;
     EEPROM := EEPROM s; Serial := Serial s |}.

Definition set_EEPROM (v : store) (s : Sketch) : Sketch :=
  {| startTimeMs := startTimeMs s; lastSampleMs := lastSampleMs s;
     sampleIntervalMs := sampleIntervalMs s; csvMode := csvMode s;
     printingHeader := printingHeader s; LoadCell := LoadCell s;
     EEPROM := v; Serial := Serial s |}.

Definition emit (o : list out) (s : Sketch) : Sketch :=
  {| startTimeMs := startTimeMs s; lastSampleMs := lastSampleMs s;
     sampleIntervalMs := sampleIntervalMs s; csvMode := csvMode s;
     printingHeader := printingHeader s; LoadCell := LoadCell s;
     EEPROM := EEPROM s; Serial := Serial s ++ o |}.

Definition println (i : item) : Sketch -> Sketch := emit [Println i].

(** Driver calls that change what the sketch later reads back. *)
Definition setCalFactor (f : float32) (s : Sketch) : Sketch :=
  set_LoadCell {| calFactor := f; tareRequests := tareRequests (LoadCell s) |} s.

Definition getCalFactor (s : Sketch) : float32 := calFactor (LoadCell s).

Definition tareNoDelay (s : Sketch) : Sketch :=
  set_LoadCell {| calFactor := calFactor (LoadCell s);
                  tareRequests := S (tareRequests (LoadCell s)) |} s.

(** The state before [setup]: the initialisers of lines 26-31; the driver
    starts with factor 1. *)
Definition power_on (e : store) : Sketch :=
  {| startTimeMs := 0; lastSampleMs := 0; sampleIntervalMs := 10;
     csvMode := false; printingHeader := false;
     LoadCell := {| calFactor := F32.one; tareRequests := 0 |};
     EEPROM := e; Serial := [] |}.

(** *** printHelp (lines 296-304) *)

Definition printHelp (s : Sketch) : Sketch :=
  emit [ Println (Text (nl ++ "Serial commands:"));
         Println (Text "  t - tare (no delay)");
         Println (Text "  r - re-run calibration routine");
         Println (Text "  c - change calibration factor manually");
         Println (Text "  m - toggle output mode (human-readable / CSV)");
         Println (Text "  f - set sample frequency in Hz (follow by number)");
         Println (Text ("  h - print this help message" ++ nl)) ] s.

(** *** The y/n dialog (lines 223-245 and 270-291, the same text twice)

    On 'y' the value is written, read back into [newCalibrationValue] and
    the value read back is the one printed. *)

Definition eeprom_save (newCalibrationValue : float32) (s : Sketch)
    : Sketch * float32 :=
  let s1 := set_EEPROM (EEPROM_put (EEPROM s) newCalibrationValue) s in
  let reread := EEPROM_get (EEPROM s1) in
  (emit [ Print (Text "Value "); Print (Num reread 6);
          Print (Text " saved to EEPROM address: ");
          Println (Int calVal_eepromAdress) ] s1,
   reread).

Definition decision_iter (p : poll) (st : Sketch * float32)
    : (Sketch * float32) * bool :=
  let '(s, newCalibrationValue) := st in
  match rx p with
  | EmptyString => (st, false)
  | String inByte _ =>
      if Ascii.eqb inByte "y" then (eeprom_save newCalibrationValue s, true)
      else if Ascii.eqb inByte "n" then
        ((println (Text "Value not saved to EEPROM") s, newCalibrationValue), true)
      else (st, false)
  end.

(** *** calibrate (lines 182-249) *)

Definition tare_iter (p : poll) (s : Sketch) : Sketch * bool :=
  let s1 :=
    match rx p with
    | EmptyString => s
    | String inByte _ => if Ascii.eqb inByte "t" then tareNoDelay s else s
    end in
  if tareStatus p then (println (Text "Tare complete") s1, true)
  else (s1, false).

Definition mass_iter (p : poll) (st : Sketch * float32)
    : (Sketch * float32) * bool :=
  let '(s, _) := st in
  if available p then
    let known_mass := parseFloat (rx p) in
    if negb (F32.eqb known_mass F32.zero) then
      ((emit [Print (Text "Known mass is: "); Println (Num known_mass 2)] s,
        known_mass), true)
    else ((s, known_mass), false)
  else (st, false).

Definition calibrate (s : Sketch) : prog Sketch :=
  let s := emit [ Println (Text "*** Start calibration procedure");
                  Println (Text "Place the load cell on a stable surface with no load.");
                  Println (Text "Send 't' from serial monitor to tare.") ] s in
  s <- busy_wait tare_iter s ;;
  let s := println (Text "Now place a known mass on the load cell and send its mass (e.g. 100.0)") s in
  st <- busy_wait mass_iter (s, F32.zero) ;;
  p <- current ;;
  let '(s, known_mass) := st in
  let newCalibrationValue := newCalibration p known_mass in
  (* the driver installs the factor it has just computed *)
  let s := setCalFactor newCalibrationValue s in
  let s := emit [ Print (Text "New calibration value has been set to: ");
                  Println (Num newCalibrationValue 6);
                  Print (Text "Save this value to EEPROM address ");
                  Print (Int calVal_eepromAdress);
                  Println (Text "? (y/n)") ] s in
  st <- busy_wait decision_iter (s, newCalibrationValue) ;;
  ret (emit [ Println (Text "End calibration"); Println (Text "***") ] (fst st)).

(** *** changeSavedCalFactor (lines 251-294)

    [newCalibrationValue] is declared without a value and first read after
    the entry loop has assigned it; the loop starts from a placeholder. *)

Definition factor_iter (p : poll) (st : Sketch * float32)
    : (Sketch * float32) * bool :=
  let '(s, _) := st in
  if available p then
    let newCalibrationValue := parseFloat (rx p) in
    if negb (F32.eqb newCalibrationValue F32.zero) then
      ((setCalFactor newCalibrationValue
          (emit [ Print (Text "New calibration value is: ");
                  Println (Num newCalibrationValue 6) ] s),
        newCalibrationValue), true)
    else ((s, newCalibrationValue), false)
  else (st, false).

Definition changeSavedCalFactor (s : Sketch) : prog Sketch :=
  let oldCalibrationValue := getCalFactor s in
  let s := emit [ Println (Text "*** Change calibration factor");
                  Print (Text "Current value is: ");
                  Println (Num oldCalibrationValue 6);
                  Println (Text "Send the new value from serial monitor, e.g. 696.0") ] s in
  st <- busy_wait factor_iter (s, F32.zero) ;;
  let '(s, newCalibrationValue) := st in
  let s := emit [ Print (Text "Save this value to EEPROM address ");
                  Print (Int calVal_eepromAdress);
                  Println (Text "? y/n") ] s in
  st <- busy_wait decision_iter (s, newCalibrationValue) ;;
  ret (emit [ Println (Text "End change calibration value");
              Println (Text "***") ] (fst st)).

(** *** setup (lines 39-88) *)

(** Lines 54-66: the stored factor is used unless it is NaN or zero. *)
Definition setup_load (s : Sketch) : Sketch :=
  let savedCal := EEPROM_get (EEPROM s) in
  if negb (F32.is_nan savedCal) && negb (F32.eqb savedCal F32.zero) then
    emit [ Print (Text "Loaded calFactor from EEPROM: ");
           Println (Num savedCal 6) ]
         (setCalFactor savedCal s)
  else
    println (Text "Using default calFactor = 1.0 (no EEPROM value found)")
            (setCalFactor F32.one s).

(** [while (!LoadCell.update());] *)
Definition first_dataset_iter (p : poll) (u : unit) : unit * bool :=
  (u, update p).

Definition csv_header (s : Sketch) : Sketch :=
  if csvMode s && negb (printingHeader s) then
    set_printingHeader true (println (Text "time_s,load") s)
  else s.

Definition setup (s : Sketch) : prog Sketch :=
  let s := emit [ Newline;
                  Println (Text "Starting HX711 Static Thrust Logger...") ] s in
  p <- advance ;;
  s <- (if tareTimeoutFlag p || signalTimeoutFlag p then
          hang (Serial (println (Text "Timeout, check wiring and pins") s))
        else
          ret (println (Text "Startup complete") (setup_load s))) ;;
  _ <- busy_wait first_dataset_iter tt ;;
  s <- calibrate s ;;
  p <- current ;;
  let s := set_startTimeMs (now p) s in
  let s := set_lastSampleMs (startTimeMs s) s in
  let s := printHelp s in
  ret (csv_header s).

(** *** loop (lines 90-180) *)

(** A reading as it is printed: the elapsed milliseconds, the same in
    seconds, and the clamped load. *)
Record reading := {
  elapsedMs : Z;
  timeSec : float32;
  load : float32
}.

Definition sample_due (p : poll) (s : Sketch) : bool :=
  sampleIntervalMs s <=? wrap32 (now p - lastSampleMs s).

(** Lines 97-104: the timed sampling. *)
Definition take_sample (p : poll) (s : Sketch) : Sketch * option reading :=
  if sample_due p s then
    let s1 := set_lastSampleMs (wrap32 (lastSampleMs s + sampleIntervalMs s)) s in
    let rawLoad := data p in
    let elapsed := wrap32 (now p - startTimeMs s) in
    (s1, Some {| elapsedMs := elapsed;
                 timeSec := F32.div (F32.of_Z elapsed) (F32.of_Z 1000);
                 load := clampZero rawLoad |})
  else (s, None).

(** Lines 106-118. *)
Definition print_reading (r : reading) (s : Sketch) : Sketch :=
  if csvMode s then
    emit [ Print (Num (timeSec r) 3); Print (Text ",");
           Println (Num (load r) 2) ] s
  else
    emit [ Print (Text "t = "); Print (Num (timeSec r) 4);
           Print (Text (" s" ++ tab)); Print (Text "Force(N) = ");
           Println (Num (load r) 4) ] s.

(** Line 155: wait for input, for at most 5 s. *)
Fixpoint await_input (startWait : Z) (fut : list poll) : outcome (poll * world) :=
  match fut with
  | [] => Starved
  | p :: rest =>
      if (wrap32 (now p - startWait) <? 5000) && negb (available p) then
        await_input startWait rest
      else Ret (p, {| cur := p; future := rest |})
  end.

(** Lines 150-168: the 'f' command. *)
Definition case_f (s : Sketch) : prog Sketch :=
  let s := println (Text "Enter sample frequency in Hz (e.g. 100)") s in
  p0 <- current ;;
  let startWait := now p0 in
  p <- (fun w => await_input startWait (future w)) ;;
  if available p then
    let newHz := parseFloat (rx p) in
    if F32.ltb F32.zero newHz then
      match F32.to_ulong (F32.div (F32.of_Z 1000) newHz) with
      | Some n =>
          ret (emit [ Print (Text "Sample rate set to: "); Print (Num newHz 1);
                      Println (Text " Hz") ]
                    (set_sampleIntervalMs n s))
      | None => undefined
      end
    else ret (println (Text "Invalid frequency, ignored") s)
  else ret (println (Text "No frequency received, ignored") s).

(** Lines 142-149: the 'm' command. *)
Definition case_m (s : Sketch) : Sketch :=
  let s := set_csvMode (negb (csvMode s)) s in
  let s := emit [ Print (Text "Mode toggled. CSV mode = ");
                  Println (Text (if csvMode s then "ON" else "OFF")) ] s in
  csv_header s.

(** Lines 132-138: the 'r' command. *)
Definition case_r (s : Sketch) : prog Sketch :=
  let s := println (Text "Recalibrate requested") s in
  s <- calibrate s ;;
  p <- current ;;
  let s := set_startTimeMs (now p) s in
  ret (set_lastSampleMs (startTimeMs s) s).

(** Lines 127-175.  The line ends that follow the command byte are read
    and dropped before the switch; they change no variable of the sketch. *)
Definition dispatch (inByte : ascii) (s : Sketch) : prog Sketch :=
  if Ascii.eqb inByte "t" then
    ret (tareNoDelay (println (Text "Tare requested") s))
  else if Ascii.eqb inByte "r" then case_r s
  else if Ascii.eqb inByte "c" then changeSavedCalFactor s
  else if Ascii.eqb inByte "m" then ret (case_m s)
  else if Ascii.eqb inByte "f" then case_f s
  else if Ascii.eqb inByte "h" then ret (printHelp s)
  else ret s.

Definition loop (s : Sketch) : prog Sketch :=
  p <- advance ;;
  let s :=
    match take_sample p s with
    | (s1, Some r) => print_reading r s1
    | (s1, None) => s1
    end in
  match rx p with
  | EmptyString => ret s
  | String inByte _ => dispatch inByte s
  end.

(** The readings a run of sampling passes emits, oldest first. *)
Fixpoint sample_run (s : Sketch) (polls : list poll) : Sketch * list reading :=
  match polls with
  | [] => (s, [])
  | p :: rest =>
      let (s1, r) := take_sample p s in
      let (s2, rs) := sample_run s1 rest in
      (s2, match r with Some x => x :: rs | None => rs end)
  end.

End Sketch.

(** ** A concrete board

    To run the sketch on concrete input: an EEPROM cell that returns what
    was last written, and a decimal parser that proceeds as the stream
    parser of the Arduino core does on the pending bytes (leading bytes that
    cannot start a number are skipped; then an optional sign, digits and at
    most one decimal point; the value is accumulated in binary32). *)

Definition is_digit (c : ascii) : bool :=
  (48 <=? nat_of_ascii c)%nat && (nat_of_ascii c <=? 57)%nat.

Definition digit_value (c : ascii) : Z := Z.of_nat (nat_of_ascii c) - 48.

Fixpoint skip_to_number (s : string) : string :=
  match s with
  | EmptyString => EmptyString
  | String c rest =>
      if is_digit c || Ascii.eqb c "-" || Ascii.eqb c "." then s
      else skip_to_number rest
  end.

Record parse_state := {
  isNegative : bool;
  isFraction : bool;
  value : float32;
  fraction : float32
}.

Definition parse_char (c : ascii) (st : parse_state) : parse_state :=
  if Ascii.eqb c "-" then
    {| isNegative := true; isFraction := isFraction st;
       value := value st; fraction := fraction st |}
  else if Ascii.eqb c "." then
    {| isNegative := isNegative st; isFraction := true;
       value := value st; fraction := fraction st |}
  else if is_digit c then
    {| isNegative := isNegative st; isFraction := isFraction st;
       value := F32.add (F32.mul (value st) (F32.of_Z 10))
                        (F32.of_Z (digit_value c));
       fraction := if isFraction st
                   then F32.mul (fraction st) (F32.div F32.one (F32.of_Z 10))
                   else fraction st |}
  else st.

Definition parse_finish (st : parse_state) : float32 :=
  let v := if isNegative st then SFopp (value st) else value st in
  if isFraction st then F32.mul v (fraction st) else v.

Fixpoint parse_more (s : string) (st : parse_state) : float32 :=
  match s with
  | EmptyString => parse_finish st
  | String c rest =>
      if is_digit c || (Ascii.eqb c "." && negb (isFraction st)) then
        parse_more rest (parse_char c st)
      else parse_finish st
  end.

Definition stream_parseFloat (s : string) : float32 :=
  match skip_to_number s with
  | EmptyString => F32.zero
  | String c rest =>
      parse_more rest
        (parse_char c {| isNegative := false; isFraction := false;
                         value := F32.zero; fraction := F32.one |})
  end.

Definition uno : Board :=
  {| store := float32;
     EEPROM_get := fun e => e;
     EEPROM_put := fun _ v => v;
     parseFloat := stream_parseFloat |}.

(** A worn cell: writes do not take. *)
Definition worn : Board :=
  {| store := float32;
     EEPROM_get := fun e => e;
     EEPROM_put := fun e _ => e;
     parseFloat := stream_parseFloat |}.

(** A poll at time [t] with nothing pending and an idle driver. *)
Definition quiet (t : Z) : poll :=
  {| millis := t; rx := EmptyString; update := true; data := F32.zero;
     tareStatus := false; tareTimeoutFlag := false;
     signalTimeoutFlag := false; newCalibration := fun _ => F32.one |}.

(** The operator's bytes [text] are pending at time [t]. *)
Definition typed (t : Z) (text : string) : poll :=
  {| millis := t; rx := text; update := true; data := F32.zero;
     tareStatus := false; tareTimeoutFlag := false;
     signalTimeoutFlag := false; newCalibration := fun _ => F32.one |}.

(** The driver reports the tare done at time [t]. *)
Definition tared (t : Z) : poll :=
  {| millis := t; rx := EmptyString; update := true; data := F32.zero;
     tareStatus := true; tareTimeoutFlag := false;
     signalTimeoutFlag := false; newCalibration := fun _ => F32.one |}.

(** The operator's entry [text] is pending and the driver would compute
    the factor [k] from it. *)
Definition entry (t : Z) (text : string) (k : float32) : poll :=
  {| millis := t; rx := text; update := true; data := F32.zero;
     tareStatus := false; tareTimeoutFlag := false;
     signalTimeoutFlag := false; newCalibration := fun _ => k |}.

(** A sampling pass at time [t] with the driver reading [v]. *)
Definition sampled (t : Z) (v : float32) : poll :=
  {| millis := t; rx := EmptyString; update := true; data := v;
     tareStatus := false; tareTimeoutFlag := false;
     signalTimeoutFlag := false; newCalibration := fun _ => F32.one |}.

Definition f32_50 : float32 := S754_finite false 13107200 (-18).
Definition f32_minus_5 : float32 := S754_finite true 10485760 (-21).
Definition f32_250_5 : float32 := S754_finite false 16416768 (-16).


(** ** Vocabulary of the statements *)

(** Consecutive members of [l] differ by [d] (on 32 bits). *)
Fixpoint arithmetic (d : Z) (l : list Z) : bool :=
  match l with
  | [] => true
  | a :: rest =>
      match rest with
      | [] => true
      | b :: _ => (wrap32 (b - a) =? d) && arithmetic d rest
      end
  end.

Section Observations.

Context {B : Board}.

(** What a poll means to each wait of the dialogs. *)
Definition mass_entered (p : poll) : bool :=
  available p && negb (F32.eqb (parseFloat (rx p)) F32.zero).

Inductive answer := Yes | No.

Definition decision (p : poll) : option answer :=
  match rx p with
  | EmptyString => None
  | String c _ =>
      if Ascii.eqb c "y" then Some Yes
      else if Ascii.eqb c "n" then Some No
      else None
  end.

Definition decided (p : poll) : bool :=
  match decision p with Some _ => true | None => false end.

(** The state a wait is in after the polls [idle], none of which ended it. *)
Definition spin {S : Type} (body : poll -> S -> S * bool) (idle : list poll) (s : S) : S :=
  fold_left (fun acc q => fst (body q acc)) idle s.

(** Skipping missed ticks would mean that a late poll uses up the
    intervals that went by: once a reading has been emitted two or more
    intervals late, a poll less than one interval after it emits nothing. *)
Definition skips_missed_ticks : Prop :=
  forall (s : Sketch) (p q : poll),
    0 < sampleIntervalMs s ->
    2 * sampleIntervalMs s <= wrap32 (now p - lastSampleMs s) ->
    wrap32 (now q - now p) < sampleIntervalMs s ->
    snd (take_sample q (fst (take_sample p s))) = None.

End Observations.

(** ** Bench runs on the concrete board *)

Definition ran {A : Type} (d : A) (o : outcome (A * world)) : A :=
  match o with Ret (a, _) => a | _ => d end.

(** An erased EEPROM cell decodes to NaN. *)
Definition fresh : @Sketch uno := @power_on uno S754_nan.

(** A calibration: a tare request, the tare done, a line the parser reads
    as 0, the known mass 100.0 (the driver computes 250.5), then the
    answer. *)
Definition calibration_session (reply : string) : world :=
  {| cur := quiet 0;
     future := [ quiet 1; typed 2 "t"; tared 3; typed 4 "x";
                 entry 5 "100.0" f32_250_5; quiet 6; typed 7 reply;
                 quiet 8 ] |}.

Definition calibrated_no : @Sketch uno :=
  Eval vm_compute in ran fresh (@calibrate uno fresh (calibration_session "n")).

Definition calibrated_yes : @Sketch uno :=
  Eval vm_compute in ran fresh (@calibrate uno fresh (calibration_session "y")).

Definition after_session : world :=
  {| cur := typed 7 "n"; future := [quiet 8] |}.

(** The 'c' command: a line read as 0, the factor -5, then the answer 'n'. *)
Definition factor_session : world :=
  {| cur := typed 0 "c";
     future := [ quiet 1; typed 2 "0"; typed 3 "-5"; quiet 4; typed 5 "n";
                 quiet 6 ] |}.

Definition factor_changed : @Sketch uno :=
  Eval vm_compute in ran fresh (@changeSavedCalFactor uno fresh factor_session).

Definition after_factor_session : world :=
  {| cur := typed 5 "n"; future := [quiet 6] |}.

(** The 'f' command with the line [text] arriving 2 ms after the prompt. *)
Definition frequency_session (text : string) : world :=
  {| cur := typed 0 "f";
     future := [quiet 1; typed 2 text; quiet 3] |}.

Definition frequency_2000 : @Sketch uno :=
  Eval vm_compute in ran fresh (@case_f uno fresh (frequency_session "2000")).

(** The 'f' command with nothing arriving before the 5 s are over. *)
Definition silent_session : world :=
  {| cur := typed 0 "f";
     future := [quiet 1; quiet 2500; quiet 4999; quiet 5000; quiet 5001] |}.

(** 2^-21 Hz, the slowest rate whose period in milliseconds is shown
    below to fit 32 bits. *)
Definition f32_slowest : float32 := S754_finite false 8388608 (-44).

(** The value of [m * 2 ^ e] is at least 1; is below, or at most, [2 ^ K]. *)
Definition ge_one (m e : Z) : Prop := 1 <= m /\ (e <= 0 -> 2 ^ (- e) <= m).
Definition lt_pow (m e K : Z) : Prop := m < 2 ^ (K - e) /\ 0 <= K - e.
Definition le_pow (m e K : Z) : Prop := m <= 2 ^ (K - e) /\ 0 <= K - e.

(** [n] passes of [loop]. *)
Fixpoint passes {B : Board} (n : nat) (s : Sketch) : prog Sketch :=
  match n with
  | O => ret s
  | S k => s1 <- loop s ;; passes k s1
  end.

Definition is_header (o : out) : bool :=
  match o with
  | Println (Text t) => String.eqb t "time_s,load"
  | _ => false
  end.

(** The mode is toggled on, off and on again. *)
Definition toggled_thrice : @Sketch uno :=
  Eval vm_compute in
    ran fresh (@passes uno 3 fresh
                 {| cur := quiet 0;
                    future := [typed 1 "m"; typed 2 "m"; typed 3 "m"] |}).

(** ** Vocabulary of the further properties *)

(** Poll times that never go back and start no earlier than [t]. *)
Fixpoint ascending (t : Z) (polls : list poll) : Prop :=
  match polls with
  | [] => True
  | p :: rest => t <= now p /\ ascending (now p) rest
  end.

(** The number of CSV header lines in a piece of output. *)
Definition headers (o : list out) : nat := List.length (filter is_header o).

(** The line printed for a reading, by output mode (lines 106-118). *)
Definition reading_line (csv : bool) (r : reading) : list out :=
  if csv then
    [ Print (Num (timeSec r) 3); Print (Text ","); Println (Num (load r) 2) ]
  else
    [ Print (Text "t = "); Print (Num (timeSec r) 4);
      Print (Text (" s" ++ tab)); Print (Text "Force(N) = ");
      Println (Num (load r) 4) ].

(** The bytes the switch of [loop] has a case for. *)
Definition is_command (c : ascii) : bool :=
  Ascii.eqb c "t" || Ascii.eqb c "r" || Ascii.eqb c "c" ||
  Ascii.eqb c "m" || Ascii.eqb c "f" || Ascii.eqb c "h".

(** The command byte a pass of [loop] reads, if any. *)
Definition command (p : poll) : option ascii :=
  match rx p with
  | EmptyString => None
  | String c _ => Some c
  end.

(** A 't' is the first pending byte. *)
Definition tare_typed (p : poll) : bool :=
  match rx p with
  | EmptyString => false
  | String c _ => Ascii.eqb c "t"
  end.

Definition count_tare (polls : list poll) : nat :=
  List.length (filter tare_typed polls).

Section Effects.

Context {B : Board}.

(** What the y/n dialog does once it has its answer. *)
Definition answered (a : answer) (v : float32) (s : Sketch) : Sketch * float32 :=
  match a with
  | Yes => eeprom_save v s
  | No => (println (Text "Value not saved to EEPROM") s, v)
  end.

(** The whole effect of a calibration in which [n] tare requests were
    received, the known mass [known_mass] was entered, the driver computed
    [newCalibrationValue] and the answer was [a]. *)
Definition calibrated (n : nat) (known_mass newCalibrationValue : float32)
    (a : answer) (s : Sketch) : Sketch :=
  let s := emit [ Println (Text "*** Start calibration procedure");
                  Println (Text "Place the load cell on a stable surface with no load.");
                  Println (Text "Send 't' from serial monitor to tare.") ] s in
  let s := println (Text "Tare complete") (Nat.iter n tareNoDelay s) in
  let s := println (Text "Now place a known mass on the load cell and send its mass (e.g. 100.0)") s in
  let s := emit [Print (Text "Known mass is: "); Println (Num known_mass 2)] s in
  let s := setCalFactor newCalibrationValue s in
  let s := emit [ Print (Text "New calibration value has been set to: ");
                  Println (Num newCalibrationValue 6);
                  Print (Text "Save this value to EEPROM address ");
                  Print (Int calVal_eepromAdress);
                  Println (Text "? (y/n)") ] s in
  emit [ Println (Text "End calibration"); Println (Text "***") ]
       (fst (answered a newCalibrationValue s)).

(** The whole effect of the 'c' command with the entry [v] and the answer
    [a]. *)
Definition factor_entered (v : float32) (a : answer) (s : Sketch) : Sketch :=
  let s := emit [ Println (Text "*** Change calibration factor");
                  Print (Text "Current value is: ");
                  Println (Num (getCalFactor s) 6);
                  Println (Text "Send the new value from serial monitor, e.g. 696.0") ] s in
  let s := setCalFactor v
             (emit [ Print (Text "New calibration value is: ");
                     Println (Num v 6) ] s) in
  let s := emit [ Print (Text "Save this value to EEPROM address ");
                  Print (Int calVal_eepromAdress);
                  Println (Text "? y/n") ] s in
  emit [ Println (Text "End change calibration value"); Println (Text "***") ]
       (fst (answered a v s)).

(** The sketch keeps its header latch: as many header lines were printed
    as the latch says, and CSV mode is only on with the latch set. *)
Definition header_latch (s : Sketch) : Prop :=
  headers (Serial s) = (if printingHeader s then 1%nat else 0%nat) /\
  (csvMode s = true -> printingHeader s = true).

(** [t] differs from [s] at most in the driver, the EEPROM and the serial
    output, and no header line was added. *)
Definition dialog_frame (s t : Sketch) : Prop :=
  startTimeMs t = startTimeMs s /\ lastSampleMs t = lastSampleMs s /\
  sampleIntervalMs t = sampleIntervalMs s /\ csvMode t = csvMode s /\
  printingHeader t = printingHeader s /\
  headers (Serial t) = headers (Serial s).

End Effects.

Section Passes.

Context {B : Board}.

(** The first half of a pass of [loop]: the timed sampling and the
    printing of the reading (lines 97-119). *)
Definition sampled_pass (p : poll) (s : Sketch) : Sketch :=
  match take_sample p s with
  | (s1, Some r) => print_reading r s1
  | (s1, None) => s1
  end.

(** What the 'f' command leaves behind, by what the last poll of its wait
    shows. *)
Definition frequency_set (p : poll) (s : Sketch) : Sketch :=
  let asked := println (Text "Enter sample frequency in Hz (e.g. 100)") s in
  if available p then
    if F32.ltb F32.zero (parseFloat (rx p)) then
      match F32.to_ulong (F32.div (F32.of_Z 1000) (parseFloat (rx p))) with
      | Some n =>
          emit [ Print (Text "Sample rate set to: ");
                 Print (Num (parseFloat (rx p)) 1); Println (Text " Hz") ]
               (set_sampleIntervalMs n asked)
      | None => asked
      end
    else println (Text "Invalid frequency, ignored") asked
  else println (Text "No frequency received, ignored") asked.

End Passes.

(** Bench runs for the further properties. *)
Definition toggled_once : @Sketch uno :=
  Eval vm_compute in
    ran fresh (@loop uno fresh {| cur := quiet 0; future := [typed 1 "m"] |}).

Definition recalibrated : @Sketch uno :=
  Eval vm_compute in ran fresh (@case_r uno fresh (calibration_session "n")).

Definition started : @Sketch uno :=
  Eval vm_compute in
    ran fresh (@setup uno fresh
                 {| cur := quiet 0;
                    future := [ quiet 1; quiet 2; typed 3 "t"; tared 4;
                                entry 5 "100.0" f32_250_5; typed 7 "n";
                                quiet 8 ] |}).

(** The driver reports a tare time-out at time [t]. *)
Definition timed_out (t : Z) : poll :=
  {| millis := t; rx := EmptyString; update := false; data := F32.zero;
     tareStatus := false; tareTimeoutFlag := true;
     signalTimeoutFlag := false; newCalibration := fun _ => F32.one |}.

(** The value of [m * 2 ^ e] is at most [1 - 2 ^ -23]. *)
Definition slack_one (m e : Z) : Prop :=
  24 <= - e /\ m + 2 ^ (- e - 23) <= 2 ^ (- e).

(** The value of [m * 2 ^ e] is at least [2 ^ K]. *)
Definition ge_pow (m e K : Z) : Prop :=
  1 <= m /\ (e <= K -> 2 ^ (K - e) <= m).

(** 2^-23 Hz: at this rate and below the period in milliseconds no longer
    fits 32 bits. *)
Definition f32_too_slow : float32 := S754_finite false 8388608 (-46).

(** 1000 * 2^-32 Hz, the rate whose period is exactly 2^32 ms: the
    greatest rate at which the period no longer fits 32 bits. *)
Definition f32_threshold : float32 := S754_finite false 16384000 (-46).

(** The value of [m * 2 ^ e] is at most [2 ^ K - 2 ^ (K - 23)]. *)
Definition below_top (m e K : Z) : Prop :=
  0 <= K - 23 - e /\ m <= (2 ^ 23 - 1) * 2 ^ (K - 23 - e).
(** * Properties *)

(** ** Comparisons of binary32 values *)

Lemma leb_zero_or_ltb (x : float32) :
  F32.is_nan x = false ->
  F32.leb F32.zero x = negb (F32.ltb x F32.zero).
Proof.
  destruct x as [s | s | | s m e]; try destruct s; intros H;
    try reflexivity; discriminate H.
Qed.

(** ** clampZero *)

Lemma clampZero_idempotent (x : float32) :
  clampZero (clampZero x) = clampZero x.
Proof.
  destruct x as [s | s | | s m e]; try destruct s; reflexivity.
Qed.

Lemma clampZero_nan : clampZero S754_nan = S754_nan.
Proof. reflexivity. Qed.

(** C9, as stated, fails: a NaN reading is not [>= 0], yet [clampZero]
    returns it unchanged instead of 0, and the result is not non-negative. *)
Lemma clampZero_claim_fails_on_nan :
  ~ (forall x : float32,
        (F32.leb F32.zero x = true -> clampZero x = x) /\
        (F32.leb F32.zero x = false -> clampZero x = F32.zero) /\
        F32.leb F32.zero (clampZero x) = true).
Proof.
  intros H. destruct (H S754_nan) as (_ & H0 & _).
  specialize (H0 eq_refl). discriminate H0.
Qed.

(** C9 (amended): for every reading that is not NaN, [clampZero x] is [x]
    when [x >= 0] and [0] otherwise, so it is non-negative; a NaN reading
    is returned unchanged; and [clampZero] is idempotent on every input. *)
Theorem clampZero_spec (x : float32) :
  (F32.is_nan x = false ->
     (F32.leb F32.zero x = true -> clampZero x = x) /\
     (F32.leb F32.zero x = false -> clampZero x = F32.zero) /\
     F32.leb F32.zero (clampZero x) = true) /\
  (F32.is_nan x = true -> clampZero x = x) /\
  clampZero (clampZero x) = clampZero x.
Proof.
  split; [| split].
  - intros Hn. rewrite (leb_zero_or_ltb x Hn). unfold clampZero.
    destruct (F32.ltb x F32.zero) eqn:E; cbn [negb].
    + split; [discriminate | split; reflexivity].
    + split; [reflexivity | split; [discriminate |]].
      rewrite (leb_zero_or_ltb x Hn), E. reflexivity.
  - destruct x; try discriminate. reflexivity.
  - apply clampZero_idempotent.
Qed.

Lemma clampZero_spec_witness :
  clampZero f32_minus_5 = F32.zero /\ clampZero f32_50 = f32_50 /\
  F32.leb F32.zero (clampZero f32_minus_5) = true.
Proof.
  destruct (clampZero_spec f32_minus_5) as [Hneg _].
  destruct (clampZero_spec f32_50) as [Hpos _].
  destruct (Hneg eq_refl) as (_ & Hz & Hnn).
  destruct (Hpos eq_refl) as (Hk & _ & _).
  exact (conj (Hz eq_refl) (conj (Hk eq_refl) Hnn)).
Defined.

(** ** The persistent calibration factor *)

Section Store.

Context {B : Board}.

Lemma getCalFactor_setCalFactor (f : float32) (s : Sketch) :
  getCalFactor (setCalFactor f s) = f.
Proof. reflexivity. Qed.

Lemma setup_load_stored (s : Sketch) :
  F32.is_nan (EEPROM_get (EEPROM s)) = false ->
  F32.eqb (EEPROM_get (EEPROM s)) F32.zero = false ->
  setup_load s =
    emit [ Print (Text "Loaded calFactor from EEPROM: ");
           Println (Num (EEPROM_get (EEPROM s)) 6) ]
         (setCalFactor (EEPROM_get (EEPROM s)) s).
Proof. intros Hn Hz. unfold setup_load. rewrite Hn, Hz. reflexivity. Qed.

Lemma setup_load_default (s : Sketch) :
  F32.is_nan (EEPROM_get (EEPROM s)) = true \/
  F32.eqb (EEPROM_get (EEPROM s)) F32.zero = true ->
  setup_load s =
    println (Text "Using default calFactor = 1.0 (no EEPROM value found)")
            (setCalFactor F32.one s).
Proof.
  intros [H | H]; unfold setup_load; rewrite H.
  - reflexivity.
  - rewrite andb_false_r. reflexivity.
Qed.

(** C4: [setup] installs the default 1.0 when the stored value is NaN or
    zero and the stored value itself otherwise, and the line it prints
    names the source that was used. *)
Theorem setup_load_spec (s : Sketch) :
  let savedCal := EEPROM_get (EEPROM s) in
  (F32.is_nan savedCal = true \/ F32.eqb savedCal F32.zero = true ->
     getCalFactor (setup_load s) = F32.one /\
     Serial (setup_load s) =
       Serial s ++
       [Println (Text "Using default calFactor = 1.0 (no EEPROM value found)")]) /\
  (F32.is_nan savedCal = false /\ F32.eqb savedCal F32.zero = false ->
     getCalFactor (setup_load s) = savedCal /\
     Serial (setup_load s) =
       Serial s ++
       [Print (Text "Loaded calFactor from EEPROM: "); Println (Num savedCal 6)]) /\
  EEPROM (setup_load s) = EEPROM s.
Proof.
  cbv zeta. split; [| split].
  - intros H. rewrite (setup_load_default s H). split; reflexivity.
  - intros [Hn Hz]. rewrite (setup_load_stored s Hn Hz). split; reflexivity.
  - unfold setup_load.
    destruct (negb (F32.is_nan (EEPROM_get (EEPROM s))) &&
              negb (F32.eqb (EEPROM_get (EEPROM s)) F32.zero)); reflexivity.
Qed.

Lemma eeprom_save_reread (f : float32) (s : Sketch) :
  snd (eeprom_save f s) = EEPROM_get (EEPROM_put (EEPROM s) f) /\
  EEPROM (fst (eeprom_save f s)) = EEPROM_put (EEPROM s) f /\
  Serial (fst (eeprom_save f s)) =
    Serial s ++
    [ Print (Text "Value ");
      Print (Num (EEPROM_get (EEPROM_put (EEPROM s) f)) 6);
      Print (Text " saved to EEPROM address: ");
      Println (Int calVal_eepromAdress) ].
Proof. repeat split. Qed.

(** C5: the save reads the cell back and keeps and prints the value read,
    whatever was passed in; and on a cell that returns what was written,
    saving a finite non-zero factor and loading it at the next start gives
    the same factor. *)
Theorem save_then_load (s : Sketch) (f : float32) :
  let saved := fst (eeprom_save f s) in
  let reread := EEPROM_get (EEPROM_put (EEPROM s) f) in
  snd (eeprom_save f s) = reread /\
  Serial saved =
    Serial s ++
    [ Print (Text "Value "); Print (Num reread 6);
      Print (Text " saved to EEPROM address: ");
      Println (Int calVal_eepromAdress) ] /\
  (F32.is_finite f = true -> F32.eqb f F32.zero = false -> reread = f ->
     getCalFactor (setup_load (power_on (EEPROM saved))) = f /\
     getCalFactor (setup_load saved) = f).
Proof.
  intros saved reread. split; [reflexivity | split; [reflexivity |]].
  intros Hfin Hnz Hcell.
  assert (Hn : F32.is_nan f = false) by (destruct f; try discriminate; reflexivity).
  assert (Hload : forall t : Sketch,
             EEPROM t = EEPROM saved -> getCalFactor (setup_load t) = f).
  { intros t Ht.
    assert (Hget : EEPROM_get (EEPROM t) = f).
    { rewrite Ht. subst saved. cbn. exact Hcell. }
    rewrite setup_load_stored; rewrite Hget; try assumption. reflexivity. }
  split; apply Hload; reflexivity.
Qed.

End Store.

Lemma setup_load_spec_witness :
  getCalFactor (@setup_load uno (@power_on uno S754_nan)) = F32.one /\
  getCalFactor (@setup_load uno (@power_on uno F32.zero)) = F32.one /\
  getCalFactor (@setup_load uno (@power_on uno f32_250_5)) = f32_250_5.
Proof.
  destruct (@setup_load_spec uno (@power_on uno S754_nan)) as (Hnan & _ & _).
  destruct (@setup_load_spec uno (@power_on uno F32.zero)) as (Hzero & _ & _).
  destruct (@setup_load_spec uno (@power_on uno f32_250_5)) as (_ & Hkeep & _).
  exact (conj (proj1 (Hnan (or_introl eq_refl)))
           (conj (proj1 (Hzero (or_intror eq_refl)))
                 (proj1 (Hkeep (conj eq_refl eq_refl))))).
Defined.

(** On the worn cell the line printed by the save shows the cell's old
    content, not the factor that was passed in. *)
Example eeprom_save_reports_cell :
  snd (@eeprom_save worn f32_250_5 (@power_on worn S754_nan)) = S754_nan.
Proof. reflexivity. Qed.

Lemma save_then_load_witness :
  getCalFactor (@setup_load uno
     (@power_on uno (EEPROM (fst (@eeprom_save uno f32_250_5 (@power_on uno S754_nan))))))
  = f32_250_5.
Proof.
  destruct (@save_then_load uno (@power_on uno S754_nan) f32_250_5) as (_ & _ & H).
  exact (proj1 (H eq_refl eq_refl eq_refl)).
Defined.

(** ** The sample schedule *)

Lemma wrap32_range (z : Z) : 0 <= wrap32 z < 2 ^ 32.
Proof. unfold wrap32. apply Z.mod_pos_bound. reflexivity. Qed.

Lemma wrap32_small (z : Z) : 0 <= z < 2 ^ 32 -> wrap32 z = z.
Proof. intros H. unfold wrap32. apply Z.mod_small. exact H. Qed.

Lemma wrap32_add_l (a b : Z) : wrap32 (wrap32 a + b) = wrap32 (a + b).
Proof. unfold wrap32. apply Zplus_mod_idemp_l. Qed.

Lemma now_range (p : poll) : 0 <= now p < 2 ^ 32.
Proof. apply wrap32_range. Qed.

Section Schedule.

Context {B : Board}.

Lemma take_sample_due (s : Sketch) (p : poll) :
  sample_due p s = true ->
  take_sample p s =
    (set_lastSampleMs (wrap32 (lastSampleMs s + sampleIntervalMs s)) s,
     Some {| elapsedMs := wrap32 (now p - startTimeMs s);
             timeSec := F32.div (F32.of_Z (wrap32 (now p - startTimeMs s)))
                                (F32.of_Z 1000);
             load := clampZero (data p) |}).
Proof. intros H. unfold take_sample. rewrite H. reflexivity. Qed.

Lemma take_sample_not_due (s : Sketch) (p : poll) :
  sample_due p s = false -> take_sample p s = (s, None).
Proof. intros H. unfold take_sample. rewrite H. reflexivity. Qed.

(** Sampling touches the reference point only. *)
Lemma take_sample_frame (s : Sketch) (p : poll) :
  let s' := fst (take_sample p s) in
  startTimeMs s' = startTimeMs s /\ sampleIntervalMs s' = sampleIntervalMs s /\
  csvMode s' = csvMode s /\ printingHeader s' = printingHeader s /\
  LoadCell s' = LoadCell s /\ EEPROM s' = EEPROM s /\ Serial s' = Serial s.
Proof.
  cbv zeta. unfold take_sample.
  destruct (sample_due p s); cbn; repeat split.
Qed.

Lemma take_sample_reference (s : Sketch) (p : poll) :
  wrap32 (lastSampleMs (fst (take_sample p s))) =
  wrap32 (lastSampleMs s +
          (match snd (take_sample p s) with Some _ => 1 | None => 0 end) * sampleIntervalMs s).
Proof.
  unfold take_sample. destruct (sample_due p s); cbn [fst snd lastSampleMs set_lastSampleMs].
  - rewrite Z.mul_1_l. unfold wrap32. apply Z.mod_mod. discriminate.
  - rewrite Z.mul_0_l, Z.add_0_r. reflexivity.
Qed.

Lemma take_sample_elapsed (s : Sketch) (p : poll) (r : reading) :
  snd (take_sample p s) = Some r ->
  elapsedMs r = wrap32 (now p - startTimeMs s) /\ load r = clampZero (data p).
Proof.
  unfold take_sample. destruct (sample_due p s); cbn [snd]; intros H.
  - injection H as <-. split; reflexivity.
  - discriminate H.
Qed.

(** A pass of [loop] with nothing on the serial line is the timed sampling
    and the printing of the reading, if there is one. *)
Lemma loop_quiet (s : Sketch) (p0 p : poll) (rest : list poll) :
  available p = false ->
  loop s {| cur := p0; future := p :: rest |} =
    Ret (match snd (take_sample p s) with
         | Some r => print_reading r (fst (take_sample p s))
         | None => fst (take_sample p s)
         end,
         {| cur := p; future := rest |}).
Proof.
  unfold available, loop, bind, advance. cbn [future].
  destruct (rx p); [| discriminate].
  intros _. destruct (take_sample p s) as [s1 [r |]]; reflexivity.
Qed.

(** C1, as stated, fails: with interval 10 and polls at 13 ms and 27 ms the
    two readings carry 13 and 27, which differ by 14. *)
Lemma elapsed_not_arithmetic :
  ~ (forall (s : @Sketch uno) (polls : list poll),
        arithmetic (sampleIntervalMs s)
                   (map elapsedMs (snd (sample_run s polls))) = true).
Proof.
  intros H.
  discriminate (H (@power_on uno F32.one)
                  [sampled 13 F32.zero; sampled 27 F32.zero]).
Qed.

(** C1 (amended): with a fixed interval [I], after any sequence of polls
    that emitted [k] readings the reference point of the schedule is its
    initial value plus [k * I] on 32 bits, however irregularly the polls
    arrive; the elapsed value attached to a reading is the time of the poll
    that emitted it minus the start time. *)
Theorem sample_run_schedule (s : Sketch) (polls : list poll) :
  let s' := fst (sample_run s polls) in
  let rs := snd (sample_run s polls) in
  sampleIntervalMs s' = sampleIntervalMs s /\
  startTimeMs s' = startTimeMs s /\
  wrap32 (lastSampleMs s') =
    wrap32 (lastSampleMs s + Z.of_nat (List.length rs) * sampleIntervalMs s) /\
  Forall (fun r => exists p, In p polls /\
                             elapsedMs r = wrap32 (now p - startTimeMs s)) rs.
Proof.
  cbv zeta. revert s. induction polls as [| p rest IH]; intros s.
  - cbn. rewrite Z.add_0_r. repeat split. constructor.
  - cbn [sample_run].
    destruct (take_sample p s) as [s1 r] eqn:E1.
    destruct (sample_run s1 rest) as [s2 rs] eqn:E2.
    specialize (IH s1). rewrite E2 in IH. cbn [fst snd] in IH |- *.
    destruct IH as (Hi & Hs & Hl & Hall).
    pose proof (take_sample_frame s p) as Hf. cbv zeta in Hf.
    pose proof (take_sample_reference s p) as Hr.
    pose proof (take_sample_elapsed s p) as He.
    rewrite E1 in Hf, Hr, He. cbn [fst snd] in Hf, Hr, He.
    destruct Hf as (Hf1 & Hf2 & _).
    repeat split.
    + congruence.
    + congruence.
    + rewrite Hl, Hf2.
      rewrite <- wrap32_add_l, Hr, wrap32_add_l.
      f_equal. destruct r; cbn [List.length]; lia.
    + assert (Hrest : Forall (fun r0 => exists q, In q (p :: rest) /\
                          elapsedMs r0 = wrap32 (now q - startTimeMs s)) rs).
      { eapply Forall_impl; [| exact Hall].
        intros r0 (q & Hq & Hr0). exists q. split; [right; exact Hq |].
        rewrite Hr0, Hf1. reflexivity. }
      destruct r as [r |]; [| exact Hrest].
      constructor; [| exact Hrest].
      exists p. split; [left; reflexivity |].
      apply (He r). reflexivity.
Qed.

(** C2, as stated, fails: after a reading emitted 35 ms late with interval
    10, the poll 1 ms later emits again; the missed ticks are not skipped. *)
Lemma missed_ticks_not_skipped : ~ @skips_missed_ticks uno.
Proof.
  intros H.
  assert (E : snd (@take_sample uno (sampled 36 F32.zero)
                     (fst (@take_sample uno (sampled 35 F32.zero)
                             (@power_on uno F32.one)))) = None).
  { apply H.
    - reflexivity.
    - intros X. discriminate X.
    - reflexivity. }
  discriminate E.
Qed.

Example catch_up_burst :
  let run := sample_run (@power_on uno F32.one)
               [sampled 35 F32.zero; sampled 36 F32.zero;
                sampled 37 F32.zero; sampled 38 F32.zero] in
  map elapsedMs (snd run) = [35; 36; 37] /\ lastSampleMs (fst run) = 30.
Proof. split; reflexivity. Qed.

(** C2 (amended): a poll emits at most one reading, and only when an
    interval has elapsed since the reference point; an emitting poll
    advances the reference point by exactly one interval, whatever the
    current time is, and a poll that does not emit leaves the state as it
    is.  Ticks that were missed are not skipped: when the polls of [late]
    come no earlier than [length late] intervals after the reference point,
    every one of them emits a reading. *)
Theorem sample_catch_up (s : Sketch) (p : poll) (late : list poll) :
  0 <= sampleIntervalMs s ->
  0 <= lastSampleMs s ->
  Forall (fun q => lastSampleMs s + Z.of_nat (List.length late) * sampleIntervalMs s
                   <= now q) late ->
  (sample_due p s = true ->
     lastSampleMs (fst (take_sample p s)) =
       wrap32 (lastSampleMs s + sampleIntervalMs s) /\
     exists r, snd (take_sample p s) = Some r) /\
  (sample_due p s = false -> take_sample p s = (s, None)) /\
  List.length (snd (sample_run s late)) = List.length late /\
  lastSampleMs (fst (sample_run s late)) =
    lastSampleMs s + Z.of_nat (List.length late) * sampleIntervalMs s.
Proof.
  intros HI Hl Hlate. split; [| split].
  - intros Hd. rewrite (take_sample_due s p Hd). cbn. split; [reflexivity | eauto].
  - apply take_sample_not_due.
  - clear p. revert s HI Hl Hlate.
    induction late as [| q rest IH]; intros s HI Hl Hlate.
    + cbn. split; [reflexivity | lia].
    + inversion Hlate as [| q' rest' Hq Hrest]; subst.
      cbn [List.length] in Hq, Hrest.
      pose proof (now_range q) as Hnq.
      assert (Hd : sample_due q s = true).
      { unfold sample_due. apply Z.leb_le.
        rewrite wrap32_small by nia. nia. }
      cbn [sample_run]. rewrite (take_sample_due s q Hd).
      set (s1 := set_lastSampleMs (wrap32 (lastSampleMs s + sampleIntervalMs s)) s).
      assert (Hs1 : lastSampleMs s1 = lastSampleMs s + sampleIntervalMs s).
      { subst s1. cbn. apply wrap32_small. nia. }
      assert (Hi1 : sampleIntervalMs s1 = sampleIntervalMs s) by reflexivity.
      specialize (IH s1).
      destruct (sample_run s1 rest) as [s2 rs] eqn:E2. cbn [fst snd] in IH |- *.
      destruct IH as [IHn IHl].
      * rewrite Hi1. exact HI.
      * rewrite Hs1. lia.
      * eapply Forall_impl; [| exact Hrest].
        intros a Ha. cbn beta in Ha. rewrite Hs1, Hi1. nia.
      * cbn [List.length]. split; [congruence |].
        rewrite IHl, Hs1, Hi1. lia.
Qed.

End Schedule.

Lemma sample_catch_up_witness :
  List.length (snd (sample_run (@power_on uno F32.one)
                 [sampled 35 F32.zero; sampled 36 F32.zero; sampled 37 F32.zero]))
  = 3%nat.
Proof.
  refine (proj1 (proj2 (proj2
    (@sample_catch_up uno (@power_on uno F32.one) (sampled 35 F32.zero)
       [sampled 35 F32.zero; sampled 36 F32.zero; sampled 37 F32.zero] _ _ _)))).
  - cbn. lia.
  - cbn. lia.
  - repeat constructor; discriminate.
Defined.

(** ** Polling loops *)

Lemma bind_ret_inv {A C : Type} (c : prog A) (k : A -> prog C) (w : world)
    (x : C * world) :
  bind c k w = Ret x ->
  exists a w1, c w = Ret (a, w1) /\ k a w1 = Ret x.
Proof.
  unfold bind. destruct (c w) as [[a w1] | | |]; intros H; try discriminate H.
  exists a, w1. split; [reflexivity | exact H].
Qed.

Lemma spin_cons {S : Type} (body : poll -> S -> S * bool) (q : poll)
    (idle : list poll) (s : S) :
  spin body (q :: idle) s = spin body idle (fst (body q s)).
Proof. reflexivity. Qed.

Lemma spin_invariant {S : Type} (body : poll -> S -> S * bool) (P : S -> Prop) :
  (forall q s, P s -> P (fst (body q s))) ->
  forall idle s, P s -> P (spin body idle s).
Proof.
  intros Hstep idle. induction idle as [| q rest IH]; intros s Hs.
  - exact Hs.
  - cbn. apply IH. apply Hstep. exact Hs.
Qed.

Section WaitLoop.

Context {S : Type} (body : poll -> S -> S * bool) (ends : poll -> bool).
Hypothesis body_ends : forall p s, snd (body p s) = ends p.

(** A wait returns exactly when some poll ends it: the polls before that
    one are passed over, and the rest of the script is left untouched. *)
Lemma wait_loop_ret_inv (s s' : S) (fut : list poll) (w' : world) :
  wait_loop body s fut = Ret (s', w') ->
  exists idle,
    fut = idle ++ cur w' :: future w' /\
    Forall (fun q => ends q = false) idle /\
    ends (cur w') = true /\
    s' = fst (body (cur w') (spin body idle s)).
Proof.
  revert s. induction fut as [| p rest IH]; intros s H.
  - discriminate H.
  - cbn [wait_loop] in H. pose proof (body_ends p s) as He.
    destruct (body p s) as [s1 resume] eqn:Eb. cbn [snd] in He. subst resume.
    destruct (ends p) eqn:Ep.
    + injection H as <- <-. exists []. cbn.
      rewrite Eb. repeat split; [constructor | exact Ep].
    + destruct (IH s1 H) as (idle & Hf & Hall & Hend & Hs).
      exists (p :: idle). cbn. rewrite Eb. cbn [fst].
      repeat split; [congruence | constructor; assumption | exact Hend | exact Hs].
Qed.

Lemma wait_loop_ret (s : S) (idle : list poll) (p : poll) (rest : list poll) :
  Forall (fun q => ends q = false) idle ->
  ends p = true ->
  wait_loop body s (idle ++ p :: rest) =
    Ret (fst (body p (spin body idle s)), {| cur := p; future := rest |}).
Proof.
  intros Hall Hp. revert s. induction Hall as [| q idle Hq Hall IH]; intros s.
  - cbn. pose proof (body_ends p s) as He.
    destruct (body p s) as [s1 resume]. cbn [snd] in He. subst resume.
    rewrite Hp. reflexivity.
  - cbn. pose proof (body_ends q s) as He.
    destruct (body q s) as [s1 resume]. cbn [snd] in He. subst resume.
    rewrite Hq. cbn [fst]. apply IH.
Qed.

(** Without a poll that ends it the wait uses up the script. *)
Lemma wait_loop_starved (s : S) (idle : list poll) :
  Forall (fun q => ends q = false) idle ->
  wait_loop body s idle = Starved.
Proof.
  intros Hall. revert s. induction Hall as [| q idle Hq Hall IH]; intros s.
  - reflexivity.
  - cbn. pose proof (body_ends q s) as He.
    destruct (body q s) as [s1 resume]. cbn [snd] in He. subst resume.
    rewrite Hq. apply IH.
Qed.

End WaitLoop.

(** ** The dialogs *)

Section Dialogs.

Context {B : Board}.

Lemma tare_iter_ends (p : poll) (s : Sketch) :
  snd (tare_iter p s) = tareStatus p.
Proof. unfold tare_iter. destruct (tareStatus p); reflexivity. Qed.

Lemma mass_iter_ends (p : poll) (st : Sketch * float32) :
  snd (mass_iter p st) = mass_entered p.
Proof.
  unfold mass_iter, mass_entered. destruct st as [s m].
  destruct (available p); [| reflexivity].
  destruct (F32.eqb (parseFloat (rx p)) F32.zero); reflexivity.
Qed.

Lemma factor_iter_ends (p : poll) (st : Sketch * float32) :
  snd (factor_iter p st) = mass_entered p.
Proof.
  unfold factor_iter, mass_entered. destruct st as [s m].
  destruct (available p); [| reflexivity].
  destruct (F32.eqb (parseFloat (rx p)) F32.zero); reflexivity.
Qed.

Lemma decision_iter_ends (p : poll) (st : Sketch * float32) :
  snd (decision_iter p st) = decided p.
Proof.
  unfold decision_iter, decided, decision. destruct st as [s v].
  destruct (rx p) as [| c r]; [reflexivity |].
  destruct (Ascii.eqb c "y"); [reflexivity |].
  destruct (Ascii.eqb c "n"); reflexivity.
Qed.

Lemma decided_false (p : poll) : decided p = false <-> decision p = None.
Proof. unfold decided. destruct (decision p); split; congruence. Qed.

Lemma decided_true (p : poll) : decided p = true <-> exists a, decision p = Some a.
Proof.
  unfold decided. destruct (decision p) as [a |]; split; try congruence.
  - intros _. exists a. reflexivity.
  - intros [a Ha]. discriminate Ha.
Qed.

(** The tare wait changes nothing but the count of tare requests. *)
Lemma tare_iter_frame (p : poll) (s : Sketch) :
  EEPROM (fst (tare_iter p s)) = EEPROM s /\
  getCalFactor (fst (tare_iter p s)) = getCalFactor s /\
  sampleIntervalMs (fst (tare_iter p s)) = sampleIntervalMs s.
Proof.
  unfold tare_iter.
  destruct (rx p) as [| c r]; [| destruct (Ascii.eqb c "t")];
    destruct (tareStatus p); repeat split.
Qed.

Lemma spin_tare_frame (idle : list poll) (s : Sketch) :
  EEPROM (spin tare_iter idle s) = EEPROM s /\
  getCalFactor (spin tare_iter idle s) = getCalFactor s /\
  sampleIntervalMs (spin tare_iter idle s) = sampleIntervalMs s.
Proof.
  apply (spin_invariant tare_iter
           (fun t => EEPROM t = EEPROM s /\ getCalFactor t = getCalFactor s /\
                     sampleIntervalMs t = sampleIntervalMs s)).
  - intros q t (H1 & H2 & H3).
    destruct (tare_iter_frame q t) as (F1 & F2 & F3).
    repeat split; congruence.
  - repeat split.
Qed.

(** An entry that is zero, or no entry at all, leaves the sketch as it was
    and the wait goes on. *)
Lemma mass_iter_rejects (p : poll) (s : Sketch) (m : float32) :
  mass_entered p = false ->
  fst (fst (mass_iter p (s, m))) = s /\ snd (mass_iter p (s, m)) = false.
Proof.
  unfold mass_iter, mass_entered.
  destruct (available p); [| split; reflexivity].
  destruct (F32.eqb (parseFloat (rx p)) F32.zero); cbn; intros H;
    [split; reflexivity | discriminate H].
Qed.

Lemma mass_iter_accepts (p : poll) (s : Sketch) (m : float32) :
  mass_entered p = true ->
  mass_iter p (s, m) =
    ((emit [Print (Text "Known mass is: "); Println (Num (parseFloat (rx p)) 2)] s,
      parseFloat (rx p)), true).
Proof.
  unfold mass_iter, mass_entered.
  destruct (available p); [| discriminate].
  destruct (F32.eqb (parseFloat (rx p)) F32.zero); cbn; intros H;
    [discriminate H | reflexivity].
Qed.

Lemma factor_iter_rejects (p : poll) (s : Sketch) (v : float32) :
  mass_entered p = false ->
  fst (fst (factor_iter p (s, v))) = s /\ snd (factor_iter p (s, v)) = false.
Proof.
  unfold factor_iter, mass_entered.
  destruct (available p); [| split; reflexivity].
  destruct (F32.eqb (parseFloat (rx p)) F32.zero); cbn; intros H;
    [split; reflexivity | discriminate H].
Qed.

Lemma factor_iter_accepts (p : poll) (s : Sketch) (v : float32) :
  mass_entered p = true ->
  factor_iter p (s, v) =
    ((setCalFactor (parseFloat (rx p))
        (emit [ Print (Text "New calibration value is: ");
                Println (Num (parseFloat (rx p)) 6) ] s),
      parseFloat (rx p)), true).
Proof.
  unfold factor_iter, mass_entered.
  destruct (available p); [| discriminate].
  destruct (F32.eqb (parseFloat (rx p)) F32.zero); cbn; intros H;
    [discriminate H | reflexivity].
Qed.

Lemma spin_mass_idle (idle : list poll) (s : Sketch) (m : float32) :
  Forall (fun q => mass_entered q = false) idle ->
  fst (spin mass_iter idle (s, m)) = s.
Proof.
  intros Hall. revert m. induction Hall as [| q idle Hq Hall IH]; intros m.
  - reflexivity.
  - rewrite spin_cons. destruct (mass_iter_rejects q s m Hq) as [Hs _].
    destruct (mass_iter q (s, m)) as [[s1 m1] r]. cbn [fst] in Hs |- *. subst s1.
    apply IH.
Qed.

Lemma spin_factor_idle (idle : list poll) (s : Sketch) (v : float32) :
  Forall (fun q => mass_entered q = false) idle ->
  fst (spin factor_iter idle (s, v)) = s.
Proof.
  intros Hall. revert v. induction Hall as [| q idle Hq Hall IH]; intros v.
  - reflexivity.
  - rewrite spin_cons. destruct (factor_iter_rejects q s v Hq) as [Hs _].
    destruct (factor_iter q (s, v)) as [[s1 v1] r]. cbn [fst] in Hs |- *. subst s1.
    apply IH.
Qed.

Lemma decision_iter_idle (p : poll) (st : Sketch * float32) :
  decision p = None -> decision_iter p st = (st, false).
Proof.
  unfold decision, decision_iter. destruct st as [s v].
  destruct (rx p) as [| c r]; [reflexivity |].
  destruct (Ascii.eqb c "y"); [discriminate |].
  destruct (Ascii.eqb c "n"); [discriminate | reflexivity].
Qed.

Lemma decision_iter_yes (p : poll) (s : Sketch) (v : float32) :
  decision p = Some Yes -> decision_iter p (s, v) = (eeprom_save v s, true).
Proof.
  unfold decision, decision_iter.
  destruct (rx p) as [| c r]; [discriminate |].
  destruct (Ascii.eqb c "y"); [reflexivity |].
  destruct (Ascii.eqb c "n"); discriminate.
Qed.

Lemma decision_iter_no (p : poll) (s : Sketch) (v : float32) :
  decision p = Some No ->
  decision_iter p (s, v) =
    ((println (Text "Value not saved to EEPROM") s, v), true).
Proof.
  unfold decision, decision_iter.
  destruct (rx p) as [| c r]; [discriminate |].
  destruct (Ascii.eqb c "y"); [discriminate |].
  destruct (Ascii.eqb c "n"); [reflexivity | discriminate].
Qed.

Lemma spin_decision_idle (idle : list poll) (st : Sketch * float32) :
  Forall (fun q => decision q = None) idle ->
  spin decision_iter idle st = st.
Proof.
  intros Hall. induction Hall as [| q idle Hq Hall IH].
  - reflexivity.
  - rewrite spin_cons, (decision_iter_idle q st Hq). exact IH.
Qed.

(** What the y/n dialog leaves behind, by answer. *)
Lemma decision_wait_inv (s : Sketch) (v : float32) (st' : Sketch * float32)
    (w w' : world) :
  busy_wait decision_iter (s, v) w = Ret (st', w') ->
  exists idle a,
    future w = idle ++ cur w' :: future w' /\
    Forall (fun q => decision q = None) idle /\
    decision (cur w') = Some a /\
    st' = match a with
          | Yes => eeprom_save v s
          | No => (println (Text "Value not saved to EEPROM") s, v)
          end.
Proof.
  unfold busy_wait. intros H.
  destruct (wait_loop_ret_inv decision_iter decided decision_iter_ends _ _ _ _ H)
    as (idle & Hf & Hall & Hend & Hs).
  assert (Hall' : Forall (fun q => decision q = None) idle).
  { eapply Forall_impl; [| exact Hall]. intros q. apply decided_false. }
  apply decided_true in Hend. destruct Hend as [a Ha].
  exists idle, a. repeat split; try assumption.
  rewrite (spin_decision_idle idle (s, v) Hall') in Hs.
  destruct a.
  - rewrite (decision_iter_yes _ s v Ha) in Hs. exact Hs.
  - rewrite (decision_iter_no _ s v Ha) in Hs. exact Hs.
Qed.

End Dialogs.

(** ** calibrate *)

Section Calibrate.

Context {B : Board}.

(** C3: when [calibrate] returns, the polls it used are, in this order:
    polls at which the driver did not report the tare done, one at which it
    did; polls with no entry or a zero entry, one with a non-zero known
    mass; polls with no answer, one with 'y' or 'n'.  After the answer 'n'
    the EEPROM holds what it held before the procedure ran. *)
Theorem calibrate_stages (s s' : Sketch) (w w' : world) :
  calibrate s w = Ret (s', w') ->
  exists idle1 pt idle2 pm idle3 pd a,
    future w = idle1 ++ pt :: idle2 ++ pm :: idle3 ++ pd :: future w' /\
    cur w' = pd /\
    Forall (fun q => tareStatus q = false) idle1 /\ tareStatus pt = true /\
    Forall (fun q => mass_entered q = false) idle2 /\ mass_entered pm = true /\
    Forall (fun q => decision q = None) idle3 /\ decision pd = Some a /\
    (a = No -> EEPROM s' = EEPROM s) /\
    (a = Yes -> EEPROM s' =
                EEPROM_put (EEPROM s) (newCalibration pm (parseFloat (rx pm)))).
Proof.
  unfold calibrate. intros H.
  match type of H with
  | context [busy_wait tare_iter ?x] => remember x as s0 eqn:Es0
  end.
  apply bind_ret_inv in H. destruct H as (s1 & w1 & H1 & H).
  match type of H with
  | context [busy_wait mass_iter (?x, _)] => remember x as s1' eqn:Es1
  end.
  apply bind_ret_inv in H. destruct H as ([s2 m] & w2 & H2 & H).
  apply bind_ret_inv in H. destruct H as (pm & w2' & Hc & H).
  unfold current in Hc. injection Hc as <- <-.
  match type of H with
  | context [busy_wait decision_iter (?x, _)] => remember x as s2' eqn:Es2
  end.
  apply bind_ret_inv in H. destruct H as (st3 & w3 & H3 & H).
  unfold ret in H. injection H as <- <-.
  unfold busy_wait in H1, H2.
  destruct (wait_loop_ret_inv tare_iter tareStatus tare_iter_ends _ _ _ _ H1)
    as (idle1 & Hf1 & Hall1 & Hend1 & Hs1).
  destruct (wait_loop_ret_inv mass_iter mass_entered mass_iter_ends _ _ _ _ H2)
    as (idle2 & Hf2 & Hall2 & Hend2 & Hs2).
  destruct (decision_wait_inv _ _ _ _ _ H3) as (idle3 & a & Hf3 & Hall3 & Ha & Hs3).
  exists idle1, (cur w1), idle2, (cur w2), idle3, (cur w3), a.
  (* the sketch after the second wait *)
  pose proof (spin_mass_idle idle2 s1' F32.zero Hall2) as Hsp.
  destruct (spin mass_iter idle2 (s1', F32.zero)) as [t m0] eqn:Esp.
  cbn [fst] in Hsp. subst t.
  rewrite (mass_iter_accepts _ _ m0 Hend2) in Hs2. cbn [fst] in Hs2.
  injection Hs2 as Hs2 Hm.
  (* the store before the third wait *)
  assert (He1 : EEPROM s1 = EEPROM s).
  { rewrite Hs1. destruct (tare_iter_frame (cur w1) (spin tare_iter idle1 s0)) as [F _].
    rewrite F. destruct (spin_tare_frame idle1 s0) as [F' _].
    rewrite F', Es0. reflexivity. }
  assert (He2 : EEPROM s2' = EEPROM s).
  { rewrite Es2, Hs2, Es1. cbn. exact He1. }
  repeat split; try assumption.
  - rewrite Hf1, Hf2, Hf3. reflexivity.
  - intros ->. rewrite Hs3. cbn. exact He2.
  - intros ->. rewrite Hs3. cbn. rewrite He2, Hm. reflexivity.
Qed.

(** On every script of that shape [calibrate] does return. *)
Lemma calibrate_returns (s : Sketch) (p0 : poll)
    (idle1 : list poll) (pt : poll) (idle2 : list poll) (pm : poll)
    (idle3 : list poll) (pd : poll) (rest : list poll) :
  Forall (fun q => tareStatus q = false) idle1 -> tareStatus pt = true ->
  Forall (fun q => mass_entered q = false) idle2 -> mass_entered pm = true ->
  Forall (fun q => decision q = None) idle3 -> decided pd = true ->
  exists s',
    calibrate s {| cur := p0;
                   future := idle1 ++ pt :: idle2 ++ pm :: idle3 ++ pd :: rest |}
    = Ret (s', {| cur := pd; future := rest |}).
Proof.
  intros H1 Ht H2 Hm H3 Hd.
  assert (H3' : Forall (fun q => decided q = false) idle3).
  { eapply Forall_impl; [| exact H3]. intros q. apply decided_false. }
  unfold calibrate, bind, busy_wait, current, ret. cbn [future cur].
  rewrite (wait_loop_ret tare_iter tareStatus tare_iter_ends _ idle1 pt _ H1 Ht).
  cbn [future cur].
  rewrite (wait_loop_ret mass_iter mass_entered mass_iter_ends _ idle2 pm _ H2 Hm).
  cbn [future cur].
  match goal with
  | |- context [mass_iter pm ?st] => destruct st as [t m0]
  end.
  rewrite (mass_iter_accepts pm t m0 Hm). cbn [fst snd future cur].
  rewrite (wait_loop_ret decision_iter decided decision_iter_ends _ idle3 pd _ H3' Hd).
  eexists. reflexivity.
Qed.

End Calibrate.

Lemma calibrate_stages_witness : EEPROM calibrated_no = EEPROM fresh.
Proof.
  destruct (@calibrate_stages uno fresh calibrated_no
              (calibration_session "n") after_session eq_refl)
    as (i1 & pt & i2 & pm & i3 & pd & a & _ & Hc & _ & _ & _ & _ & _ & Hd & Hno & _).
  subst pd. injection Hd as <-.
  exact (Hno eq_refl).
Defined.

(** The end-to-end run of the specification: nothing stored, the driver
    computes 250.5, the operator answers 'y', and the next start loads
    250.5. *)
Example calibrate_yes_then_load :
  @calibrate uno fresh (calibration_session "y")
    = Ret (calibrated_yes, {| cur := typed 7 "y"; future := [quiet 8] |}) /\
  getCalFactor (@setup_load uno fresh) = F32.one /\
  getCalFactor (@setup_load uno (@power_on uno (EEPROM calibrated_yes))) = f32_250_5.
Proof. repeat split. Qed.

(** ** Entries that are zero or negative; the 'c' command *)

Section Entries.

Context {B : Board}.

Lemma ltb_zero_not_eqb (v : float32) :
  F32.ltb v F32.zero = true -> F32.eqb v F32.zero = false.
Proof.
  destruct v as [s | s | | s m e]; try destruct s; intros H;
    try discriminate H; reflexivity.
Qed.

(** C8 (amended): an entry equal to zero is rejected in the known-mass
    wait and in the factor wait: the sketch is left as it was and the wait
    goes on.  Every non-zero entry is accepted, negative ones included: the
    wait ends with that value as the known mass, respectively as the
    driver's factor. *)
Theorem zero_entry_rejected (p : poll) (s : Sketch) (m : float32) :
  available p = true ->
  let v := parseFloat (rx p) in
  (F32.eqb v F32.zero = true ->
     mass_iter p (s, m) = ((s, v), false) /\
     factor_iter p (s, m) = ((s, v), false)) /\
  (F32.eqb v F32.zero = false ->
     snd (mass_iter p (s, m)) = true /\
     snd (fst (mass_iter p (s, m))) = v /\
     snd (factor_iter p (s, m)) = true /\
     getCalFactor (fst (fst (factor_iter p (s, m)))) = v) /\
  (F32.ltb v F32.zero = true -> F32.eqb v F32.zero = false).
Proof.
  intros Ha v. subst v. unfold mass_iter, factor_iter. rewrite Ha.
  split; [| split].
  - intros ->. split; reflexivity.
  - intros ->. repeat split.
  - apply ltb_zero_not_eqb.
Qed.

(** C10: in the 'c' command the driver's factor is the entered value as
    soon as the entry wait ends, when the question about saving has not
    been printed yet; it still is when the command returns, whatever the
    answer; and after the answer 'n' the EEPROM holds what it held before. *)
Theorem changeSavedCalFactor_active (s s' : Sketch) (w w' : world) :
  changeSavedCalFactor s w = Ret (s', w') ->
  exists idle1 pv idle2 pd a s1,
    future w = idle1 ++ pv :: idle2 ++ pd :: future w' /\
    cur w' = pd /\
    Forall (fun q => mass_entered q = false) idle1 /\ mass_entered pv = true /\
    Forall (fun q => decision q = None) idle2 /\ decision pd = Some a /\
    busy_wait factor_iter
      (emit [ Println (Text "*** Change calibration factor");
              Print (Text "Current value is: ");
              Println (Num (getCalFactor s) 6);
              Println (Text "Send the new value from serial monitor, e.g. 696.0") ] s,
       F32.zero) w
      = Ret ((s1, parseFloat (rx pv)),
             {| cur := pv; future := idle2 ++ pd :: future w' |}) /\
    getCalFactor s1 = parseFloat (rx pv) /\
    EEPROM s1 = EEPROM s /\
    Serial s1 =
      Serial s ++
      [ Println (Text "*** Change calibration factor");
        Print (Text "Current value is: ");
        Println (Num (getCalFactor s) 6);
        Println (Text "Send the new value from serial monitor, e.g. 696.0");
        Print (Text "New calibration value is: ");
        Println (Num (parseFloat (rx pv)) 6) ] /\
    getCalFactor s' = parseFloat (rx pv) /\
    (a = No -> EEPROM s' = EEPROM s).
Proof.
  unfold changeSavedCalFactor. intros H.
  match type of H with
  | context [busy_wait factor_iter (?x, _)] => remember x as s0 eqn:Es0
  end.
  apply bind_ret_inv in H. destruct H as ([s1 v] & w1 & H1 & H).
  match type of H with
  | context [busy_wait decision_iter (?x, _)] => remember x as s2 eqn:Es2
  end.
  apply bind_ret_inv in H. destruct H as (st3 & w3 & H3 & H).
  unfold ret in H. injection H as <- <-.
  pose proof H1 as H1'. unfold busy_wait in H1'.
  destruct (wait_loop_ret_inv factor_iter mass_entered factor_iter_ends _ _ _ _ H1')
    as (idle1 & Hf1 & Hall1 & Hend1 & Hs1).
  destruct (decision_wait_inv _ _ _ _ _ H3) as (idle2 & a & Hf2 & Hall2 & Ha & Hs3).
  pose proof (spin_factor_idle idle1 s0 F32.zero Hall1) as Hsp.
  destruct (spin factor_iter idle1 (s0, F32.zero)) as [t v0] eqn:Esp.
  cbn [fst] in Hsp. subst t.
  rewrite (factor_iter_accepts _ _ v0 Hend1) in Hs1. cbn [fst] in Hs1.
  injection Hs1 as Hs1 Hv.
  exists idle1, (cur w1), idle2, (cur w3), a, s1.
  assert (Hw1 : w1 = {| cur := cur w1; future := idle2 ++ cur w3 :: future w3 |}).
  { destruct w1 as [c f]. cbn in Hf2 |- *. rewrite Hf2. reflexivity. }
  assert (Hcal : getCalFactor s1 = parseFloat (rx (cur w1))).
  { rewrite Hs1. reflexivity. }
  assert (He : EEPROM s1 = EEPROM s).
  { rewrite Hs1, Es0. reflexivity. }
  repeat split; try assumption.
  - rewrite Hf1, Hf2. reflexivity.
  - rewrite <- Hv, <- Hw1. exact H1.
  - rewrite Hs1, Es0. cbn. rewrite <- app_assoc. reflexivity.
  - rewrite Hs3. destruct a; cbn; rewrite Es2; cbn; exact Hcal.
  - intros ->. rewrite Hs3. cbn. rewrite Es2. cbn. exact He.
Qed.

(** On every script of that shape the command does return. *)
Lemma changeSavedCalFactor_returns (s : Sketch) (p0 : poll)
    (idle1 : list poll) (pv : poll) (idle2 : list poll) (pd : poll)
    (rest : list poll) :
  Forall (fun q => mass_entered q = false) idle1 -> mass_entered pv = true ->
  Forall (fun q => decision q = None) idle2 -> decided pd = true ->
  exists s',
    changeSavedCalFactor s
      {| cur := p0; future := idle1 ++ pv :: idle2 ++ pd :: rest |}
    = Ret (s', {| cur := pd; future := rest |}).
Proof.
  intros H1 Hv H2 Hd.
  assert (H2' : Forall (fun q => decided q = false) idle2).
  { eapply Forall_impl; [| exact H2]. intros q. apply decided_false. }
  unfold changeSavedCalFactor, bind, busy_wait, ret. cbn [future cur].
  rewrite (wait_loop_ret factor_iter mass_entered factor_iter_ends _ idle1 pv _ H1 Hv).
  match goal with
  | |- context [factor_iter pv ?st] => destruct st as [t v0]
  end.
  rewrite (factor_iter_accepts pv t v0 Hv). cbn [fst snd future cur].
  rewrite (wait_loop_ret decision_iter decided decision_iter_ends _ idle2 pd _ H2' Hd).
  eexists. reflexivity.
Qed.

End Entries.

(** C8, as stated, fails: the entry -5 is not positive, yet both waits
    accept it. *)
Lemma negative_entry_accepted :
  ~ (forall (p : poll) (st : @Sketch uno * float32),
        available p = true ->
        F32.leb (@parseFloat uno (rx p)) F32.zero = true ->
        snd (@mass_iter uno p st) = false /\
        snd (@factor_iter uno p st) = false).
Proof.
  intros H.
  destruct (H (typed 1 "-5") (fresh, F32.zero) eq_refl eq_refl) as [Hm _].
  discriminate Hm.
Qed.

Lemma zero_entry_rejected_witness :
  @mass_iter uno (typed 1 "0") (fresh, F32.one) = ((fresh, F32.zero), false) /\
  getCalFactor (fst (fst (@factor_iter uno (typed 1 "-5") (fresh, F32.one))))
    = f32_minus_5.
Proof.
  destruct (@zero_entry_rejected uno (typed 1 "0") fresh F32.one eq_refl)
    as (Hz & _ & _).
  destruct (@zero_entry_rejected uno (typed 1 "-5") fresh F32.one eq_refl)
    as (_ & Hn & Hlt).
  destruct (Hz eq_refl) as [Hm _].
  destruct (Hn (Hlt eq_refl)) as (_ & _ & _ & Hf).
  exact (conj Hm Hf).
Defined.

Lemma changeSavedCalFactor_active_witness :
  (exists pv, @mass_entered uno pv = true /\
              getCalFactor factor_changed = @parseFloat uno (rx pv)) /\
  EEPROM factor_changed = EEPROM fresh.
Proof.
  destruct (@changeSavedCalFactor_active uno fresh factor_changed
              factor_session after_factor_session eq_refl)
    as (i1 & pv & i2 & pd & a & s1 & _ & Hpd & _ & Hpv & _ & Hd & _ & _ & _ & _ & Hc & Hno).
  subst pd. injection Hd as <-.
  split; [exists pv; exact (conj Hpv Hc) | exact (Hno eq_refl)].
Defined.

(** ** The 'f' command *)

Lemma interval_at_50 :
  F32.to_ulong (F32.div (F32.of_Z 1000) f32_50) = Some 20.
Proof. vm_compute. reflexivity. Qed.

Lemma await_input_ret (startWait : Z) (idle : list poll) (p : poll)
    (rest : list poll) :
  Forall (fun q => wrap32 (now q - startWait) < 5000 /\ available q = false) idle ->
  5000 <= wrap32 (now p - startWait) \/ available p = true ->
  await_input startWait (idle ++ p :: rest) =
    Ret (p, {| cur := p; future := rest |}).
Proof.
  intros Hall Hp. induction Hall as [| q idle [Hq1 Hq2] Hall IH].
  - cbn. destruct Hp as [Hp | Hp].
    + apply Z.ltb_ge in Hp. rewrite Hp. reflexivity.
    + rewrite Hp. cbn [negb]. rewrite andb_false_r. reflexivity.
  - cbn. apply Z.ltb_lt in Hq1. rewrite Hq1, Hq2. cbn [negb andb]. exact IH.
Qed.

Lemma await_input_ret_inv (startWait : Z) (fut : list poll) (p : poll)
    (w' : world) :
  await_input startWait fut = Ret (p, w') ->
  p = cur w' /\
  exists idle,
    fut = idle ++ p :: future w' /\
    Forall (fun q => wrap32 (now q - startWait) < 5000 /\ available q = false) idle /\
    (5000 <= wrap32 (now p - startWait) \/ available p = true).
Proof.
  induction fut as [| q rest IH]; intros H.
  - discriminate H.
  - cbn [await_input] in H.
    destruct (wrap32 (now q - startWait) <? 5000) eqn:E1;
      [destruct (available q) eqn:E2 |]; cbn [negb andb] in H.
    + injection H as <- <-. split; [reflexivity |].
      exists []. repeat split; [constructor | right; exact E2].
    + destruct (IH H) as (Hc & idle & Hf & Hall & Hend).
      split; [exact Hc |]. exists (q :: idle). cbn. rewrite <- Hf.
      repeat split; [| exact Hend].
      constructor; [| exact Hall]. apply Z.ltb_lt in E1. split; assumption.
    + injection H as <- <-. split; [reflexivity |].
      exists []. repeat split; [constructor |]. left. apply Z.ltb_ge. exact E1.
Qed.

Section Frequency.

Context {B : Board}.

(** Once the wait is over the command goes by what the last poll shows. *)
Lemma case_f_after_wait (s : Sketch) (p0 : poll) (idle : list poll) (p : poll)
    (rest : list poll) :
  Forall (fun q => wrap32 (now q - now p0) < 5000 /\ available q = false) idle ->
  5000 <= wrap32 (now p - now p0) \/ available p = true ->
  let asked := println (Text "Enter sample frequency in Hz (e.g. 100)") s in
  case_f s {| cur := p0; future := idle ++ p :: rest |} =
    (if available p then
       let newHz := parseFloat (rx p) in
       if F32.ltb F32.zero newHz then
         match F32.to_ulong (F32.div (F32.of_Z 1000) newHz) with
         | Some n =>
             ret (emit [ Print (Text "Sample rate set to: ");
                         Print (Num newHz 1); Println (Text " Hz") ]
                       (set_sampleIntervalMs n asked))
         | None => undefined
         end
       else ret (println (Text "Invalid frequency, ignored") asked)
     else ret (println (Text "No frequency received, ignored") asked))
    {| cur := p; future := rest |}.
Proof.
  intros Hidle Hp asked. unfold case_f, bind, current. cbn [cur future].
  rewrite (await_input_ret (now p0) idle p rest Hidle Hp). reflexivity.
Qed.

(** C7: when the line 50 is what arrives while the command waits, the
    interval becomes 20; when the line 0 arrives, or nothing arrives until
    5 s have passed, the interval stays as it was and a line saying that the
    input was ignored is printed. *)
Theorem case_f_spec (s : Sketch) (p0 : poll) (idle : list poll) (p : poll)
    (rest : list poll) :
  Forall (fun q => wrap32 (now q - now p0) < 5000 /\ available q = false) idle ->
  let w := {| cur := p0; future := idle ++ p :: rest |} in
  let w' := {| cur := p; future := rest |} in
  let asked := println (Text "Enter sample frequency in Hz (e.g. 100)") s in
  (rx p = "50"%string -> parseFloat "50" = f32_50 ->
     wrap32 (now p - now p0) < 5000 ->
     case_f s w =
       Ret (emit [ Print (Text "Sample rate set to: "); Print (Num f32_50 1);
                   Println (Text " Hz") ] (set_sampleIntervalMs 20 asked), w') /\
     sampleIntervalMs (ran s (case_f s w)) = 20) /\
  (rx p = "0"%string -> parseFloat "0" = F32.zero ->
     case_f s w = Ret (println (Text "Invalid frequency, ignored") asked, w') /\
     sampleIntervalMs (ran s (case_f s w)) = sampleIntervalMs s) /\
  (available p = false -> 5000 <= wrap32 (now p - now p0) ->
     case_f s w = Ret (println (Text "No frequency received, ignored") asked, w') /\
     sampleIntervalMs (ran s (case_f s w)) = sampleIntervalMs s).
Proof.
  intros Hidle w w' asked.
  pose proof (fun Hp => case_f_after_wait s p0 idle p rest Hidle Hp) as Hwait.
  cbv zeta in Hwait. fold asked w w' in Hwait.
  split; [| split].
  - intros Hrx Hparse _.
    assert (Hav : available p = true) by (unfold available; rewrite Hrx; reflexivity).
    assert (E : case_f s w =
                Ret (emit [ Print (Text "Sample rate set to: "); Print (Num f32_50 1);
                            Println (Text " Hz") ] (set_sampleIntervalMs 20 asked), w')).
    { rewrite (Hwait (or_intror Hav)), Hav. cbv zeta. rewrite Hrx, Hparse.
      change (F32.ltb F32.zero f32_50) with true. cbv iota.
      rewrite interval_at_50. reflexivity. }
    split; [exact E | rewrite E; reflexivity].
  - intros Hrx Hparse.
    assert (Hav : available p = true) by (unfold available; rewrite Hrx; reflexivity).
    assert (E : case_f s w =
                Ret (println (Text "Invalid frequency, ignored") asked, w')).
    { rewrite (Hwait (or_intror Hav)), Hav. cbv zeta. rewrite Hrx, Hparse.
      reflexivity. }
    split; [exact E | rewrite E; reflexivity].
  - intros Hav Hlate.
    assert (E : case_f s w =
                Ret (println (Text "No frequency received, ignored") asked, w')).
    { rewrite (Hwait (or_introl Hlate)), Hav. reflexivity. }
    split; [exact E | rewrite E; reflexivity].
Qed.

End Frequency.

Lemma case_f_spec_witness :
  sampleIntervalMs (ran fresh (@case_f uno fresh (frequency_session "50"))) = 20 /\
  sampleIntervalMs (ran fresh (@case_f uno fresh (frequency_session "0"))) = 10 /\
  sampleIntervalMs (ran fresh (@case_f uno fresh silent_session)) = 10.
Proof.
  assert (H1 : Forall (fun q => wrap32 (now q - now (typed 0 "f")) < 5000 /\
                               available q = false) [quiet 1]).
  { repeat constructor. }
  assert (H3 : Forall (fun q => wrap32 (now q - now (typed 0 "f")) < 5000 /\
                               available q = false)
                      [quiet 1; quiet 2500; quiet 4999]).
  { repeat constructor. }
  destruct (@case_f_spec uno fresh (typed 0 "f") [quiet 1] (typed 2 "50") [quiet 3] H1)
    as (H50 & _ & _).
  destruct (@case_f_spec uno fresh (typed 0 "f") [quiet 1] (typed 2 "0") [quiet 3] H1)
    as (_ & H0 & _).
  destruct (@case_f_spec uno fresh (typed 0 "f") [quiet 1; quiet 2500; quiet 4999]
              (quiet 5000) [quiet 5001] H3)
    as (_ & _ & Hnone).
  refine (conj (proj2 (H50 eq_refl eq_refl _))
            (conj (proj2 (H0 eq_refl eq_refl)) (proj2 (Hnone eq_refl _)))).
  - reflexivity.
  - discriminate.
Defined.

(** C6, as stated, fails: the frequency 2000 is accepted and the interval
    becomes 0. *)
Lemma interval_zero_at_2000 :
  ~ (forall (s s' : @Sketch uno) (w w' : world),
        0 < sampleIntervalMs s ->
        @case_f uno s w = Ret (s', w') ->
        0 < sampleIntervalMs s').
Proof.
  intros H.
  assert (E : 0 < sampleIntervalMs frequency_2000).
  { apply (H fresh frequency_2000 (frequency_session "2000")
             {| cur := typed 2 "2000"; future := [quiet 3] |}).
    - reflexivity.
    - reflexivity. }
  discriminate E.
Qed.

(** ** Rounding of binary32 quotients

    The interval set by the 'f' command is the integer part of a rounded
    quotient; these lemmas follow a lower bound of 1 through the division
    and the rounding of the standard library's specification. *)

Lemma digits2_pos_bounds (m : positive) :
  2 ^ (Zpos (digits2_pos m) - 1) <= Zpos m < 2 ^ Zpos (digits2_pos m).
Proof.
  induction m as [p IH | p IH |]; cbn [digits2_pos].
  - rewrite Pos2Z.inj_succ, Z.pow_succ_r by lia.
    replace (Z.succ (Zpos (digits2_pos p)) - 1) with (Z.succ (Zpos (digits2_pos p) - 1)) by lia.
    rewrite Z.pow_succ_r by lia. lia.
  - rewrite Pos2Z.inj_succ, Z.pow_succ_r by lia.
    replace (Z.succ (Zpos (digits2_pos p)) - 1) with (Z.succ (Zpos (digits2_pos p) - 1)) by lia.
    rewrite Z.pow_succ_r by lia. lia.
  - cbn. lia.
Qed.

Lemma shr_1_m (mrs : shr_record) :
  0 <= shr_m mrs -> shr_m (shr_1 mrs) = shr_m mrs / 2.
Proof.
  destruct mrs as [m r s]. cbn [shr_m shr_1].
  destruct m as [| [p | p |] | p]; intros H; cbn [shr_m]; try lia.
  - reflexivity.
  - apply Z.div_unique with (r := 1); lia.
  - apply Z.div_unique with (r := 0); lia.
  - reflexivity.
Qed.

Lemma shr_1_nonneg (mrs : shr_record) :
  0 <= shr_m mrs -> 0 <= shr_m (shr_1 mrs).
Proof.
  intros H. rewrite shr_1_m by exact H. apply Z.div_pos; lia.
Qed.

Lemma iter_shr_1_m (p : positive) (mrs : shr_record) :
  0 <= shr_m mrs ->
  shr_m (iter_pos shr_1 p mrs) = shr_m mrs / 2 ^ Zpos p.
Proof.
  revert mrs. induction p as [p IH | p IH |]; intros mrs H; cbn [iter_pos].
  - assert (H1 : 0 <= shr_m (shr_1 mrs)) by (apply shr_1_nonneg; exact H).
    assert (H2 : 0 <= shr_m (iter_pos shr_1 p (shr_1 mrs))).
    { rewrite IH by exact H1. apply Z.div_pos; lia. }
    rewrite IH by exact H2. rewrite IH by exact H1. rewrite shr_1_m by exact H.
    rewrite !Z.div_div by lia. f_equal.
    rewrite Pos2Z.inj_xI. rewrite <- !Z.pow_add_r by lia. 
    replace (2 * Zpos p + 1) with (1 + Zpos p + Zpos p) by lia.
    rewrite !Z.pow_add_r by lia. lia.
  - assert (H2 : 0 <= shr_m (iter_pos shr_1 p mrs)).
    { rewrite IH by exact H. apply Z.div_pos; lia. }
    rewrite IH by exact H2. rewrite IH by exact H.
    rewrite Z.div_div by lia. f_equal.
    rewrite Pos2Z.inj_xO. rewrite <- Z.pow_add_r by lia. f_equal. lia.
  - rewrite shr_1_m by exact H. reflexivity.
Qed.

Lemma pow2_pos (k : Z) : 0 <= k -> 0 < 2 ^ k.
Proof. intros. apply Z.pow_pos_nonneg; lia. Qed.

(** Rounding to the format keeps a value that is at least 1 at least 1. *)
Lemma shr_fexp_ge_one (m e : Z) (l : location) :
  ge_one m e ->
  ge_one (shr_m (fst (shr_fexp 24 128 m e l))) (snd (shr_fexp 24 128 m e l)).
Proof.
  intros [Hm He]. unfold shr_fexp, shr.
  destruct m as [| p | p]; try lia.
  cbn [Zdigits2].
  pose proof (digits2_pos_bounds p) as Hd.
  set (d := Zpos (digits2_pos p)) in *.
  assert (Hd0 : 0 < d) by (unfold d; lia).
  assert (Hm0 : shr_m (shr_record_of_loc (Zpos p) l) = Zpos p).
  { destruct l as [| []]; reflexivity. }
  destruct (fexp 24 128 (d + e) - e) as [| n | n] eqn:En; cbn [fst snd].
  - rewrite Hm0. split; assumption.
  - rewrite iter_shr_1_m by (rewrite Hm0; lia). rewrite Hm0.
    unfold fexp, emin in En.
    assert (Hn : 0 < Zpos n) by lia.
    destruct (Z_le_gt_dec (e + Zpos n) 0) as [Hle | Hgt].
    + assert (Hk : 2 ^ (- (e + Zpos n)) * 2 ^ Zpos n <= Zpos p).
      { rewrite <- Z.pow_add_r by lia.
        replace (- (e + Zpos n) + Zpos n) with (- e) by lia. apply He. lia. }
      assert (Hq : 2 ^ (- (e + Zpos n)) <= Zpos p / 2 ^ Zpos n).
      { apply Z.div_le_lower_bound; [apply pow2_pos; lia | lia]. }
      pose proof (pow2_pos (- (e + Zpos n)) ltac:(lia)).
      split; [lia | intros _; exact Hq].
    + assert (Hnd : Zpos n <= d - 1) by lia.
      assert (Hk : 2 ^ Zpos n <= Zpos p).
      { apply Z.le_trans with (2 ^ (d - 1)); [| lia].
        apply Z.pow_le_mono_r; lia. }
      split; [| lia].
      apply Z.div_le_lower_bound; [apply pow2_pos; lia | lia].
  - rewrite Hm0. split; assumption.
Qed.

Lemma round_nearest_even_ge (m : Z) (l : location) :
  m <= round_nearest_even m l.
Proof.
  unfold round_nearest_even. destruct l as [| []]; try lia.
  destruct (Z.even m); lia.
Qed.

Lemma ge_one_mono (m m' e : Z) : m <= m' -> ge_one m e -> ge_one m' e.
Proof. intros H [H1 H2]. split; [lia |]. intros He. specialize (H2 He). lia. Qed.

Lemma binary_round_aux_ge_one (m e : Z) (l : location) :
  ge_one m e ->
  binary_round_aux 24 128 false m e l = S754_infinity false \/
  exists m' e', binary_round_aux 24 128 false m e l = S754_finite false m' e' /\
                ge_one (Zpos m') e'.
Proof.
  intros G. unfold binary_round_aux.
  pose proof (shr_fexp_ge_one m e l G) as G1.
  destruct (shr_fexp 24 128 m e l) as [mrs1 e1]. cbn [fst snd] in G1.
  pose proof (ge_one_mono _ _ _
                (round_nearest_even_ge (shr_m mrs1) (loc_of_shr_record mrs1)) G1) as G2.
  pose proof (shr_fexp_ge_one _ _ loc_Exact G2) as G3.
  destruct (shr_fexp 24 128 (round_nearest_even (shr_m mrs1) (loc_of_shr_record mrs1))
              e1 loc_Exact) as [mrs2 e2].
  cbn [fst snd] in G3.
  destruct (shr_m mrs2) as [| p | p]; try (destruct G3; lia).
  destruct (e2 <=? 128 - 24); [right | left; reflexivity].
  exists p, e2. split; [reflexivity | exact G3].
Qed.

Lemma shiftl_ge_one (m : positive) (e : Z) :
  ge_one (Zpos m) e -> 1 <= Z.shiftl (Zpos m) e.
Proof.
  intros [_ He]. destruct (Z_le_gt_dec 0 e) as [Hpos | Hneg].
  - rewrite Z.shiftl_mul_pow2 by exact Hpos.
    pose proof (pow2_pos e Hpos). nia.
  - rewrite Z.shiftl_div_pow2 by lia.
    apply Z.div_le_lower_bound; [apply pow2_pos; lia |].
    rewrite Z.mul_1_r. apply He. lia.
Qed.

(** 1000.0f divided by a binary32 value in (0, 1000]. *)
Lemma div_core_ge_one (my : positive) (ey : Z) :
  valid_binary 24 128 (S754_finite false my ey) = true ->
  SFleb (S754_finite false my ey) (S754_finite false 16384000 (-14)) = true ->
  let '(q, e, _) := SFdiv_core_binary 24 128 16384000 (-14) (Zpos my) ey in
  ge_one q e.
Proof.
  intros Hv Hle.
  cbn [valid_binary] in Hv. unfold bounded, canonical_mantissa in Hv.
  apply andb_true_iff in Hv. destruct Hv as [Hc Hb].
  apply Z.eqb_eq in Hc. apply Z.leb_le in Hb.
  unfold fexp, emin in Hc.
  pose proof (digits2_pos_bounds my) as Hd.
  set (d := Zpos (digits2_pos my)) in *.
  assert (Hd0 : 0 < d) by (unfold d; lia).
  assert (Hval : ey < -14 \/ (ey = -14 /\ Zpos my <= 16384000)).
  { unfold SFleb, SFcompare in Hle.
    destruct (ey ?= -14) eqn:E.
    - apply Z.compare_eq in E. right. split; [exact E |].
      destruct (Pos.compare_cont Eq my 16384000) eqn:E2; try discriminate Hle.
      + apply Pos.compare_eq in E2. subst my. lia.
      + apply Z.lt_le_incl. exact E2.
    - left. apply Z.compare_lt_iff in E. exact E.
    - discriminate Hle. }
  unfold SFdiv_core_binary. cbn [Zdigits2].
  change (Zpos (digits2_pos 16384000)) with 24. fold d.
  assert (He' : Z.min (fexp 24 128 (24 + -14 - (d + ey))) (-14 - ey) = -14 - d - ey).
  { unfold fexp, emin. lia. }
  rewrite He'.
  replace (-14 - ey - (-14 - d - ey)) with d by lia.
  unfold d at 1. fold d.
  rewrite Z.shiftl_mul_pow2 by lia.
  pose proof (pow2_pos d ltac:(lia)) as Hpd.
  pose proof (Z_div_mod (16384000 * 2 ^ d) (Zpos my) ltac:(lia)) as Hdm.
  destruct (Z.div_eucl (16384000 * 2 ^ d) (Zpos my)) as [q r].
  destruct Hdm as [Hq Hr].
  assert (Hq1 : 1 <= q) by nia.
  split; [exact Hq1 |].
  intros Hk.
  set (k := - (-14 - d - ey)) in *.
  assert (Hk0 : 0 <= k) by lia.
  assert (Hmul : Zpos my * 2 ^ k <= 16384000 * 2 ^ d).
  { destruct Hval as [Hlt | [Heq Hmy]].
    - assert (Hkd : k <= d - 1) by lia.
      assert (H2 : 2 ^ k <= 2 ^ (d - 1)) by (apply Z.pow_le_mono_r; lia).
      assert (H3 : 2 ^ d = 2 * 2 ^ (d - 1)).
      { replace d with (Z.succ (d - 1)) at 1 by lia. apply Z.pow_succ_r. lia. }
      assert (H4 : Zpos my < 2 ^ 24).
      { apply Z.lt_le_trans with (2 ^ d); [lia |]. apply Z.pow_le_mono_r; lia. }
      pose proof (pow2_pos k Hk0).
      change (2 ^ 24) with 16777216 in H4. nia.
    - assert (k = d) by lia. subst k. rewrite H. nia. }
  pose proof (pow2_pos k Hk0) as Hpk.
  (* q * my + r = 1000*2^d, r < my ; my * 2^k <= q*my + r  => 2^k <= q *)
  destruct (Z_lt_le_dec q (2 ^ k)) as [Hlt | Hge]; [| exact Hge].
  exfalso. nia.
Qed.

Lemma digits_le_of_lt_pow (p : positive) (k : Z) :
  0 <= k -> Zpos p <= 2 ^ k -> Zpos (digits2_pos p) - 1 <= k.
Proof.
  intros Hk Hp. pose proof (digits2_pos_bounds p) as [Hd _].
  destruct (Z_le_gt_dec (Zpos (digits2_pos p) - 1) k) as [H | H]; [exact H |].
  exfalso.
  assert (2 ^ k < 2 ^ (Zpos (digits2_pos p) - 1)).
  { apply Z.pow_lt_mono_r; lia. }
  (* 2^k < 2^(d-1) <= p <= 2^k *)
  lia.
Qed.

Lemma shr_fexp_pow (m e : Z) (l : location) (K : Z) :
  1 <= m -> -149 <= K ->
  (lt_pow m e K ->
   lt_pow (shr_m (fst (shr_fexp 24 128 m e l))) (snd (shr_fexp 24 128 m e l)) K) /\
  (le_pow m e K ->
   le_pow (shr_m (fst (shr_fexp 24 128 m e l))) (snd (shr_fexp 24 128 m e l)) K).
Proof.
  intros Hm HK. unfold shr_fexp, shr.
  destruct m as [| p | p]; try lia.
  cbn [Zdigits2].
  set (d := Zpos (digits2_pos p)) in *.
  assert (Hm0 : shr_m (shr_record_of_loc (Zpos p) l) = Zpos p).
  { destruct l as [| []]; reflexivity. }
  destruct (fexp 24 128 (d + e) - e) as [| n | n] eqn:En; cbn [fst snd].
  - rewrite Hm0. split; intros H; exact H.
  - rewrite iter_shr_1_m by (rewrite Hm0; lia). rewrite Hm0.
    unfold fexp, emin in En.
    assert (Hle : le_pow (Zpos p) e K -> 0 <= K - (e + Zpos n) /\
                  Zpos p <= 2 ^ Zpos n * 2 ^ (K - (e + Zpos n))).
    { intros [H1 H2].
      pose proof (digits_le_of_lt_pow p (K - e) H2 H1) as Hd. fold d in Hd.
      assert (H3 : 0 <= K - (e + Zpos n)) by lia.
      split; [exact H3 |].
      rewrite <- Z.pow_add_r by lia.
      replace (Zpos n + (K - (e + Zpos n))) with (K - e) by lia. exact H1. }
    split.
    + intros [H1 H2]. destruct (Hle (conj (Z.lt_le_incl _ _ H1) H2)) as [H3 _].
      split; [| exact H3].
      apply Z.div_lt_upper_bound; [apply pow2_pos; lia |].
      rewrite <- Z.pow_add_r by lia.
      replace (Zpos n + (K - (e + Zpos n))) with (K - e) by lia. exact H1.
    + intros H. destruct (Hle H) as [H3 H4].
      split; [| exact H3].
      apply Z.div_le_upper_bound; [apply pow2_pos; lia | exact H4].
  - rewrite Hm0. split; intros H; exact H.
Qed.

Lemma round_nearest_even_le (m : Z) (l : location) :
  round_nearest_even m l <= m + 1.
Proof.
  unfold round_nearest_even. destruct l as [| []]; try lia.
  destruct (Z.even m); lia.
Qed.

Lemma binary_round_aux_bounds (m e : Z) (l : location) (K : Z) :
  ge_one m e -> lt_pow m e K -> -149 <= K <= 104 ->
  exists m' e', binary_round_aux 24 128 false m e l = S754_finite false m' e' /\
                ge_one (Zpos m') e' /\ le_pow (Zpos m') e' K.
Proof.
  intros G L HK. unfold binary_round_aux.
  pose proof (shr_fexp_ge_one m e l G) as G1.
  pose proof (proj1 (shr_fexp_pow m e l K (proj1 G) (proj1 HK)) L) as L1.
  destruct (shr_fexp 24 128 m e l) as [mrs1 e1]. cbn [fst snd] in G1, L1.
  pose proof (ge_one_mono _ _ _
                (round_nearest_even_ge (shr_m mrs1) (loc_of_shr_record mrs1)) G1) as G2.
  assert (L2 : le_pow (round_nearest_even (shr_m mrs1) (loc_of_shr_record mrs1)) e1 K).
  { destruct L1 as [L1a L1b]. split; [| exact L1b].
    pose proof (round_nearest_even_le (shr_m mrs1) (loc_of_shr_record mrs1)). lia. }
  pose proof (shr_fexp_ge_one _ _ loc_Exact G2) as G3.
  pose proof (proj2 (shr_fexp_pow _ e1 loc_Exact K (proj1 G2) (proj1 HK)) L2) as L3.
  destruct (shr_fexp 24 128 (round_nearest_even (shr_m mrs1) (loc_of_shr_record mrs1))
              e1 loc_Exact) as [mrs2 e2].
  cbn [fst snd] in G3, L3.
  destruct (shr_m mrs2) as [| p | p]; try (destruct G3; lia).
  assert (He2 : (e2 <=? 128 - 24) = true).
  { apply Z.leb_le. destruct L3 as [_ L3]. lia. }
  rewrite He2. exists p, e2. split; [reflexivity | split; [exact G3 | exact L3]].
Qed.

Lemma shiftl_le_pow (m : positive) (e K : Z) :
  0 <= K -> le_pow (Zpos m) e K -> Z.shiftl (Zpos m) e <= 2 ^ K.
Proof.
  intros HK [H1 H2]. destruct (Z_le_gt_dec 0 e) as [Hpos | Hneg].
  - rewrite Z.shiftl_mul_pow2 by exact Hpos.
    replace K with ((K - e) + e) at 1 by lia.
    rewrite Z.pow_add_r by lia.
    pose proof (pow2_pos e Hpos). nia.
  - rewrite Z.shiftl_div_pow2 by lia.
    apply Z.div_le_upper_bound; [apply pow2_pos; lia |].
    rewrite <- Z.pow_add_r by lia.
    replace (- e + K) with (K - e) by lia. exact H1.
Qed.

(** 1000.0f divided by a binary32 value in [2^-21, 1000]. *)
Lemma div_core_lt_pow (my : positive) (ey : Z) :
  valid_binary 24 128 (S754_finite false my ey) = true ->
  SFleb (S754_finite false my ey) (S754_finite false 16384000 (-14)) = true ->
  SFleb (S754_finite false 8388608 (-44)) (S754_finite false my ey) = true ->
  let '(q, e, _) := SFdiv_core_binary 24 128 16384000 (-14) (Zpos my) ey in
  lt_pow q e 31.
Proof.
  intros Hv Hle Hge.
  cbn [valid_binary] in Hv. unfold bounded, canonical_mantissa in Hv.
  apply andb_true_iff in Hv. destruct Hv as [Hc Hb].
  apply Z.eqb_eq in Hc. apply Z.leb_le in Hb.
  unfold fexp, emin in Hc.
  pose proof (digits2_pos_bounds my) as Hd.
  set (d := Zpos (digits2_pos my)) in *.
  assert (Hd0 : 0 < d) by (unfold d; lia).
  assert (Hup : ey <= -14).
  { destruct (Z_le_gt_dec ey (-14)) as [H | H]; [exact H | exfalso].
    unfold SFleb, SFcompare in Hle.
    rewrite (proj2 (Z.compare_gt_iff ey (-14))) in Hle by lia. discriminate Hle. }
  assert (Hlo : -44 <= ey).
  { destruct (Z_le_gt_dec (-44) ey) as [H | H]; [exact H | exfalso].
    unfold SFleb, SFcompare in Hge.
    rewrite (proj2 (Z.compare_gt_iff (-44) ey)) in Hge by lia. discriminate Hge. }
  assert (Hd24 : d = 24) by lia.
  unfold SFdiv_core_binary. cbn [Zdigits2].
  change (Zpos (digits2_pos 16384000)) with 24. fold d.
  assert (He' : Z.min (fexp 24 128 (24 + -14 - (d + ey))) (-14 - ey) = -14 - d - ey).
  { unfold fexp, emin. lia. }
  rewrite He'.
  replace (-14 - ey - (-14 - d - ey)) with d by lia.
  unfold d at 1. fold d.
  rewrite Z.shiftl_mul_pow2 by lia.
  pose proof (pow2_pos d ltac:(lia)) as Hpd.
  pose proof (Z_div_mod (16384000 * 2 ^ d) (Zpos my) ltac:(lia)) as Hdm.
  destruct (Z.div_eucl (16384000 * 2 ^ d) (Zpos my)) as [q r].
  destruct Hdm as [Hq Hr].
  rewrite Hd24 in *.
  split; [| lia].
  assert (Hmy : 2 ^ 23 <= Zpos my) by (replace (24 - 1) with 23 in Hd by lia; lia).
  apply Z.lt_le_trans with (2 ^ 25).
  - change (2 ^ 24) with 16777216 in *. change (2 ^ 23) with 8388608 in *.
    change (2 ^ 25) with 33554432. nia.
  - apply Z.pow_le_mono_r; lia.
Qed.

Lemma of_Z_1000 : F32.of_Z 1000 = S754_finite false 16384000 (-14).
Proof. vm_compute. reflexivity. Qed.

Lemma to_ulong_range (x : float32) (n : Z) :
  F32.to_ulong x = Some n -> 0 <= n < 2 ^ 32.
Proof.
  unfold F32.to_ulong. destruct (F32.trunc x) as [k |]; [| discriminate].
  destruct ((0 <=? k) && (k <? 2 ^ 32)) eqn:E; [| discriminate].
  intros H. injection H as <-.
  apply andb_true_iff in E. destruct E as [E1 E2].
  apply Z.leb_le in E1. apply Z.ltb_lt in E2. split; assumption.
Qed.

(** For a frequency in (0, 1000] the interval computed by line 159 is at
    least 1 ms. *)
Lemma interval_positive (newHz : float32) (n : Z) :
  F32.valid newHz = true ->
  F32.ltb F32.zero newHz = true ->
  F32.leb newHz (F32.of_Z 1000) = true ->
  F32.to_ulong (F32.div (F32.of_Z 1000) newHz) = Some n ->
  1 <= n.
Proof.
  rewrite of_Z_1000.
  destruct newHz as [s | s | | s my ey]; try destruct s; intros Hv Hpos Hle Hn;
    try discriminate Hpos; try discriminate Hle.
  unfold F32.div, SFdiv in Hn.
  pose proof (div_core_ge_one my ey Hv Hle) as G.
  change F32.prec with 24 in Hn. change F32.emax with 128 in Hn.
  destruct (SFdiv_core_binary 24 128 16384000 (-14) (Zpos my) ey) as [[q e] l].
  cbn [xorb] in Hn.
  destruct (binary_round_aux_ge_one q e l G) as [Hinf | (m' & e' & Hfin & G')].
  - rewrite Hinf in Hn. discriminate Hn.
  - rewrite Hfin in Hn. unfold F32.to_ulong, F32.trunc in Hn.
    pose proof (shiftl_ge_one m' e' G') as Hs.
    destruct ((0 <=? Z.shiftl (Zpos m') e') && (Z.shiftl (Zpos m') e' <? 2 ^ 32));
      [| discriminate Hn].
    injection Hn as <-. exact Hs.
Qed.

(** For a frequency between 2^-21 Hz and 1000 Hz the conversion of line
    159 is defined, and what it gives lies between 1 and 2^31. *)
Lemma interval_defined (newHz : float32) :
  F32.valid newHz = true ->
  F32.leb f32_slowest newHz = true ->
  F32.leb newHz (F32.of_Z 1000) = true ->
  exists n, F32.to_ulong (F32.div (F32.of_Z 1000) newHz) = Some n /\
            1 <= n <= 2 ^ 31.
Proof.
  rewrite of_Z_1000.
  destruct newHz as [s | s | | s my ey]; try destruct s; intros Hv Hlo Hle;
    try discriminate Hlo; try discriminate Hle.
  unfold F32.div, SFdiv.
  pose proof (div_core_ge_one my ey Hv Hle) as G.
  pose proof (div_core_lt_pow my ey Hv Hle Hlo) as L.
  change F32.prec with 24. change F32.emax with 128.
  destruct (SFdiv_core_binary 24 128 16384000 (-14) (Zpos my) ey) as [[q e] l].
  cbn [xorb].
  destruct (binary_round_aux_bounds q e l 31 G L ltac:(lia))
    as (m' & e' & Hfin & G' & L').
  rewrite Hfin. unfold F32.to_ulong, F32.trunc.
  pose proof (shiftl_ge_one m' e' G') as Hs.
  pose proof (shiftl_le_pow m' e' 31 ltac:(lia) L') as Hu.
  exists (Z.shiftl (Zpos m') e').
  assert (Hr : (0 <=? Z.shiftl (Zpos m') e') && (Z.shiftl (Zpos m') e' <? 2 ^ 32) = true).
  { apply andb_true_iff. split; [apply Z.leb_le; lia | apply Z.ltb_lt].
    apply Z.le_lt_trans with (2 ^ 31); [exact Hu | reflexivity]. }
  rewrite Hr. split; [reflexivity | lia].
Qed.

Section Interval.

Context {B : Board}.

(** Whatever the script, a run of the 'f' command that returns has either
    kept the interval or stored the integer part of the quotient. *)
Lemma case_f_ret_inv (s s' : Sketch) (w w' : world) :
  case_f s w = Ret (s', w') ->
  let newHz := parseFloat (rx (cur w')) in
  (available (cur w') = false \/ F32.ltb F32.zero newHz = false ->
     sampleIntervalMs s' = sampleIntervalMs s) /\
  (available (cur w') = true -> F32.ltb F32.zero newHz = true ->
     F32.to_ulong (F32.div (F32.of_Z 1000) newHz) = Some (sampleIntervalMs s')).
Proof.
  intros H newHz.
  unfold case_f in H.
  apply bind_ret_inv in H. destruct H as (p0 & w0 & Hc & H).
  unfold current in Hc. injection Hc as <- <-.
  apply bind_ret_inv in H. destruct H as (p & w1 & Hw & H).
  apply await_input_ret_inv in Hw. destruct Hw as [Hp _]. subst p.
  destruct (available (cur w1)) eqn:Ea.
  - cbv zeta in H.
    destruct (F32.ltb F32.zero (parseFloat (rx (cur w1)))) eqn:El.
    + destruct (F32.to_ulong (F32.div (F32.of_Z 1000) (parseFloat (rx (cur w1)))))
        as [n |] eqn:En; [| discriminate H].
      unfold ret in H. injection H as <- <-. subst newHz.
      rewrite Ea, El. cbn [sampleIntervalMs emit set_sampleIntervalMs].
      split; [intros [Hx | Hx]; discriminate Hx | intros _ _; exact En].
    + unfold ret in H. injection H as <- <-. subst newHz.
      rewrite Ea, El. split; [intros _; reflexivity | intros _ Hx; discriminate Hx].
  - unfold ret in H. injection H as <- <-. subst newHz.
    rewrite Ea. split; [intros _; reflexivity | intros Hx; discriminate Hx].
Qed.

End Interval.

(** ** Runs of the main loop *)

(** A negative reading is printed as 0, at the time of the pass. *)
Example loop_prints_reading :
  @loop uno fresh {| cur := quiet 0; future := [sampled 13 f32_minus_5] |}
  = Ret (emit [ Print (Text "t = ");
                Print (Num (F32.div (F32.of_Z 13) (F32.of_Z 1000)) 4);
                Print (Text (" s" ++ tab)); Print (Text "Force(N) = ");
                Println (Num F32.zero 4) ]
              (set_lastSampleMs 10 fresh),
         {| cur := sampled 13 f32_minus_5; future := [] |}).
Proof. reflexivity. Qed.

(** The CSV header is printed once in a session. *)
Example csv_header_once :
  csvMode toggled_thrice = true /\
  List.length (filter is_header (Serial toggled_thrice)) = 1%nat.
Proof. split; reflexivity. Qed.

Example interval_at_1000 :
  F32.to_ulong (F32.div (F32.of_Z 1000) (F32.of_Z 1000)) = Some 1 /\
  F32.to_ulong (F32.div (F32.of_Z 1000) (F32.of_Z 1001)) = Some 0.
Proof. vm_compute. split; reflexivity. Qed.

(** * Further properties of the sketch *)

(** ** Readings *)

Section Readings.

Context {B : Board}.

(** X1: the load of an emitted reading is the clamped driver value; it is
    never below zero, whatever the driver returned, and it is at least zero
    unless the driver returned NaN. *)
Theorem reading_load_not_negative (s : Sketch) (p : poll) (r : reading) :
  snd (take_sample p s) = Some r ->
  load r = clampZero (data p) /\
  F32.ltb (load r) F32.zero = false /\
  (F32.is_nan (data p) = false -> F32.leb F32.zero (load r) = true).
Proof.
  intros H. destruct (take_sample_elapsed s p r H) as [_ Hl].
  rewrite Hl. split; [reflexivity | split].
  - destruct (data p) as [sg | sg | | sg m e]; try destruct sg; reflexivity.
  - destruct (data p) as [sg | sg | | sg m e]; try destruct sg;
      intros Hn; try reflexivity; discriminate Hn.
Qed.

(** X2: the schedule is right across the overflow of the millisecond
    clock: when [d] milliseconds have really passed since the reference
    point, a reading is due exactly when [d] is at least the interval, even
    if the 32-bit clock has wrapped in between. *)
Theorem sample_due_across_wrap (s : Sketch) (p : poll) (d : Z) :
  0 <= lastSampleMs s < 2 ^ 32 ->
  0 <= d < 2 ^ 32 ->
  millis p = lastSampleMs s + d ->
  sample_due p s = (sampleIntervalMs s <=? d).
Proof.
  intros Hl Hd Hm. unfold sample_due, now. rewrite Hm.
  replace (wrap32 (wrap32 (lastSampleMs s + d) - lastSampleMs s)) with d;
    [reflexivity |].
  unfold wrap32. rewrite Zminus_mod_idemp_l.
  replace (lastSampleMs s + d - lastSampleMs s) with d by lia.
  symmetry. apply Z.mod_small. exact Hd.
Qed.

Lemma ascending_weaken (t t' : Z) (polls : list poll) :
  t' <= t -> ascending t polls -> ascending t' polls.
Proof.
  destruct polls as [| p rest]; [intros _ _; exact I |].
  cbn. intros Ht [H1 H2]. split; [lia | exact H2].
Qed.

(** X3: no reading comes before its slot.  When the poll times never go
    back and the clock does not wrap, the reading number [i] (from 0) of a
    run carries an elapsed time of at least [i + 1] intervals, counted from
    where the reference point stood at the start of the run. *)
Theorem readings_not_early (s : Sketch) (polls : list poll) (i : nat) (r : reading) :
  0 <= sampleIntervalMs s ->
  0 <= startTimeMs s <= lastSampleMs s ->
  ascending (lastSampleMs s) polls ->
  nth_error (snd (sample_run s polls)) i = Some r ->
  lastSampleMs s - startTimeMs s + (Z.of_nat i + 1) * sampleIntervalMs s
    <= elapsedMs r.
Proof.
  revert s i. induction polls as [| p rest IH]; intros s i HI Hs Hasc Hnth.
  - destruct i; discriminate Hnth.
  - cbn [ascending] in Hasc. destruct Hasc as [Hp Hrest].
    pose proof (now_range p) as Hnp.
    cbn [sample_run] in Hnth.
    destruct (sample_due p s) eqn:Hd.
    + rewrite (take_sample_due s p Hd) in Hnth.
      set (s1 := set_lastSampleMs (wrap32 (lastSampleMs s + sampleIntervalMs s)) s) in *.
      assert (Hgap : sampleIntervalMs s <= now p - lastSampleMs s).
      { unfold sample_due in Hd. apply Z.leb_le in Hd.
        rewrite wrap32_small in Hd by lia. exact Hd. }
      assert (Hl1 : lastSampleMs s1 = lastSampleMs s + sampleIntervalMs s).
      { subst s1. cbn. apply wrap32_small. lia. }
      destruct (sample_run s1 rest) as [s2 rs] eqn:E2. cbn [snd] in Hnth.
      destruct i as [| j].
      * cbn in Hnth. injection Hnth as <-. cbn [elapsedMs].
        rewrite wrap32_small by lia. lia.
      * cbn [nth_error] in Hnth.
        assert (Hgoal := IH s1 j). rewrite E2 in Hgoal. cbn [snd] in Hgoal.
        assert (Hstart : startTimeMs s1 = startTimeMs s) by reflexivity.
        assert (Hint : sampleIntervalMs s1 = sampleIntervalMs s) by reflexivity.
        rewrite Hl1, Hstart, Hint in Hgoal.
        assert (Hle : lastSampleMs s + (Z.of_nat j + 1 + 1) * sampleIntervalMs s
                      - startTimeMs s <= elapsedMs r).
        { enough (lastSampleMs s + sampleIntervalMs s - startTimeMs s +
                  (Z.of_nat j + 1) * sampleIntervalMs s <= elapsedMs r) by lia.
          apply Hgoal; try lia; try exact Hnth.
          apply ascending_weaken with (now p); [lia | exact Hrest]. }
        rewrite Nat2Z.inj_succ. lia.
    + rewrite (take_sample_not_due s p Hd) in Hnth.
      destruct (sample_run s rest) as [s2 rs] eqn:E2. cbn [snd] in Hnth.
      assert (Hgoal := IH s i). rewrite E2 in Hgoal. cbn [snd] in Hgoal.
      apply Hgoal; try assumption.
      apply ascending_weaken with (now p); [exact Hp | exact Hrest].
Qed.

(** X4: with the interval at 0 every pass emits a reading and the
    reference point stays where it is. *)
Theorem zero_interval_emits_every_pass (s : Sketch) (polls : list poll) :
  sampleIntervalMs s = 0 ->
  0 <= lastSampleMs s < 2 ^ 32 ->
  List.length (snd (sample_run s polls)) = List.length polls /\
  lastSampleMs (fst (sample_run s polls)) = lastSampleMs s /\
  sampleIntervalMs (fst (sample_run s polls)) = 0.
Proof.
  revert s. induction polls as [| p rest IH]; intros s HI Hl.
  - cbn. repeat split; assumption.
  - assert (Hd : sample_due p s = true).
    { unfold sample_due. rewrite HI. apply Z.leb_le. apply wrap32_range. }
    cbn [sample_run]. rewrite (take_sample_due s p Hd).
    set (s1 := set_lastSampleMs (wrap32 (lastSampleMs s + sampleIntervalMs s)) s).
    assert (Hl1 : lastSampleMs s1 = lastSampleMs s).
    { subst s1. cbn. rewrite HI, Z.add_0_r. apply wrap32_small. exact Hl. }
    assert (HI1 : sampleIntervalMs s1 = 0) by exact HI.
    specialize (IH s1 HI1 ltac:(rewrite Hl1; exact Hl)).
    destruct (sample_run s1 rest) as [s2 rs]. cbn [fst snd] in IH |- *.
    destruct IH as (IH1 & IH2 & IH3).
    cbn [List.length]. repeat split; congruence.
Qed.

End Readings.

Lemma reading_load_not_negative_witness :
  F32.ltb (load {| elapsedMs := 13;
                   timeSec := F32.div (F32.of_Z 13) (F32.of_Z 1000);
                   load := S754_nan |}) F32.zero = false.
Proof.
  exact (proj1 (proj2 (@reading_load_not_negative uno (@power_on uno S754_nan)
                         (sampled 13 S754_nan) _ eq_refl))).
Defined.

Lemma sample_due_across_wrap_witness :
  @sample_due uno (sampled (2 ^ 32 + 5) F32.zero)
     (set_lastSampleMs (2 ^ 32 - 5) (@power_on uno S754_nan)) = true.
Proof.
  exact (@sample_due_across_wrap uno
           (set_lastSampleMs (2 ^ 32 - 5) (@power_on uno S754_nan))
           (sampled (2 ^ 32 + 5) F32.zero) 10
           ltac:(cbn; lia) ltac:(lia) eq_refl).
Defined.

Lemma readings_not_early_witness :
  0 - 0 + (Z.of_nat 1 + 1) * 10 <= 27.
Proof.
  exact (@readings_not_early uno (@power_on uno S754_nan)
           [sampled 13 F32.zero; sampled 27 F32.zero] 1%nat
           {| elapsedMs := 27;
              timeSec := F32.div (F32.of_Z 27) (F32.of_Z 1000);
              load := F32.zero |}
           ltac:(cbn; lia) ltac:(cbn; lia)
           ltac:(cbn; repeat split; discriminate) eq_refl).
Defined.

Lemma zero_interval_emits_every_pass_witness :
  List.length (snd (@sample_run uno (set_sampleIntervalMs 0 (@power_on uno S754_nan))
                      [sampled 1 F32.zero; sampled 1 F32.zero; sampled 2 F32.zero]))
  = 3%nat.
Proof.
  exact (proj1 (@zero_interval_emits_every_pass uno
                  (set_sampleIntervalMs 0 (@power_on uno S754_nan))
                  [sampled 1 F32.zero; sampled 1 F32.zero; sampled 2 F32.zero]
                  eq_refl ltac:(cbn; lia))).
Defined.

(** ** The whole effect of the dialogs *)

Section Effect.

Context {B : Board}.

Lemma tare_iter_idle (p : poll) (s : Sketch) :
  tareStatus p = false ->
  fst (tare_iter p s) = if tare_typed p then tareNoDelay s else s.
Proof.
  intros H. unfold tare_iter, tare_typed. rewrite H.
  destruct (rx p) as [| c r]; [reflexivity |].
  destruct (Ascii.eqb c "t"); reflexivity.
Qed.

Lemma tare_iter_done (p : poll) (s : Sketch) :
  tareStatus p = true ->
  fst (tare_iter p s) =
    println (Text "Tare complete") (if tare_typed p then tareNoDelay s else s).
Proof.
  intros H. unfold tare_iter, tare_typed. rewrite H.
  destruct (rx p) as [| c r]; [reflexivity |].
  destruct (Ascii.eqb c "t"); reflexivity.
Qed.

Lemma count_tare_cons (p : poll) (polls : list poll) :
  count_tare (p :: polls) =
    if tare_typed p then S (count_tare polls) else count_tare polls.
Proof. unfold count_tare. cbn [filter]. destruct (tare_typed p); reflexivity. Qed.

Lemma count_tare_app (l1 l2 : list poll) :
  count_tare (l1 ++ l2) = (count_tare l1 + count_tare l2)%nat.
Proof. unfold count_tare. rewrite filter_app. apply length_app. Qed.

Lemma spin_tare_count (idle : list poll) (s : Sketch) :
  Forall (fun q => tareStatus q = false) idle ->
  spin tare_iter idle s = Nat.iter (count_tare idle) tareNoDelay s.
Proof.
  intros Hall. revert s. induction Hall as [| q idle Hq Hall IH]; intros s.
  - reflexivity.
  - rewrite spin_cons, (tare_iter_idle q s Hq), IH, count_tare_cons.
    destruct (tare_typed q); [| reflexivity].
    symmetry. apply Nat.iter_succ_r.
Qed.

(** The tare wait prints nothing until the tare is done; every 't' it
    reads is one tare request. *)
Lemma tare_wait_inv (s s1 : Sketch) (fut : list poll) (w1 : world) :
  wait_loop tare_iter s fut = Ret (s1, w1) ->
  exists idle,
    fut = idle ++ cur w1 :: future w1 /\
    Forall (fun q => tareStatus q = false) idle /\
    tareStatus (cur w1) = true /\
    s1 = println (Text "Tare complete")
           (Nat.iter (count_tare (idle ++ [cur w1])) tareNoDelay s).
Proof.
  intros H.
  destruct (wait_loop_ret_inv tare_iter tareStatus tare_iter_ends _ _ _ _ H)
    as (idle & Hf & Hall & Hend & Hs).
  exists idle. repeat split; try assumption.
  rewrite Hs, (tare_iter_done _ _ Hend), (spin_tare_count idle s Hall).
  rewrite count_tare_app, count_tare_cons.
  change (count_tare []) with 0%nat.
  destruct (tare_typed (cur w1)).
  - rewrite Nat.add_1_r. reflexivity.
  - rewrite Nat.add_0_r. reflexivity.
Qed.

(** The entry waits print nothing and change nothing until a non-zero
    value is read. *)
Lemma mass_wait_inv (s : Sketch) (m0 : float32) (st : Sketch * float32)
    (fut : list poll) (w2 : world) :
  wait_loop mass_iter (s, m0) fut = Ret (st, w2) ->
  exists idle,
    fut = idle ++ cur w2 :: future w2 /\
    Forall (fun q => mass_entered q = false) idle /\
    mass_entered (cur w2) = true /\
    st = (emit [ Print (Text "Known mass is: ");
                 Println (Num (parseFloat (rx (cur w2))) 2) ] s,
          parseFloat (rx (cur w2))).
Proof.
  intros H.
  destruct (wait_loop_ret_inv mass_iter mass_entered mass_iter_ends _ _ _ _ H)
    as (idle & Hf & Hall & Hend & Hs).
  exists idle. repeat split; try assumption.
  pose proof (spin_mass_idle idle s m0 Hall) as Hsp.
  destruct (spin mass_iter idle (s, m0)) as [t m1]. cbn [fst] in Hsp. subst t.
  rewrite (mass_iter_accepts _ _ m1 Hend) in Hs. exact Hs.
Qed.

Lemma factor_wait_inv (s : Sketch) (v0 : float32) (st : Sketch * float32)
    (fut : list poll) (w1 : world) :
  wait_loop factor_iter (s, v0) fut = Ret (st, w1) ->
  exists idle,
    fut = idle ++ cur w1 :: future w1 /\
    Forall (fun q => mass_entered q = false) idle /\
    mass_entered (cur w1) = true /\
    st = (setCalFactor (parseFloat (rx (cur w1)))
            (emit [ Print (Text "New calibration value is: ");
                    Println (Num (parseFloat (rx (cur w1))) 6) ] s),
          parseFloat (rx (cur w1))).
Proof.
  intros H.
  destruct (wait_loop_ret_inv factor_iter mass_entered factor_iter_ends _ _ _ _ H)
    as (idle & Hf & Hall & Hend & Hs).
  exists idle. repeat split; try assumption.
  pose proof (spin_factor_idle idle s v0 Hall) as Hsp.
  destruct (spin factor_iter idle (s, v0)) as [t v1]. cbn [fst] in Hsp. subst t.
  rewrite (factor_iter_accepts _ _ v1 Hend) in Hs. exact Hs.
Qed.

Lemma calibrate_result (s s' : Sketch) (w w' : world) :
  calibrate s w = Ret (s', w') ->
  exists n m k a, s' = calibrated n m k a s.
Proof.
  unfold calibrate. intros H.
  apply bind_ret_inv in H. destruct H as (s1 & w1 & H1 & H).
  apply bind_ret_inv in H. destruct H as ([s2 m] & w2 & H2 & H).
  apply bind_ret_inv in H. destruct H as (pm & w2' & Hc & H).
  unfold current in Hc. injection Hc as <- <-.
  apply bind_ret_inv in H. destruct H as (st3 & w3 & H3 & H).
  unfold ret in H. injection H as <- <-.
  unfold busy_wait in H1, H2.
  destruct (tare_wait_inv _ _ _ _ H1) as (idle1 & _ & _ & _ & Hs1).
  destruct (mass_wait_inv _ _ _ _ _ H2) as (idle2 & _ & _ & _ & Hs2).
  destruct (decision_wait_inv _ _ _ _ _ H3) as (idle3 & a & _ & _ & _ & Hs3).
  injection Hs2 as -> ->.
  exists (count_tare (idle1 ++ [cur w1])), (parseFloat (rx (cur w2))),
         (newCalibration (cur w2) (parseFloat (rx (cur w2)))), a.
  rewrite Hs3, Hs1. unfold calibrated, answered. reflexivity.
Qed.

(** X5: the whole effect of a calibration that returns.  While it waits
    nothing is printed and nothing changes, except that every 't' read
    during the tare wait is one tare request; the state it leaves is the
    fixed transcript around the entered mass, the factor the driver
    computed and the answer. *)
Theorem calibrate_effect (s s' : Sketch) (w w' : world) :
  calibrate s w = Ret (s', w') ->
  exists idle1 pt idle2 pm idle3 a,
    future w = idle1 ++ pt :: idle2 ++ pm :: idle3 ++ cur w' :: future w' /\
    Forall (fun q => tareStatus q = false) idle1 /\ tareStatus pt = true /\
    Forall (fun q => mass_entered q = false) idle2 /\ mass_entered pm = true /\
    Forall (fun q => decision q = None) idle3 /\ decision (cur w') = Some a /\
    s' = calibrated (count_tare (idle1 ++ [pt])) (parseFloat (rx pm))
           (newCalibration pm (parseFloat (rx pm))) a s.
Proof.
  unfold calibrate. intros H.
  apply bind_ret_inv in H. destruct H as (s1 & w1 & H1 & H).
  apply bind_ret_inv in H. destruct H as ([s2 m] & w2 & H2 & H).
  apply bind_ret_inv in H. destruct H as (pm & w2' & Hc & H).
  unfold current in Hc. injection Hc as <- <-.
  apply bind_ret_inv in H. destruct H as (st3 & w3 & H3 & H).
  unfold ret in H. injection H as <- <-.
  unfold busy_wait in H1, H2.
  destruct (tare_wait_inv _ _ _ _ H1) as (idle1 & Hf1 & Hall1 & Hend1 & Hs1).
  destruct (mass_wait_inv _ _ _ _ _ H2) as (idle2 & Hf2 & Hall2 & Hend2 & Hs2).
  destruct (decision_wait_inv _ _ _ _ _ H3) as (idle3 & a & Hf3 & Hall3 & Ha & Hs3).
  injection Hs2 as -> ->.
  exists idle1, (cur w1), idle2, (cur w2), idle3, a.
  repeat split; try assumption.
  - rewrite Hf1, Hf2, Hf3. reflexivity.
  - rewrite Hs3, Hs1. unfold calibrated, answered. reflexivity.
Qed.

Lemma changeSavedCalFactor_result (s s' : Sketch) (w w' : world) :
  changeSavedCalFactor s w = Ret (s', w') ->
  exists v a, s' = factor_entered v a s.
Proof.
  unfold changeSavedCalFactor. intros H.
  apply bind_ret_inv in H. destruct H as ([s1 v] & w1 & H1 & H).
  apply bind_ret_inv in H. destruct H as (st3 & w3 & H3 & H).
  unfold ret in H. injection H as <- <-.
  unfold busy_wait in H1.
  destruct (factor_wait_inv _ _ _ _ _ H1) as (idle1 & _ & _ & _ & Hs1).
  destruct (decision_wait_inv _ _ _ _ _ H3) as (idle2 & a & _ & _ & _ & Hs3).
  injection Hs1 as -> ->.
  exists (parseFloat (rx (cur w1))), a.
  rewrite Hs3. unfold factor_entered, answered. reflexivity.
Qed.

(** X6: the whole effect of the 'c' command when it returns: zero entries
    and bytes that are no answer leave no trace; the entered value is the
    driver's factor whatever the answer, and it is written to the EEPROM
    exactly on 'y'. *)
Theorem changeSavedCalFactor_effect (s s' : Sketch) (w w' : world) :
  changeSavedCalFactor s w = Ret (s', w') ->
  exists idle1 pv idle2 a,
    future w = idle1 ++ pv :: idle2 ++ cur w' :: future w' /\
    Forall (fun q => mass_entered q = false) idle1 /\ mass_entered pv = true /\
    Forall (fun q => decision q = None) idle2 /\ decision (cur w') = Some a /\
    s' = factor_entered (parseFloat (rx pv)) a s /\
    getCalFactor s' = parseFloat (rx pv) /\
    EEPROM s' = match a with
                | Yes => EEPROM_put (EEPROM s) (parseFloat (rx pv))
                | No => EEPROM s
                end.
Proof.
  unfold changeSavedCalFactor. intros H.
  apply bind_ret_inv in H. destruct H as ([s1 v] & w1 & H1 & H).
  apply bind_ret_inv in H. destruct H as (st3 & w3 & H3 & H).
  unfold ret in H. injection H as <- <-.
  unfold busy_wait in H1.
  destruct (factor_wait_inv _ _ _ _ _ H1) as (idle1 & Hf1 & Hall1 & Hend1 & Hs1).
  destruct (decision_wait_inv _ _ _ _ _ H3) as (idle2 & a & Hf2 & Hall2 & Ha & Hs3).
  injection Hs1 as -> ->.
  exists idle1, (cur w1), idle2, a.
  assert (Hs' : emit [ Println (Text "End change calibration value");
                       Println (Text "***") ] (fst st3)
                = factor_entered (parseFloat (rx (cur w1))) a s).
  { rewrite Hs3. unfold factor_entered, answered. reflexivity. }
  repeat split; try assumption.
  - rewrite Hf1, Hf2. reflexivity.
  - rewrite Hs'. destruct a; reflexivity.
  - rewrite Hs'. destruct a; reflexivity.
Qed.

End Effect.

Lemma calibrate_effect_witness :
  exists n m k a, calibrated_no = @calibrated uno n m k a fresh.
Proof.
  destruct (@calibrate_effect uno fresh calibrated_no
              (calibration_session "n") after_session eq_refl)
    as (i1 & pt & i2 & pm & i3 & a & _ & _ & _ & _ & _ & _ & _ & Hs).
  exists (count_tare (i1 ++ [pt])), (@parseFloat uno (rx pm)),
         (newCalibration pm (@parseFloat uno (rx pm))), a.
  exact Hs.
Defined.

Lemma changeSavedCalFactor_effect_witness :
  exists v a, factor_changed = @factor_entered uno v a fresh.
Proof.
  destruct (@changeSavedCalFactor_effect uno fresh factor_changed
              factor_session after_factor_session eq_refl)
    as (i1 & pv & i2 & a & _ & _ & _ & _ & _ & Hs & _).
  exists (@parseFloat uno (rx pv)), a. exact Hs.
Defined.

(** ** Who writes what *)

Lemma headers_app (o1 o2 : list out) :
  headers (o1 ++ o2) = (headers o1 + headers o2)%nat.
Proof. unfold headers. rewrite filter_app. apply length_app. Qed.

Section Frames.

Context {B : Board}.

Lemma iter_tare_fields (n : nat) (s : Sketch) :
  startTimeMs (Nat.iter n tareNoDelay s) = startTimeMs s /\
  lastSampleMs (Nat.iter n tareNoDelay s) = lastSampleMs s /\
  sampleIntervalMs (Nat.iter n tareNoDelay s) = sampleIntervalMs s /\
  csvMode (Nat.iter n tareNoDelay s) = csvMode s /\
  printingHeader (Nat.iter n tareNoDelay s) = printingHeader s /\
  EEPROM (Nat.iter n tareNoDelay s) = EEPROM s /\
  Serial (Nat.iter n tareNoDelay s) = Serial s /\
  getCalFactor (Nat.iter n tareNoDelay s) = getCalFactor s /\
  tareRequests (LoadCell (Nat.iter n tareNoDelay s))
    = (n + tareRequests (LoadCell s))%nat.
Proof.
  induction n as [| n IH].
  - repeat split.
  - destruct IH as (H1 & H2 & H3 & H4 & H5 & H6 & H7 & H8 & H9).
    cbn [Nat.iter].
    split; [exact H1 |]. split; [exact H2 |]. split; [exact H3 |].
    split; [exact H4 |]. split; [exact H5 |]. split; [exact H6 |].
    split; [exact H7 |]. split; [exact H8 |].
    change (S (tareRequests (LoadCell (Nat.iter n tareNoDelay s)))
            = S (n + tareRequests (LoadCell s))).
    f_equal. exact H9.
Qed.

Lemma dialog_frame_latch (s t : Sketch) :
  dialog_frame s t -> header_latch s -> header_latch t.
Proof.
  intros (_ & _ & _ & Hc & Hp & Hh) [L1 L2]. unfold header_latch.
  rewrite Hh, Hp, Hc. split; assumption.
Qed.

Lemma calibrated_frame (n : nat) (m k : float32) (a : answer) (s : Sketch) :
  dialog_frame s (calibrated n m k a s).
Proof.
  unfold calibrated. cbv zeta.
  remember (emit [ Println (Text "*** Start calibration procedure");
                   Println (Text "Place the load cell on a stable surface with no load.");
                   Println (Text "Send 't' from serial monitor to tare.") ] s)
    as s0 eqn:Es0.
  destruct (iter_tare_fields n s0) as (H1 & H2 & H3 & H4 & H5 & _ & H7 & _ & _).
  remember (Nat.iter n tareNoDelay s0) as x eqn:Ex.
  assert (Hs0 : headers (Serial s0) = headers (Serial s)).
  { rewrite Es0. cbn -[headers]. rewrite headers_app. cbn. lia. }
  rewrite Es0 in H1, H2, H3, H4, H5.
  unfold dialog_frame.
  split; [destruct a; exact H1 |]. split; [destruct a; exact H2 |].
  split; [destruct a; exact H3 |]. split; [destruct a; exact H4 |].
  split; [destruct a; exact H5 |].
  rewrite <- Hs0, <- H7.
  destruct a; cbn -[headers]; repeat rewrite headers_app; cbn; lia.
Qed.

Lemma factor_entered_frame (v : float32) (a : answer) (s : Sketch) :
  dialog_frame s (factor_entered v a s).
Proof.
  unfold dialog_frame.
  split; [destruct a; reflexivity |]. split; [destruct a; reflexivity |].
  split; [destruct a; reflexivity |]. split; [destruct a; reflexivity |].
  split; [destruct a; reflexivity |].
  destruct a; cbn -[headers]; repeat rewrite headers_app; cbn; lia.
Qed.

Lemma case_f_effect (s s' : Sketch) (w w' : world) :
  case_f s w = Ret (s', w') -> s' = frequency_set (cur w') s.
Proof.
  intros H. unfold case_f in H.
  apply bind_ret_inv in H. destruct H as (p0 & w0 & Hc & H).
  unfold current in Hc. injection Hc as <- <-.
  apply bind_ret_inv in H. destruct H as (p & w1 & Hw & H).
  apply await_input_ret_inv in Hw. destruct Hw as [Hp _]. subst p.
  unfold frequency_set. cbv zeta in H |- *. revert H. unfold ret, undefined.
  destruct (available (cur w1)) eqn:Ea.
  - destruct (F32.ltb F32.zero (parseFloat (rx (cur w1)))) eqn:El.
    + destruct (F32.to_ulong (F32.div (F32.of_Z 1000) (parseFloat (rx (cur w1)))))
        eqn:En; intros H; [| discriminate H].
      injection H as <- <-. rewrite Ea, El, En. reflexivity.
    + intros H. injection H as <- <-. rewrite Ea, El. reflexivity.
  - intros H. injection H as <- <-. rewrite Ea. reflexivity.
Qed.

Lemma sampled_pass_frame (p : poll) (s : Sketch) :
  startTimeMs (sampled_pass p s) = startTimeMs s /\
  sampleIntervalMs (sampled_pass p s) = sampleIntervalMs s /\
  csvMode (sampled_pass p s) = csvMode s /\
  printingHeader (sampled_pass p s) = printingHeader s /\
  LoadCell (sampled_pass p s) = LoadCell s /\
  EEPROM (sampled_pass p s) = EEPROM s /\
  headers (Serial (sampled_pass p s)) = headers (Serial s).
Proof.
  unfold sampled_pass, take_sample, print_reading.
  destruct (sample_due p s); [| repeat split].
  cbn -[headers]. destruct (csvMode s) eqn:Ec; cbn -[headers];
    rewrite headers_app; rewrite ?Ec; repeat split; cbn; lia.
Qed.

Lemma loop_inv (s s' : Sketch) (w w' : world) :
  loop s w = Ret (s', w') ->
  exists p rest,
    future w = p :: rest /\
    match command p with
    | None => s' = sampled_pass p s /\ w' = {| cur := p; future := rest |}
    | Some c =>
        dispatch c (sampled_pass p s) {| cur := p; future := rest |}
          = Ret (s', w')
    end.
Proof.
  unfold loop. intros H.
  apply bind_ret_inv in H. destruct H as (p & w1 & Ha & H).
  unfold advance in Ha. destruct (future w) as [| q rest] eqn:Ef; [discriminate Ha |].
  injection Ha as <- <-. exists q, rest. split; [reflexivity |].
  unfold command. fold (sampled_pass q s) in H.
  destruct (rx q) as [| c tl].
  - unfold ret in H. injection H as <- <-. split; reflexivity.
  - exact H.
Qed.

End Frames.

Section Commands.

Context {B : Board}.

Lemma dispatch_cases (c : ascii) (s0 s' : Sketch) (w0 w' : world) :
  dispatch c s0 w0 = Ret (s', w') ->
  (c = "t"%char /\ s' = tareNoDelay (println (Text "Tare requested") s0) /\ w' = w0) \/
  (c = "r"%char /\ case_r s0 w0 = Ret (s', w')) \/
  (c = "c"%char /\ changeSavedCalFactor s0 w0 = Ret (s', w')) \/
  (c = "m"%char /\ s' = case_m s0 /\ w' = w0) \/
  (c = "f"%char /\ case_f s0 w0 = Ret (s', w')) \/
  (c = "h"%char /\ s' = printHelp s0 /\ w' = w0) \/
  (is_command c = false /\ s' = s0 /\ w' = w0).
Proof.
  unfold dispatch, is_command, ret.
  destruct (Ascii.eqb_spec c "t") as [-> | Ht].
  { intros H. injection H as <- <-. left. repeat split. }
  destruct (Ascii.eqb_spec c "r") as [-> | Hr].
  { intros H. right. left. split; [reflexivity | exact H]. }
  destruct (Ascii.eqb_spec c "c") as [-> | Hc].
  { intros H. right. right. left. split; [reflexivity | exact H]. }
  destruct (Ascii.eqb_spec c "m") as [-> | Hm].
  { intros H. injection H as <- <-. right. right. right. left. repeat split. }
  destruct (Ascii.eqb_spec c "f") as [-> | Hf].
  { intros H. do 4 right. left. split; [reflexivity | exact H]. }
  destruct (Ascii.eqb_spec c "h") as [-> | Hh].
  { intros H. injection H as <- <-. do 5 right. left. repeat split. }
  intros H. injection H as <- <-. do 6 right. repeat split.
Qed.

Lemma case_r_effect (s s' : Sketch) (w w' : world) :
  case_r s w = Ret (s', w') ->
  exists n m k a,
    s' = set_lastSampleMs (now (cur w'))
           (set_startTimeMs (now (cur w'))
              (calibrated n m k a (println (Text "Recalibrate requested") s))).
Proof.
  unfold case_r. intros H.
  apply bind_ret_inv in H. destruct H as (s1 & w1 & H1 & H).
  apply bind_ret_inv in H. destruct H as (p & w2 & Hc & H).
  unfold current in Hc. injection Hc as <- <-.
  unfold ret in H. injection H as <- <-.
  destruct (calibrate_result _ _ _ _ H1) as (n & m & k & a & Hs).
  exists n, m, k, a. rewrite Hs. reflexivity.
Qed.

End Commands.

Section LoopProperties.

Context {B : Board}.

Lemma case_m_fields (s : Sketch) :
  sampleIntervalMs (case_m s) = sampleIntervalMs s /\
  EEPROM (case_m s) = EEPROM s /\
  LoadCell (case_m s) = LoadCell s /\
  startTimeMs (case_m s) = startTimeMs s /\
  lastSampleMs (case_m s) = lastSampleMs s /\
  csvMode (case_m s) = negb (csvMode s).
Proof.
  unfold case_m, csv_header. cbn.
  destruct (negb (csvMode s) && negb (printingHeader s)); repeat split.
Qed.

Lemma frequency_set_fields (p : poll) (s : Sketch) :
  EEPROM (frequency_set p s) = EEPROM s /\
  LoadCell (frequency_set p s) = LoadCell s /\
  startTimeMs (frequency_set p s) = startTimeMs s /\
  lastSampleMs (frequency_set p s) = lastSampleMs s /\
  csvMode (frequency_set p s) = csvMode s /\
  printingHeader (frequency_set p s) = printingHeader s /\
  headers (Serial (frequency_set p s)) = headers (Serial s).
Proof.
  unfold frequency_set. cbv zeta.
  destruct (available p);
    [destruct (F32.ltb F32.zero (parseFloat (rx p)));
       [destruct (F32.to_ulong (F32.div (F32.of_Z 1000) (parseFloat (rx p)))) |] |];
    (split; [reflexivity |]); (split; [reflexivity |]); (split; [reflexivity |]);
    (split; [reflexivity |]); (split; [reflexivity |]); (split; [reflexivity |]);
    cbn -[headers]; repeat rewrite headers_app; cbn; lia.
Qed.

(** X7: what a pass of [loop] can change depends on the command byte it
    read.  Only 'f' changes the sample interval; only 'r' and 'c' change
    the EEPROM or the driver's factor; only 'm' changes the output mode and
    the header latch; only 'r' changes the time origin. *)
Theorem loop_writes (s s' : Sketch) (w w' : world) :
  loop s w = Ret (s', w') ->
  exists p rest,
    future w = p :: rest /\
    (command p <> Some "f"%char -> sampleIntervalMs s' = sampleIntervalMs s) /\
    (command p <> Some "r"%char -> command p <> Some "c"%char ->
       EEPROM s' = EEPROM s /\ getCalFactor s' = getCalFactor s) /\
    (command p <> Some "m"%char ->
       csvMode s' = csvMode s /\ printingHeader s' = printingHeader s) /\
    (command p <> Some "r"%char -> startTimeMs s' = startTimeMs s).
Proof.
  intros H. destruct (loop_inv s s' w w' H) as (p & rest & Hf & Hc).
  exists p, rest. split; [exact Hf |].
  destruct (sampled_pass_frame p s) as (F1 & F2 & F3 & F4 & F5 & F6 & _).
  assert (F7 : getCalFactor (sampled_pass p s) = getCalFactor s).
  { unfold getCalFactor. rewrite F5. reflexivity. }
  destruct (command p) as [c |].
  - destruct (dispatch_cases c _ _ _ _ Hc)
      as [(-> & -> & _) | [(-> & Hr) | [(-> & Hcc) | [(-> & -> & _) |
          [(-> & Hff) | [(-> & -> & _) | (_ & -> & _)]]]]]].
    + repeat split; intros; assumption.
    + destruct (case_r_effect _ _ _ _ Hr) as (n & m & k & a & ->).
      destruct (calibrated_frame n m k a (println (Text "Recalibrate requested")
                                            (sampled_pass p s)))
        as (_ & _ & C3 & C4 & C5 & _).
      repeat split; intros; try congruence.
      * exact (eq_trans C3 F2).
      * exact (eq_trans C4 F3).
      * exact (eq_trans C5 F4).
    + destruct (changeSavedCalFactor_result _ _ _ _ Hcc) as (v & a & ->).
      destruct (factor_entered_frame v a (sampled_pass p s))
        as (C1 & _ & C3 & C4 & C5 & _).
      repeat split; intros; try congruence.
    + destruct (case_m_fields (sampled_pass p s)) as (M1 & M2 & M3 & M4 & _ & _).
      repeat split; intros; try congruence.
      unfold getCalFactor. rewrite M3. exact F7.
    + rewrite (case_f_effect _ _ _ _ Hff).
      destruct (frequency_set_fields (cur w') (sampled_pass p s))
        as (E1 & E2 & E3 & _ & E5 & E6 & _).
      repeat split; intros; try congruence.
      unfold getCalFactor. rewrite E2. exact F7.
    + repeat split; intros; assumption.
    + repeat split; intros; assumption.
  - destruct Hc as [-> _]. repeat split; intros; assumption.
Qed.

Lemma header_latch_emit (o : list out) (s : Sketch) :
  headers o = 0%nat -> header_latch s -> header_latch (emit o s).
Proof.
  intros Ho [L1 L2]. unfold header_latch. cbn -[headers].
  rewrite headers_app, Ho, Nat.add_0_r. split; assumption.
Qed.

Lemma header_latch_case_m (s : Sketch) :
  header_latch s -> header_latch (case_m s).
Proof.
  intros [L1 L2]. unfold header_latch, case_m, csv_header.
  destruct (csvMode s) eqn:Ec; destruct (printingHeader s) eqn:Ep.
  - cbn -[headers]. rewrite ?Ec, ?Ep. cbn -[headers].
    repeat rewrite headers_app. rewrite L1, ?Ep. cbn.
    split; [reflexivity | intros Hx; discriminate Hx].
  - specialize (L2 eq_refl). discriminate L2.
  - cbn -[headers]. rewrite ?Ec, ?Ep. cbn -[headers].
    repeat rewrite headers_app. rewrite L1, ?Ep. cbn.
    split; [reflexivity | intros _; reflexivity].
  - cbn -[headers]. rewrite ?Ec, ?Ep. cbn -[headers].
    repeat rewrite headers_app. rewrite L1, ?Ep. cbn.
    split; [reflexivity | intros _; reflexivity].
Qed.

Lemma header_latch_loop (s s' : Sketch) (w w' : world) :
  loop s w = Ret (s', w') -> header_latch s -> header_latch s'.
Proof.
  intros H L. destruct (loop_inv s s' w w' H) as (p & rest & Hf & Hc).
  assert (L0 : header_latch (sampled_pass p s)).
  { destruct (sampled_pass_frame p s) as (_ & _ & F3 & F4 & _ & _ & F7).
    destruct L as [L1 L2]. unfold header_latch. rewrite F7, F4, F3.
    split; assumption. }
  destruct (command p) as [c |].
  - destruct (dispatch_cases c _ _ _ _ Hc)
      as [(-> & -> & _) | [(-> & Hr) | [(-> & Hcc) | [(-> & -> & _) |
          [(-> & Hff) | [(-> & -> & _) | (_ & -> & _)]]]]]].
    + apply (header_latch_emit [Println (Text "Tare requested")] _ eq_refl) in L0.
      exact L0.
    + destruct (case_r_effect _ _ _ _ Hr) as (n & m & k & a & ->).
      apply (header_latch_emit [Println (Text "Recalibrate requested")] _ eq_refl) in L0.
      apply (dialog_frame_latch _ _ (calibrated_frame n m k a _)) in L0.
      exact L0.
    + destruct (changeSavedCalFactor_result _ _ _ _ Hcc) as (v & a & ->).
      exact (dialog_frame_latch _ _ (factor_entered_frame v a _) L0).
    + apply header_latch_case_m. exact L0.
    + rewrite (case_f_effect _ _ _ _ Hff).
      destruct (frequency_set_fields (cur w') (sampled_pass p s))
        as (_ & _ & _ & _ & E5 & E6 & E7).
      destruct L0 as [L1 L2]. unfold header_latch. rewrite E7, E6, E5.
      split; assumption.
    + unfold printHelp. apply header_latch_emit; [reflexivity | exact L0].
    + exact L0.
  - destruct Hc as [-> _]. exact L0.
Qed.

(** X8: the CSV header is printed at most once in a session, whatever
    commands arrive: after any number of passes of [loop] the output holds
    at most one header line, and exactly one whenever CSV mode is on. *)
Theorem header_once (n : nat) (s s' : Sketch) (w w' : world) :
  header_latch s ->
  passes n s w = Ret (s', w') ->
  header_latch s' /\
  (headers (Serial s') <= 1)%nat /\
  (csvMode s' = true -> headers (Serial s') = 1%nat).
Proof.
  intros L H.
  assert (L' : header_latch s').
  { revert s w L H. induction n as [| n IH]; intros s w L H.
    - cbn in H. unfold ret in H. injection H as <- <-. exact L.
    - cbn [passes] in H. apply bind_ret_inv in H.
      destruct H as (s1 & w1 & H1 & H2).
      apply (IH s1 w1); [| exact H2].
      exact (header_latch_loop _ _ _ _ H1 L). }
  split; [exact L' |]. destruct L' as [L1 L2]. split.
  - rewrite L1. destruct (printingHeader s'); lia.
  - intros Hc. rewrite L1, (L2 Hc). reflexivity.
Qed.

(** X9: recalibration starts a new epoch.  When the 'r' command returns,
    the time origin and the reference point of the schedule are both the
    time of the poll that carried the answer; the interval is as before;
    and no reading is due until a whole interval has passed, so the polls
    missed during the dialog are not made up for. *)
Theorem case_r_restarts_clock (s s' : Sketch) (w w' : world) (q : poll) :
  case_r s w = Ret (s', w') ->
  startTimeMs s' = now (cur w') /\
  lastSampleMs s' = now (cur w') /\
  sampleIntervalMs s' = sampleIntervalMs s /\
  (wrap32 (now q - now (cur w')) < sampleIntervalMs s ->
   take_sample q s' = (s', None)).
Proof.
  intros H. destruct (case_r_effect _ _ _ _ H) as (n & m & k & a & Hs).
  destruct (calibrated_frame n m k a (println (Text "Recalibrate requested") s))
    as (_ & _ & C3 & _).
  assert (H1 : startTimeMs s' = now (cur w')) by (rewrite Hs; reflexivity).
  assert (H2 : lastSampleMs s' = now (cur w')) by (rewrite Hs; reflexivity).
  assert (H3 : sampleIntervalMs s' = sampleIntervalMs s).
  { rewrite Hs. exact C3. }
  repeat split; try assumption.
  intros Hq. apply take_sample_not_due. unfold sample_due.
  rewrite H2, H3. apply Z.leb_gt. exact Hq.
Qed.

(** X10: a byte the switch has no case for is ignored: the pass does what
    it would do with nothing pending, and uses no further poll. *)
Theorem unknown_command_ignored (s : Sketch) (p0 p : poll) (rest : list poll)
    (c : ascii) :
  command p = Some c ->
  is_command c = false ->
  loop s {| cur := p0; future := p :: rest |} =
    Ret (sampled_pass p s, {| cur := p; future := rest |}).
Proof.
  unfold command, loop, bind, advance. cbn [future].
  fold (sampled_pass p s).
  destruct (rx p) as [| c' tl]; [discriminate |].
  intros Hc Hn. injection Hc as ->.
  unfold is_command in Hn. unfold dispatch.
  destruct (Ascii.eqb c "t"); [discriminate Hn |].
  destruct (Ascii.eqb c "r"); [discriminate Hn |].
  destruct (Ascii.eqb c "c"); [discriminate Hn |].
  destruct (Ascii.eqb c "m"); [discriminate Hn |].
  destruct (Ascii.eqb c "f"); [discriminate Hn |].
  destruct (Ascii.eqb c "h"); [discriminate Hn |].
  reflexivity.
Qed.

End LoopProperties.

Lemma loop_writes_witness :
  sampleIntervalMs toggled_once = 10 /\ EEPROM toggled_once = EEPROM fresh.
Proof.
  destruct (@loop_writes uno fresh toggled_once
              {| cur := quiet 0; future := [typed 1 "m"] |}
              {| cur := typed 1 "m"; future := [] |} eq_refl)
    as (p & rest & Hf & Hi & He & _ & _).
  cbn [future] in Hf. injection Hf as <- <-.
  split.
  - apply Hi. discriminate.
  - apply He; discriminate.
Defined.

Lemma header_once_witness : headers (Serial toggled_thrice) = 1%nat.
Proof.
  destruct (@header_once uno 3 fresh toggled_thrice
              {| cur := quiet 0;
                 future := [typed 1 "m"; typed 2 "m"; typed 3 "m"] |}
              {| cur := typed 3 "m"; future := [] |}
              (conj eq_refl (fun H : false = true => H)) eq_refl)
    as (_ & _ & H).
  exact (H eq_refl).
Defined.

Lemma case_r_restarts_clock_witness :
  startTimeMs recalibrated = 7 /\
  @take_sample uno (sampled 16 F32.one) recalibrated = (recalibrated, None).
Proof.
  destruct (@case_r_restarts_clock uno fresh recalibrated
              (calibration_session "n") after_session (sampled 16 F32.one) eq_refl)
    as (H1 & _ & _ & H4).
  split; [exact H1 | apply H4; reflexivity].
Defined.

Lemma unknown_command_ignored_witness :
  @loop uno fresh {| cur := quiet 0; future := [typed 1 "x"] |} =
    Ret (@sampled_pass uno (typed 1 "x") fresh,
         {| cur := typed 1 "x"; future := [] |}).
Proof.
  exact (@unknown_command_ignored uno fresh (quiet 0) (typed 1 "x") []
           "x"%char eq_refl eq_refl).
Defined.

(** ** setup *)

Section Setup.

Context {B : Board}.

Lemma setup_load_fields (s : Sketch) :
  startTimeMs (setup_load s) = startTimeMs s /\
  lastSampleMs (setup_load s) = lastSampleMs s /\
  sampleIntervalMs (setup_load s) = sampleIntervalMs s /\
  csvMode (setup_load s) = csvMode s /\
  printingHeader (setup_load s) = printingHeader s /\
  headers (Serial (setup_load s)) = headers (Serial s).
Proof.
  unfold setup_load. cbv zeta.
  destruct (negb (F32.is_nan (EEPROM_get (EEPROM s))) &&
            negb (F32.eqb (EEPROM_get (EEPROM s)) F32.zero));
    (split; [reflexivity |]); (split; [reflexivity |]); (split; [reflexivity |]);
    (split; [reflexivity |]); (split; [reflexivity |]);
    cbn -[headers]; rewrite headers_app; cbn; lia.
Qed.

Lemma header_latch_csv_header (s : Sketch) :
  header_latch s -> header_latch (csv_header s).
Proof.
  intros [L1 L2]. unfold header_latch, csv_header.
  destruct (csvMode s) eqn:Ec; destruct (printingHeader s) eqn:Ep;
    cbn -[headers]; rewrite ?Ec, ?Ep.
  - split; [exact L1 | intros _; reflexivity].
  - specialize (L2 eq_refl). discriminate L2.
  - split; [exact L1 | intros Hx; discriminate Hx].
  - split; [exact L1 | intros Hx; discriminate Hx].
Qed.

Lemma setup_result (s s' : Sketch) (w w' : world) :
  setup s w = Ret (s', w') ->
  exists p rest n m k a,
    future w = p :: rest /\
    tareTimeoutFlag p = false /\ signalTimeoutFlag p = false /\
    s' = csv_header
           (printHelp
              (set_lastSampleMs (now (cur w'))
                 (set_startTimeMs (now (cur w'))
                    (calibrated n m k a
                       (println (Text "Startup complete")
                          (setup_load
                             (emit [ Newline;
                                     Println (Text "Starting HX711 Static Thrust Logger...") ]
                                   s))))))).
Proof.
  unfold setup. intros H.
  apply bind_ret_inv in H. destruct H as (p & w1 & Ha & H).
  unfold advance in Ha. destruct (future w) as [| q rest] eqn:Ef; [discriminate Ha |].
  injection Ha as <- <-.
  apply bind_ret_inv in H. destruct H as (s1 & w2 & Hflag & H).
  destruct (tareTimeoutFlag q || signalTimeoutFlag q) eqn:Efl;
    [discriminate Hflag |].
  unfold ret in Hflag. injection Hflag as <- <-.
  apply bind_ret_inv in H. destruct H as (u & w3 & _ & H).
  apply bind_ret_inv in H. destruct H as (s2 & w4 & Hcal & H).
  apply bind_ret_inv in H. destruct H as (p' & w5 & Hc & H).
  unfold current in Hc. injection Hc as <- <-.
  unfold ret in H. injection H as <- <-.
  destruct (calibrate_result _ _ _ _ Hcal) as (n & m & k & a & Hs).
  apply orb_false_iff in Efl. destruct Efl as [E1 E2].
  exists q, rest, n, m, k, a.
  repeat split; try assumption.
  rewrite Hs. reflexivity.
Qed.

(** X11: when the driver reports a tare or signal time-out at start,
    [setup] prints the time-out line and spins for ever: it does not read
    the EEPROM, does not calibrate and never returns. *)
Theorem setup_timeout_hangs (s : Sketch) (p0 p : poll) (rest : list poll) :
  tareTimeoutFlag p || signalTimeoutFlag p = true ->
  setup s {| cur := p0; future := p :: rest |} =
    Hang (Serial s ++
          [ Newline; Println (Text "Starting HX711 Static Thrust Logger...") ] ++
          [ Println (Text "Timeout, check wiring and pins") ]).
Proof.
  intros Hfl. unfold setup, bind, advance, hang. cbn [future].
  rewrite Hfl. cbn. rewrite <- app_assoc. reflexivity.
Qed.

(** X12: when [setup] returns, no time-out was reported; the time origin
    and the reference point of the schedule are both the time of the last
    poll of the start-up calibration, so the first reading comes a whole
    interval later; the interval and the output mode are as they were, and
    the header latch is kept. *)
Theorem setup_starts_clock (s s' : Sketch) (w w' : world) :
  setup s w = Ret (s', w') ->
  (exists p rest, future w = p :: rest /\
                  tareTimeoutFlag p = false /\ signalTimeoutFlag p = false) /\
  startTimeMs s' = now (cur w') /\
  lastSampleMs s' = now (cur w') /\
  sampleIntervalMs s' = sampleIntervalMs s /\
  csvMode s' = csvMode s /\
  (header_latch s -> header_latch s').
Proof.
  intros H.
  destruct (setup_result _ _ _ _ H) as (p & rest & n & m & k & a & Hf & E1 & E2 & Hs).
  set (s0 := emit [ Newline;
                    Println (Text "Starting HX711 Static Thrust Logger...") ] s) in *.
  destruct (setup_load_fields s0) as (_ & _ & G3 & G4 & G5 & G6).
  set (s1 := println (Text "Startup complete") (setup_load s0)) in *.
  destruct (calibrated_frame n m k a s1) as (_ & _ & C3 & C4 & C5 & C6).
  set (s2 := calibrated n m k a s1) in *.
  set (s3 := printHelp (set_lastSampleMs (now (cur w'))
                          (set_startTimeMs (now (cur w')) s2))) in *.
  assert (Hcsv : forall x : Sketch,
             startTimeMs (csv_header x) = startTimeMs x /\
             lastSampleMs (csv_header x) = lastSampleMs x /\
             sampleIntervalMs (csv_header x) = sampleIntervalMs x /\
             csvMode (csv_header x) = csvMode x).
  { intros x. unfold csv_header.
    destruct (csvMode x && negb (printingHeader x)); repeat split. }
  destruct (Hcsv s3) as (K1 & K2 & K3 & K4).
  split; [exists p, rest; repeat split; assumption |].
  rewrite Hs, K1, K2, K3, K4.
  split; [reflexivity |]. split; [reflexivity |].
  split; [exact (eq_trans C3 G3) |].
  split; [exact (eq_trans C4 G4) |].
  intros L.
  apply header_latch_csv_header.
  assert (L0 : header_latch s0).
  { apply header_latch_emit; [reflexivity | exact L]. }
  assert (L1 : header_latch s1).
  { destruct L0 as [A1 A2]. unfold header_latch, s1.
    cbn -[headers]. rewrite headers_app, G6, G5, G4, Nat.add_0_r.
    split; assumption. }
  assert (L2 : header_latch s2).
  { exact (dialog_frame_latch _ _ (calibrated_frame n m k a s1) L1). }
  unfold s3, printHelp. apply header_latch_emit; [reflexivity |].
  destruct L2 as [A1 A2]. split; assumption.
Qed.

End Setup.

Lemma setup_timeout_hangs_witness :
  @setup uno fresh {| cur := quiet 0; future := [timed_out 1] |}
  = Hang [ Newline; Println (Text "Starting HX711 Static Thrust Logger...");
           Println (Text "Timeout, check wiring and pins") ].
Proof.
  exact (@setup_timeout_hangs uno fresh (quiet 0) (timed_out 1) [] eq_refl).
Defined.

Lemma setup_starts_clock_witness :
  startTimeMs started = 7 /\ lastSampleMs started = 7 /\
  sampleIntervalMs started = 10.
Proof.
  destruct (@setup_starts_clock uno fresh started
              {| cur := quiet 0;
                 future := [ quiet 1; quiet 2; typed 3 "t"; tared 4;
                             entry 5 "100.0" f32_250_5; typed 7 "n";
                             quiet 8 ] |}
              {| cur := typed 7 "n"; future := [quiet 8] |} eq_refl)
    as (_ & H1 & H2 & H3 & _).
  exact (conj H1 (conj H2 H3)).
Defined.

(** ** Waiting and quiet passes *)

Section Waiting.

Context {B : Board}.

(** X13: the calibration has no time-out.  However long the script, it
    does not return while the driver has not reported the tare done, nor
    after that while no non-zero mass has been entered, nor after that
    while neither 'y' nor 'n' has been read. *)
Theorem calibrate_waits (s : Sketch) (p0 : poll) (idle1 : list poll) (pt : poll)
    (idle2 : list poll) (pm : poll) (idle3 : list poll) :
  Forall (fun q => tareStatus q = false) idle1 ->
  calibrate s {| cur := p0; future := idle1 |} = Starved /\
  (tareStatus pt = true ->
   Forall (fun q => mass_entered q = false) idle2 ->
   calibrate s {| cur := p0; future := idle1 ++ pt :: idle2 |} = Starved /\
   (mass_entered pm = true ->
    Forall (fun q => decision q = None) idle3 ->
    calibrate s {| cur := p0; future := idle1 ++ pt :: idle2 ++ pm :: idle3 |}
      = Starved)).
Proof.
  intros H1. split; [| intros Ht H2; split; [| intros Hm H3]].
  - unfold calibrate, bind, busy_wait. cbn [future].
    rewrite (wait_loop_starved tare_iter tareStatus tare_iter_ends _ idle1 H1).
    reflexivity.
  - unfold calibrate, bind, busy_wait. cbn [future].
    rewrite (wait_loop_ret tare_iter tareStatus tare_iter_ends _ idle1 pt _ H1 Ht).
    cbn [future].
    rewrite (wait_loop_starved mass_iter mass_entered mass_iter_ends _ idle2 H2).
    reflexivity.
  - assert (H3' : Forall (fun q => decided q = false) idle3).
    { eapply Forall_impl; [| exact H3]. intros q. apply decided_false. }
    unfold calibrate, bind, busy_wait, current. cbn [future].
    rewrite (wait_loop_ret tare_iter tareStatus tare_iter_ends _ idle1 pt _ H1 Ht).
    cbn [future].
    rewrite (wait_loop_ret mass_iter mass_entered mass_iter_ends _ idle2 pm _ H2 Hm).
    cbn [future cur].
    match goal with
    | |- context [mass_iter pm ?st] => destruct st as [t m0]
    end.
    rewrite (mass_iter_accepts pm t m0 Hm). cbn [fst snd].
    rewrite (wait_loop_starved decision_iter decided decision_iter_ends _ idle3 H3').
    reflexivity.
Qed.

Lemma print_reading_line (r : reading) (s : Sketch) :
  print_reading r s = emit (reading_line (csvMode s) r) s.
Proof. unfold print_reading, reading_line. destruct (csvMode s); reflexivity. Qed.

Lemma emit_emit (o1 o2 : list out) (s : Sketch) :
  emit o2 (emit o1 s) = emit (o1 ++ o2) s.
Proof. unfold emit. cbn. rewrite app_assoc. reflexivity. Qed.

Lemma take_sample_emit (p : poll) (o : list out) (s : Sketch) :
  take_sample p (emit o s) =
    (emit o (fst (take_sample p s)), snd (take_sample p s)).
Proof.
  unfold take_sample.
  change (sample_due p (emit o s)) with (sample_due p s).
  destruct (sample_due p s); reflexivity.
Qed.

Lemma sample_run_emit (polls : list poll) (o : list out) (s : Sketch) :
  sample_run (emit o s) polls =
    (emit o (fst (sample_run s polls)), snd (sample_run s polls)).
Proof.
  revert s. induction polls as [| p rest IH]; intros s.
  - reflexivity.
  - cbn [sample_run]. rewrite take_sample_emit.
    destruct (take_sample p s) as [s1 r]. cbn [fst snd].
    rewrite IH. destruct (sample_run s1 rest) as [s2 rs]. reflexivity.
Qed.

Lemma sample_run_csvMode (polls : list poll) (s : Sketch) :
  csvMode (fst (sample_run s polls)) = csvMode s.
Proof.
  revert s. induction polls as [| p rest IH]; intros s.
  - reflexivity.
  - cbn [sample_run]. destruct (take_sample_frame s p) as (_ & _ & Hc & _).
    cbv zeta in Hc.
    destruct (take_sample p s) as [s1 r]. cbn [fst] in Hc.
    specialize (IH s1). destruct (sample_run s1 rest) as [s2 rs].
    cbn [fst] in IH |- *. congruence.
Qed.

Lemma last_cons_default (p p0 : poll) (polls : list poll) :
  last (p :: polls) p0 = last polls p.
Proof.
  revert p p0. induction polls as [| q rest IH]; intros p p0.
  - reflexivity.
  - change (last (p :: q :: rest) p0) with (last (q :: rest) p0).
    rewrite (IH q p0), (IH q p). reflexivity.
Qed.

(** X14: passes of [loop] with nothing on the serial line are the
    schedule and nothing else: they use one poll each, leave the state the
    schedule leaves, and print exactly one line, in the current output
    mode, for each reading the schedule emits. *)
Theorem quiet_passes (s : Sketch) (p0 : poll) (polls rest : list poll) :
  Forall (fun p => available p = false) polls ->
  passes (List.length polls) s {| cur := p0; future := polls ++ rest |} =
    Ret (emit (flat_map (reading_line (csvMode s)) (snd (sample_run s polls)))
              (fst (sample_run s polls)),
         {| cur := last polls p0; future := rest |}).
Proof.
  intros Hall. revert s p0.
  induction Hall as [| p ps Hp Hall IH]; intros s p0.
  - cbn. unfold ret, emit. cbn. rewrite app_nil_r. destruct s; reflexivity.
  - cbn [List.length passes app]. unfold bind at 1.
    rewrite (loop_quiet s p0 p (ps ++ rest) Hp).
    rewrite last_cons_default. cbn [sample_run].
    destruct (take_sample_frame s p) as (_ & _ & Hc & _). cbv zeta in Hc.
    destruct (take_sample p s) as [sa [r |]]; cbn [fst snd] in Hc |- *.
    + rewrite print_reading_line, Hc, IH.
      rewrite sample_run_emit. cbn [fst snd].
      change (csvMode (emit (reading_line (csvMode s) r) sa)) with (csvMode sa).
      rewrite Hc, emit_emit.
      destruct (sample_run sa ps) as [s2 rs]. reflexivity.
    + rewrite IH, Hc. destruct (sample_run sa ps) as [s2 rs]. reflexivity.
Qed.

End Waiting.

Lemma calibrate_waits_witness :
  @calibrate uno fresh {| cur := quiet 0; future := [quiet 1; typed 2 "t"; quiet 3] |}
  = Starved.
Proof.
  refine (proj1 (@calibrate_waits uno fresh (quiet 0) [quiet 1; typed 2 "t"; quiet 3]
                   (tared 4) [] (quiet 5) [] _)).
  repeat constructor.
Defined.

Lemma quiet_passes_witness :
  @passes uno 2 fresh
    {| cur := quiet 0; future := [sampled 13 F32.one; sampled 27 F32.one] |}
  = Ret (emit (flat_map (reading_line false)
                 (snd (@sample_run uno fresh [sampled 13 F32.one; sampled 27 F32.one])))
              (fst (@sample_run uno fresh [sampled 13 F32.one; sampled 27 F32.one])),
         {| cur := sampled 27 F32.one; future := [] |}).
Proof.
  exact (@quiet_passes uno fresh (quiet 0)
           [sampled 13 F32.one; sampled 27 F32.one] []
           ltac:(repeat constructor)).
Defined.

(** ** Frequencies above 1000 Hz *)

Lemma shr_fexp_m_nonneg (m e : Z) (l : location) :
  0 <= m -> 0 <= shr_m (fst (shr_fexp 24 128 m e l)).
Proof.
  intros Hm. unfold shr_fexp, shr.
  assert (Hm0 : shr_m (shr_record_of_loc m l) = m).
  { destruct l as [| []]; reflexivity. }
  destruct (fexp 24 128 (Zdigits2 m + e) - e) as [| n | n]; cbn [fst].
  - rewrite Hm0. exact Hm.
  - rewrite iter_shr_1_m by (rewrite Hm0; exact Hm). rewrite Hm0.
    apply Z.div_pos; [exact Hm | apply pow2_pos; lia].
  - rewrite Hm0. exact Hm.
Qed.

Lemma shr_fexp_zero (e : Z) (l : location) :
  shr_m (fst (shr_fexp 24 128 0 e l)) = 0.
Proof.
  unfold shr_fexp, shr.
  assert (Hm0 : shr_m (shr_record_of_loc 0 l) = 0).
  { destruct l as [| []]; reflexivity. }
  destruct (fexp 24 128 (Zdigits2 0 + e) - e) as [| n | n]; cbn [fst].
  - exact Hm0.
  - rewrite iter_shr_1_m by (rewrite Hm0; lia). rewrite Hm0. apply Z.div_0_l.
    pose proof (pow2_pos (Zpos n) ltac:(lia)). lia.
  - exact Hm0.
Qed.

Lemma shr_fexp_slack (m e : Z) (l : location) :
  0 <= m -> slack_one m e ->
  slack_one (shr_m (fst (shr_fexp 24 128 m e l))) (snd (shr_fexp 24 128 m e l)).
Proof.
  intros Hm [He Hs]. unfold shr_fexp, shr.
  assert (Hm0 : shr_m (shr_record_of_loc m l) = m).
  { destruct l as [| []]; reflexivity. }
  assert (Hpe : 0 < 2 ^ (- e - 23)) by (apply pow2_pos; lia).
  assert (Hd : Zdigits2 m + e <= 0).
  { destruct m as [| p | p]; cbn [Zdigits2]; try lia.
    pose proof (digits2_pos_bounds p) as [Hlo _].
    destruct (Z_le_gt_dec (Zpos (digits2_pos p) + e) 0) as [H | H]; [exact H | exfalso].
    assert (2 ^ (- e) <= 2 ^ (Zpos (digits2_pos p) - 1)).
    { apply Z.pow_le_mono_r; lia. }
    lia. }
  assert (Hd0 : 0 <= Zdigits2 m).
  { destruct m as [| p | p]; cbn [Zdigits2]; lia. }
  destruct (fexp 24 128 (Zdigits2 m + e) - e) as [| n | n] eqn:En; cbn [fst snd].
  - rewrite Hm0. split; assumption.
  - rewrite iter_shr_1_m by (rewrite Hm0; exact Hm). rewrite Hm0.
    unfold fexp, emin in En.
    assert (He1 : 24 <= - (e + Zpos n)) by lia.
    split; [exact He1 |].
    assert (Hsplit : 2 ^ (- e) = 2 ^ Zpos n * 2 ^ (- (e + Zpos n))).
    { rewrite <- Z.pow_add_r by lia. f_equal. lia. }
    assert (Hsplit2 : 2 ^ (- e - 23) = 2 ^ Zpos n * 2 ^ (- (e + Zpos n) - 23)).
    { rewrite <- Z.pow_add_r by lia. f_equal. lia. }
    assert (Hq : m / 2 ^ Zpos n <= 2 ^ (- (e + Zpos n)) - 2 ^ (- (e + Zpos n) - 23)).
    { apply Z.div_le_upper_bound; [apply pow2_pos; lia |].
      rewrite Z.mul_sub_distr_l, <- Hsplit, <- Hsplit2. lia. }
    lia.
  - rewrite Hm0. split; assumption.
Qed.

(** A quotient of at most [1 - 2^-23] is rounded to a value below 1, whose
    integer part is 0. *)
Lemma binary_round_aux_below_one (m e : Z) (l : location) :
  0 <= m -> slack_one m e ->
  F32.to_ulong (binary_round_aux 24 128 false m e l) = Some 0.
Proof.
  intros Hm S. unfold binary_round_aux.
  pose proof (shr_fexp_slack m e l Hm S) as S1.
  pose proof (shr_fexp_m_nonneg m e l Hm) as N1.
  destruct (shr_fexp 24 128 m e l) as [mrs1 e1]. cbn [fst snd] in S1, N1.
  set (m2 := round_nearest_even (shr_m mrs1) (loc_of_shr_record mrs1)).
  assert (Hm2 : shr_m mrs1 <= m2 <= shr_m mrs1 + 1).
  { split; [apply round_nearest_even_ge | apply round_nearest_even_le]. }
  destruct S1 as [He1 Hs1].
  assert (Hp2 : 2 <= 2 ^ (- e1 - 23)).
  { change 2 with (2 ^ 1) at 1. apply Z.pow_le_mono_r; lia. }
  assert (L2 : lt_pow m2 e1 0).
  { unfold lt_pow. replace (0 - e1) with (- e1) by lia. split; lia. }
  destruct (Z.eq_dec m2 0) as [Hz | Hnz].
  - rewrite Hz. pose proof (shr_fexp_zero e1 loc_Exact) as Hz3.
    destruct (shr_fexp 24 128 0 e1 loc_Exact) as [mrs2 e2]. cbn [fst] in Hz3.
    rewrite Hz3. reflexivity.
  - assert (H1m2 : 1 <= m2) by lia.
    pose proof (proj1 (shr_fexp_pow m2 e1 loc_Exact 0 H1m2 ltac:(lia)) L2) as L3.
    pose proof (shr_fexp_m_nonneg m2 e1 loc_Exact ltac:(lia)) as N3.
    destruct (shr_fexp 24 128 m2 e1 loc_Exact) as [mrs2 e2]. cbn [fst snd] in L3, N3.
    destruct L3 as [L3a L3b].
    destruct (shr_m mrs2) as [| p | p]; [reflexivity | | lia].
    assert (He2 : (e2 <=? 128 - 24) = true) by (apply Z.leb_le; lia).
    rewrite He2. unfold F32.to_ulong, F32.trunc.
    assert (Hneg : e2 < 0).
    { destruct (Z_lt_le_dec e2 0) as [H | H]; [exact H | exfalso].
      assert (e2 = 0) by lia. subst e2. cbn in L3a. lia. }
    rewrite Z.shiftl_div_pow2 by lia.
    replace (0 - e2) with (- e2) in L3a by lia.
    rewrite Z.div_small by lia. reflexivity.
Qed.

Lemma div_core_slack (my : positive) (ey : Z) :
  valid_binary 24 128 (S754_finite false my ey) = true ->
  SFltb (S754_finite false 16384000 (-14)) (S754_finite false my ey) = true ->
  let '(q, e, _) := SFdiv_core_binary 24 128 16384000 (-14) (Zpos my) ey in
  0 <= q /\ slack_one q e.
Proof.
  intros Hv Hgt.
  cbn [valid_binary] in Hv. unfold bounded, canonical_mantissa in Hv.
  apply andb_true_iff in Hv. destruct Hv as [Hc Hb].
  apply Z.eqb_eq in Hc. apply Z.leb_le in Hb.
  unfold fexp, emin in Hc.
  pose proof (digits2_pos_bounds my) as Hd.
  set (d := Zpos (digits2_pos my)) in *.
  assert (Hd0 : 0 < d) by (unfold d; lia).
  assert (Hval : -14 < ey \/ (ey = -14 /\ 16384000 < Zpos my)).
  { destruct (Z_lt_le_dec (-14) ey) as [H | H]; [left; exact H | right].
    unfold SFltb, SFcompare in Hgt.
    destruct (Z_lt_le_dec ey (-14)) as [H' | H'].
    - exfalso. rewrite (proj2 (Z.compare_gt_iff (-14) ey)) in Hgt by lia.
      discriminate Hgt.
    - assert (Heq : ey = -14) by lia. split; [exact Heq |].
      subst ey. rewrite Z.compare_refl in Hgt.
      destruct (Pos.compare_cont Eq 16384000 my) eqn:E2; try discriminate Hgt.
      exact E2. }
  assert (Hlow : -14 <= ey) by lia.
  assert (Hd24 : d = 24) by lia.
  assert (Hmy : 8388608 <= Zpos my < 16777216).
  { rewrite Hd24 in Hd. change (2 ^ (24 - 1)) with 8388608 in Hd.
    change (2 ^ 24) with 16777216 in Hd. exact Hd. }
  unfold SFdiv_core_binary. cbn [Zdigits2].
  change (Zpos (digits2_pos 16384000)) with 24. fold d. rewrite Hd24.
  assert (He' : Z.min (fexp 24 128 (24 + -14 - (24 + ey))) (-14 - ey) = -38 - ey).
  { unfold fexp, emin. lia. }
  rewrite He'.
  replace (-14 - ey - (-38 - ey)) with 24 by lia.
  change (Z.shiftl 16384000 24) with 274877906944000.
  pose proof (Z_div_mod 274877906944000 (Zpos my) ltac:(lia)) as Hdm.
  destruct (Z.div_eucl 274877906944000 (Zpos my)) as [q r].
  destruct Hdm as [Hq Hr].
  assert (Hq0 : 0 <= q) by nia.
  split; [exact Hq0 |]. split; [lia |].
  replace (- (-38 - ey) - 23) with (1 + (14 + ey)) by lia.
  replace (- (-38 - ey)) with (24 + (14 + ey)) by lia.
  rewrite (Z.pow_add_r 2 1 (14 + ey)), (Z.pow_add_r 2 24 (14 + ey)) by lia.
  pose proof (pow2_pos (14 + ey) ltac:(lia)) as Ht.
  change (2 ^ 1) with 2. change (2 ^ 24) with 16777216.
  destruct Hval as [Hbig | [Heq Hbig]].
  - assert (H2 : 2 <= 2 ^ (14 + ey)).
    { change 2 with (2 ^ 1) at 1. apply Z.pow_le_mono_r; lia. }
    assert (Hq2 : q <= 32768000) by nia.
    nia.
  - subst ey. change (2 ^ (14 + -14)) with 1.
    assert (Hq2 : q <= 16777214) by nia.
    lia.
Qed.

(** For a frequency above 1000 Hz the interval computed by line 159 is 0. *)
Lemma interval_zero (newHz : float32) :
  F32.valid newHz = true ->
  F32.ltb (F32.of_Z 1000) newHz = true ->
  F32.to_ulong (F32.div (F32.of_Z 1000) newHz) = Some 0.
Proof.
  rewrite of_Z_1000.
  destruct newHz as [sg | sg | | sg my ey]; try destruct sg; intros Hv Hgt;
    try discriminate Hgt.
  - reflexivity.
  - unfold F32.div, SFdiv.
    pose proof (div_core_slack my ey Hv Hgt) as S.
    change F32.prec with 24. change F32.emax with 128.
    destruct (SFdiv_core_binary 24 128 16384000 (-14) (Zpos my) ey) as [[q e] l].
    cbn [xorb]. destruct S as [Hq S].
    exact (binary_round_aux_below_one q e l Hq S).
Qed.

Section FastRates.

Context {B : Board}.

(** X15: every frequency above 1000 Hz (infinity included) passes the
    guard of the 'f' command and sets the interval to 0: the command
    returns, says the rate was set, and from then on a reading is due on
    every pass. *)
Theorem case_f_above_1000 (s : Sketch) (p0 : poll) (idle : list poll) (p : poll)
    (rest : list poll) :
  Forall (fun q => wrap32 (now q - now p0) < 5000 /\ available q = false) idle ->
  available p = true ->
  F32.valid (parseFloat (rx p)) = true ->
  F32.ltb (F32.of_Z 1000) (parseFloat (rx p)) = true ->
  case_f s {| cur := p0; future := idle ++ p :: rest |} =
    Ret (emit [ Print (Text "Sample rate set to: ");
                Print (Num (parseFloat (rx p)) 1); Println (Text " Hz") ]
              (set_sampleIntervalMs 0
                 (println (Text "Enter sample frequency in Hz (e.g. 100)") s)),
         {| cur := p; future := rest |}) /\
  forall q : poll,
    sample_due q (ran s (case_f s {| cur := p0; future := idle ++ p :: rest |}))
      = true.
Proof.
  intros Hidle Ha Hv Hgt.
  pose proof (case_f_after_wait s p0 idle p rest Hidle (or_intror Ha)) as Hrun.
  cbv zeta in Hrun.
  assert (Hpos : F32.ltb F32.zero (parseFloat (rx p)) = true).
  { revert Hgt. rewrite of_Z_1000.
    destruct (parseFloat (rx p)) as [sg | sg | | sg my ey]; try destruct sg;
      intros Hgt; try discriminate Hgt; reflexivity. }
  rewrite Ha, Hpos, (interval_zero _ Hv Hgt) in Hrun.
  split; [exact Hrun |].
  intros q. rewrite Hrun. unfold ran, ret, sample_due. cbn [sampleIntervalMs emit set_sampleIntervalMs].
  apply Z.leb_le. apply wrap32_range.
Qed.

End FastRates.

Lemma case_f_above_1000_witness :
  sampleIntervalMs (ran fresh (@case_f uno fresh (frequency_session "2000"))) = 0.
Proof.
  destruct (@case_f_above_1000 uno fresh (typed 0 "f") [quiet 1] (typed 2 "2000")
              [quiet 3] ltac:(repeat constructor) eq_refl eq_refl eq_refl)
    as [H _].
  change (frequency_session "2000")
    with {| cur := typed 0 "f"; future := [quiet 1] ++ typed 2 "2000" :: [quiet 3] |}.
  rewrite H. reflexivity.
Defined.

(** ** Frequencies too low for a 32-bit period *)

Lemma shr_fexp_ge_pow (m e : Z) (l : location) (K : Z) :
  0 <= K -> ge_pow m e K ->
  ge_pow (shr_m (fst (shr_fexp 24 128 m e l))) (snd (shr_fexp 24 128 m e l)) K.
Proof.
  intros HK [Hm He]. unfold shr_fexp, shr.
  destruct m as [| p | p]; try lia.
  cbn [Zdigits2].
  pose proof (digits2_pos_bounds p) as Hd.
  set (d := Zpos (digits2_pos p)) in *.
  assert (Hd0 : 0 < d) by (unfold d; lia).
  assert (Hm0 : shr_m (shr_record_of_loc (Zpos p) l) = Zpos p).
  { destruct l as [| []]; reflexivity. }
  destruct (fexp 24 128 (d + e) - e) as [| n | n] eqn:En; cbn [fst snd].
  - rewrite Hm0. split; assumption.
  - rewrite iter_shr_1_m by (rewrite Hm0; lia). rewrite Hm0.
    unfold fexp, emin in En.
    destruct (Z_le_gt_dec (e + Zpos n) K) as [Hle | Hgt].
    + assert (Hk : 2 ^ (K - (e + Zpos n)) * 2 ^ Zpos n <= Zpos p).
      { rewrite <- Z.pow_add_r by lia.
        replace (K - (e + Zpos n) + Zpos n) with (K - e) by lia. apply He. lia. }
      assert (Hq : 2 ^ (K - (e + Zpos n)) <= Zpos p / 2 ^ Zpos n).
      { apply Z.div_le_lower_bound; [apply pow2_pos; lia | lia]. }
      pose proof (pow2_pos (K - (e + Zpos n)) ltac:(lia)).
      split; [lia | intros _; exact Hq].
    + assert (Hnd : Zpos n <= d - 1) by lia.
      assert (Hk : 2 ^ Zpos n <= Zpos p).
      { apply Z.le_trans with (2 ^ (d - 1)); [| lia].
        apply Z.pow_le_mono_r; lia. }
      split; [| lia].
      apply Z.div_le_lower_bound; [apply pow2_pos; lia | lia].
  - rewrite Hm0. split; assumption.
Qed.

Lemma ge_pow_mono (m m' e K : Z) : m <= m' -> ge_pow m e K -> ge_pow m' e K.
Proof. intros H [H1 H2]. split; [lia |]. intros He. specialize (H2 He). lia. Qed.

Lemma binary_round_aux_ge_pow (m e : Z) (l : location) (K : Z) :
  0 <= K -> ge_pow m e K ->
  binary_round_aux 24 128 false m e l = S754_infinity false \/
  exists m' e', binary_round_aux 24 128 false m e l = S754_finite false m' e' /\
                ge_pow (Zpos m') e' K.
Proof.
  intros HK G. unfold binary_round_aux.
  pose proof (shr_fexp_ge_pow m e l K HK G) as G1.
  destruct (shr_fexp 24 128 m e l) as [mrs1 e1]. cbn [fst snd] in G1.
  pose proof (ge_pow_mono _ _ _ _
                (round_nearest_even_ge (shr_m mrs1) (loc_of_shr_record mrs1)) G1) as G2.
  pose proof (shr_fexp_ge_pow _ _ loc_Exact K HK G2) as G3.
  destruct (shr_fexp 24 128 (round_nearest_even (shr_m mrs1) (loc_of_shr_record mrs1))
              e1 loc_Exact) as [mrs2 e2].
  cbn [fst snd] in G3.
  destruct (shr_m mrs2) as [| p | p]; try (destruct G3; lia).
  destruct (e2 <=? 128 - 24); [right | left; reflexivity].
  exists p, e2. split; [reflexivity | exact G3].
Qed.

Lemma shiftl_ge_pow (m : positive) (e K : Z) :
  0 <= K -> ge_pow (Zpos m) e K -> 2 ^ K <= Z.shiftl (Zpos m) e.
Proof.
  intros HK [_ He]. destruct (Z_le_gt_dec 0 e) as [Hpos | Hneg].
  - rewrite Z.shiftl_mul_pow2 by exact Hpos.
    destruct (Z_le_gt_dec e K) as [Hle | Hgt].
    + specialize (He Hle).
      replace K with ((K - e) + e) at 1 by lia.
      rewrite Z.pow_add_r by lia.
      pose proof (pow2_pos e Hpos). nia.
    + assert (2 ^ K <= 2 ^ e) by (apply Z.pow_le_mono_r; lia).
      pose proof (pow2_pos e Hpos). nia.
  - rewrite Z.shiftl_div_pow2 by lia.
    apply Z.div_le_lower_bound; [apply pow2_pos; lia |].
    rewrite <- Z.pow_add_r by lia.
    replace (- e + K) with (K - e) by lia. apply He. lia.
Qed.

(** 1000.0f divided by a binary32 value in (0, 1000 * 2^-32]. *)
Lemma div_core_ge_pow (my : positive) (ey : Z) :
  valid_binary 24 128 (S754_finite false my ey) = true ->
  SFleb (S754_finite false my ey) (S754_finite false 16384000 (-46)) = true ->
  let '(q, e, _) := SFdiv_core_binary 24 128 16384000 (-14) (Zpos my) ey in
  ge_pow q e 32.
Proof.
  intros Hv Hle.
  cbn [valid_binary] in Hv. unfold bounded, canonical_mantissa in Hv.
  apply andb_true_iff in Hv. destruct Hv as [Hc Hb].
  apply Z.eqb_eq in Hc. apply Z.leb_le in Hb.
  unfold fexp, emin in Hc.
  pose proof (digits2_pos_bounds my) as Hd.
  set (d := Zpos (digits2_pos my)) in *.
  assert (Hd0 : 0 < d) by (unfold d; lia).
  assert (Hval : ey < -46 \/ (ey = -46 /\ Zpos my <= 16384000)).
  { destruct (Z_lt_le_dec ey (-46)) as [H | H]; [left; exact H | right].
    unfold SFleb, SFcompare in Hle.
    destruct (Z_lt_le_dec (-46) ey) as [H' | H'].
    - exfalso. rewrite (proj2 (Z.compare_gt_iff ey (-46))) in Hle by lia.
      discriminate Hle.
    - assert (Heq : ey = -46) by lia. split; [exact Heq |].
      subst ey. rewrite Z.compare_refl in Hle.
      destruct (Pos.compare_cont Eq my 16384000) eqn:E2; try discriminate Hle.
      + apply Pos.compare_eq in E2. subst my. lia.
      + apply Z.lt_le_incl. exact E2. }
  unfold SFdiv_core_binary. cbn [Zdigits2].
  change (Zpos (digits2_pos 16384000)) with 24. fold d.
  assert (He' : Z.min (fexp 24 128 (24 + -14 - (d + ey))) (-14 - ey) = -14 - d - ey).
  { unfold fexp, emin. lia. }
  rewrite He'.
  replace (-14 - ey - (-14 - d - ey)) with d by lia.
  unfold d at 1. fold d.
  rewrite Z.shiftl_mul_pow2 by lia.
  pose proof (pow2_pos d ltac:(lia)) as Hpd.
  pose proof (Z_div_mod (16384000 * 2 ^ d) (Zpos my) ltac:(lia)) as Hdm.
  destruct (Z.div_eucl (16384000 * 2 ^ d) (Zpos my)) as [q r].
  destruct Hdm as [Hq Hr].
  assert (Hq1 : 1 <= q) by nia.
  split; [exact Hq1 |].
  intros Hk.
  set (k := 32 - (-14 - d - ey)) in *.
  assert (Hk0 : 0 <= k) by lia.
  assert (Hmul : Zpos my * 2 ^ k <= 16384000 * 2 ^ d).
  { destruct Hval as [Hlt | [Heq Hmy]].
    - assert (Hkd : k <= d - 1) by lia.
      assert (H2 : 2 ^ k <= 2 ^ (d - 1)) by (apply Z.pow_le_mono_r; lia).
      assert (H3 : 2 ^ d = 2 * 2 ^ (d - 1)).
      { replace d with (Z.succ (d - 1)) at 1 by lia. apply Z.pow_succ_r. lia. }
      assert (H4 : Zpos my < 2 ^ 24).
      { apply Z.lt_le_trans with (2 ^ d); [lia |]. apply Z.pow_le_mono_r; lia. }
      pose proof (pow2_pos k Hk0).
      change (2 ^ 24) with 16777216 in H4. nia.
    - assert (k = d) by lia. subst k. rewrite H. nia. }
  pose proof (pow2_pos k Hk0) as Hpk.
  destruct (Z_lt_le_dec q (2 ^ k)) as [Hlt | Hge]; [| exact Hge].
  exfalso. nia.
Qed.

(** For a frequency in (0, 1000 * 2^-32] the quotient of line 159 is 2^32
    or more: its conversion to [unsigned long] is undefined. *)
Lemma interval_undefined_below (newHz : float32) :
  F32.valid newHz = true ->
  F32.ltb F32.zero newHz = true ->
  F32.leb newHz f32_threshold = true ->
  F32.to_ulong (F32.div (F32.of_Z 1000) newHz) = None.
Proof.
  rewrite of_Z_1000.
  destruct newHz as [sg | sg | | sg my ey]; try destruct sg; intros Hv Hpos Hle;
    try discriminate Hpos; try discriminate Hle.
  unfold F32.div, SFdiv.
  pose proof (div_core_ge_pow my ey Hv Hle) as G.
  change F32.prec with 24. change F32.emax with 128.
  destruct (SFdiv_core_binary 24 128 16384000 (-14) (Zpos my) ey) as [[q e] l].
  cbn [xorb].
  destruct (binary_round_aux_ge_pow q e l 32 ltac:(lia) G)
    as [Hinf | (m' & e' & Hfin & G')].
  - rewrite Hinf. reflexivity.
  - rewrite Hfin. unfold F32.to_ulong, F32.trunc.
    pose proof (shiftl_ge_pow m' e' 32 ltac:(lia) G') as Hs.
    assert (Hr : (Z.shiftl (Zpos m') e' <? 2 ^ 32) = false).
    { apply Z.ltb_ge. exact Hs. }
    rewrite Hr, andb_false_r. reflexivity.
Qed.

Lemma too_slow_below_threshold (newHz : float32) :
  F32.leb newHz f32_too_slow = true -> F32.leb newHz f32_threshold = true.
Proof.
  destruct newHz as [sg | sg | | sg my ey]; try destruct sg; intros Hle;
    try discriminate Hle; try reflexivity.
  unfold F32.leb, f32_too_slow, f32_threshold, SFleb, SFcompare in *.
  destruct (ey ?= -46) eqn:E; try exact Hle.
  destruct (Pos.compare_cont Eq my 8388608) eqn:E2; try discriminate Hle.
  - apply Pos.compare_eq in E2. subst my. reflexivity.
  - destruct (Pos.compare_cont Eq my 16384000) eqn:E3; try reflexivity.
    exfalso.
    assert (H1 : (my < 8388608)%positive) by exact E2.
    assert (H2 : (16384000 < my)%positive) by (apply Pos.compare_gt_iff; exact E3).
    assert (H3 : (8388608 < 16384000)%positive) by reflexivity.
    exact (Pos.lt_irrefl _ (Pos.lt_trans _ _ _ H1 (Pos.lt_trans _ _ _ H3 H2))).
Qed.

(** For a frequency in (0, 2^-23] the quotient of line 159 is 2^32 or
    more: its conversion to [unsigned long] is undefined. *)
Lemma interval_undefined (newHz : float32) :
  F32.valid newHz = true ->
  F32.ltb F32.zero newHz = true ->
  F32.leb newHz f32_too_slow = true ->
  F32.to_ulong (F32.div (F32.of_Z 1000) newHz) = None.
Proof.
  intros Hv Hpos Hle.
  exact (interval_undefined_below newHz Hv Hpos (too_slow_below_threshold newHz Hle)).
Qed.

Section SlowRates.

Context {B : Board}.

(** X16: a frequency above zero but at most 2^-23 Hz passes the guard of
    the 'f' command, yet its period in milliseconds is 2^32 or more: the
    conversion to [unsigned long] on line 159 has no defined result. *)
Theorem case_f_too_slow (s : Sketch) (p0 : poll) (idle : list poll) (p : poll)
    (rest : list poll) :
  Forall (fun q => wrap32 (now q - now p0) < 5000 /\ available q = false) idle ->
  available p = true ->
  F32.valid (parseFloat (rx p)) = true ->
  F32.ltb F32.zero (parseFloat (rx p)) = true ->
  F32.leb (parseFloat (rx p)) f32_too_slow = true ->
  case_f s {| cur := p0; future := idle ++ p :: rest |} = Undefined.
Proof.
  intros Hidle Ha Hv Hpos Hle.
  pose proof (case_f_after_wait s p0 idle p rest Hidle (or_intror Ha)) as Hrun.
  cbv zeta in Hrun.
  rewrite Ha, Hpos, (interval_undefined _ Hv Hpos Hle) in Hrun.
  exact Hrun.
Qed.

End SlowRates.

Lemma case_f_too_slow_witness :
  @case_f uno fresh (frequency_session "0.0000001") = Undefined.
Proof.
  exact (@case_f_too_slow uno fresh (typed 0 "f") [quiet 1] (typed 2 "0.0000001")
           [quiet 3] ltac:(repeat constructor) eq_refl eq_refl eq_refl eq_refl).
Defined.

(** ** Frequencies just above the threshold

    Above 1000 * 2^-32 Hz the quotient is at most [2 ^ 32 - 2 ^ 9], which
    leaves room for the rounding: the rounded quotient stays below 2^32. *)

Lemma shr_fexp_below_top (m e : Z) (l : location) (K : Z) :
  2 ^ 23 <= m -> -125 <= K -> below_top m e K ->
  lt_pow (shr_m (fst (shr_fexp 24 128 m e l)) + 1) (snd (shr_fexp 24 128 m e l)) K.
Proof.
  intros Hm HK [Hj Hb]. unfold shr_fexp, shr.
  change (2 ^ 23) with 8388608 in *.
  destruct m as [| p | p]; try lia.
  cbn [Zdigits2].
  pose proof (digits2_pos_bounds p) as Hd.
  set (d := Zpos (digits2_pos p)) in *.
  assert (Hd0 : 0 < d) by (unfold d; lia).
  assert (Hm0 : shr_m (shr_record_of_loc (Zpos p) l) = Zpos p).
  { destruct l as [| []]; reflexivity. }
  assert (Hsame : lt_pow (Zpos p + 1) e K).
  { unfold lt_pow. split; [| lia].
    replace (K - e) with (23 + (K - 23 - e)) by lia.
    rewrite Z.pow_add_r by lia. change (2 ^ 23) with 8388608.
    pose proof (pow2_pos (K - 23 - e) Hj) as HP.
    set (P := 2 ^ (K - 23 - e)) in *.
    assert (HP2 : 2 <= P) by nia.
    lia. }
  destruct (fexp 24 128 (d + e) - e) as [| n | n] eqn:En; cbn [fst snd].
  - rewrite Hm0. exact Hsame.
  - rewrite iter_shr_1_m by (rewrite Hm0; lia). rewrite Hm0.
    unfold fexp, emin in En.
    assert (Hdj : d <= 23 + (K - 23 - e)).
    { destruct (Z_le_gt_dec d (23 + (K - 23 - e))) as [H | H]; [exact H | exfalso].
      assert (H1 : 2 ^ (23 + (K - 23 - e)) <= 2 ^ (d - 1)).
      { apply Z.pow_le_mono_r; lia. }
      rewrite Z.pow_add_r in H1 by lia. change (2 ^ 23) with 8388608 in H1.
      pose proof (pow2_pos (K - 23 - e) Hj). lia. }
    assert (Hj' : 1 <= K - 23 - (e + Zpos n)) by lia.
    pose proof (pow2_pos (Zpos n) ltac:(lia)) as Hpn.
    assert (Hsplit : 2 ^ (K - 23 - e) = 2 ^ Zpos n * 2 ^ (K - 23 - (e + Zpos n))).
    { rewrite <- Z.pow_add_r by lia. f_equal. lia. }
    assert (Hq : Zpos p / 2 ^ Zpos n <= 8388607 * 2 ^ (K - 23 - (e + Zpos n))).
    { apply Z.div_le_upper_bound; [exact Hpn |]. rewrite Hsplit in Hb. lia. }
    assert (HQ2 : 2 ^ 1 <= 2 ^ (K - 23 - (e + Zpos n))).
    { apply Z.pow_le_mono_r; lia. }
    change (2 ^ 1) with 2 in HQ2.
    unfold lt_pow. split; [| lia].
    replace (K - (e + Zpos n)) with (23 + (K - 23 - (e + Zpos n))) by lia.
    rewrite Z.pow_add_r by lia. change (2 ^ 23) with 8388608.
    lia.
  - rewrite Hm0. exact Hsame.
Qed.

Lemma binary_round_aux_below_top (m e : Z) (l : location) (K : Z) :
  ge_one m e -> 2 ^ 23 <= m -> below_top m e K -> -125 <= K <= 104 ->
  exists m' e', binary_round_aux 24 128 false m e l = S754_finite false m' e' /\
                ge_one (Zpos m') e' /\ lt_pow (Zpos m') e' K.
Proof.
  intros G Hm T HK. unfold binary_round_aux.
  pose proof (shr_fexp_ge_one m e l G) as G1.
  pose proof (shr_fexp_below_top m e l K Hm (proj1 HK) T) as L1.
  destruct (shr_fexp 24 128 m e l) as [mrs1 e1]. cbn [fst snd] in G1, L1.
  pose proof (ge_one_mono _ _ _
                (round_nearest_even_ge (shr_m mrs1) (loc_of_shr_record mrs1)) G1) as G2.
  assert (L2 : lt_pow (round_nearest_even (shr_m mrs1) (loc_of_shr_record mrs1)) e1 K).
  { destruct L1 as [L1a L1b]. split; [| exact L1b].
    pose proof (round_nearest_even_le (shr_m mrs1) (loc_of_shr_record mrs1)). lia. }
  pose proof (shr_fexp_ge_one _ _ loc_Exact G2) as G3.
  pose proof (proj1 (shr_fexp_pow _ e1 loc_Exact K (proj1 G2) ltac:(lia)) L2) as L3.
  destruct (shr_fexp 24 128 (round_nearest_even (shr_m mrs1) (loc_of_shr_record mrs1))
              e1 loc_Exact) as [mrs2 e2].
  cbn [fst snd] in G3, L3.
  destruct (shr_m mrs2) as [| p | p]; try (destruct G3; lia).
  assert (He2 : (e2 <=? 128 - 24) = true).
  { apply Z.leb_le. destruct L3 as [_ L3]. lia. }
  rewrite He2. exists p, e2. split; [reflexivity | split; [exact G3 | exact L3]].
Qed.

Lemma shiftl_lt_pow (m : positive) (e K : Z) :
  0 <= K -> lt_pow (Zpos m) e K -> Z.shiftl (Zpos m) e < 2 ^ K.
Proof.
  intros HK [H1 H2]. destruct (Z_le_gt_dec 0 e) as [Hpos | Hneg].
  - rewrite Z.shiftl_mul_pow2 by exact Hpos.
    replace K with ((K - e) + e) at 1 by lia.
    rewrite Z.pow_add_r by lia.
    pose proof (pow2_pos e Hpos). nia.
  - rewrite Z.shiftl_div_pow2 by lia.
    apply Z.div_lt_upper_bound; [apply pow2_pos; lia |].
    rewrite <- Z.pow_add_r by lia.
    replace (- e + K) with (K - e) by lia. exact H1.
Qed.

(** 1000.0f divided by a binary32 value in (1000 * 2^-32, 1000]. *)
Lemma div_core_below_top (my : positive) (ey : Z) :
  valid_binary 24 128 (S754_finite false my ey) = true ->
  SFleb (S754_finite false my ey) (S754_finite false 16384000 (-14)) = true ->
  SFltb (S754_finite false 16384000 (-46)) (S754_finite false my ey) = true ->
  let '(q, e, _) := SFdiv_core_binary 24 128 16384000 (-14) (Zpos my) ey in
  2 ^ 23 <= q /\ below_top q e 32.
Proof.
  intros Hv Hle Hgt.
  cbn [valid_binary] in Hv. unfold bounded, canonical_mantissa in Hv.
  apply andb_true_iff in Hv. destruct Hv as [Hc Hb].
  apply Z.eqb_eq in Hc. apply Z.leb_le in Hb.
  unfold fexp, emin in Hc.
  pose proof (digits2_pos_bounds my) as Hd.
  set (d := Zpos (digits2_pos my)) in *.
  assert (Hd0 : 0 < d) by (unfold d; lia).
  assert (Hup : ey <= -14).
  { destruct (Z_le_gt_dec ey (-14)) as [H | H]; [exact H | exfalso].
    unfold SFleb, SFcompare in Hle.
    rewrite (proj2 (Z.compare_gt_iff ey (-14))) in Hle by lia. discriminate Hle. }
  assert (Hlo : -46 < ey \/ (ey = -46 /\ 16384000 < Zpos my)).
  { destruct (Z_lt_le_dec (-46) ey) as [H | H]; [left; exact H | right].
    unfold SFltb, SFcompare in Hgt.
    destruct (Z_lt_le_dec ey (-46)) as [H' | H'].
    - exfalso. rewrite (proj2 (Z.compare_gt_iff (-46) ey)) in Hgt by lia.
      discriminate Hgt.
    - assert (Heq : ey = -46) by lia. split; [exact Heq |].
      subst ey. rewrite Z.compare_refl in Hgt.
      destruct (Pos.compare_cont Eq 16384000 my) eqn:E2; try discriminate Hgt.
      exact E2. }
  assert (Hd24 : d = 24) by lia.
  unfold SFdiv_core_binary. cbn [Zdigits2].
  change (Zpos (digits2_pos 16384000)) with 24. fold d.
  assert (He' : Z.min (fexp 24 128 (24 + -14 - (d + ey))) (-14 - ey) = -14 - d - ey).
  { unfold fexp, emin. lia. }
  rewrite He'.
  replace (-14 - ey - (-14 - d - ey)) with d by lia.
  unfold d at 1. fold d.
  rewrite Z.shiftl_mul_pow2 by lia.
  pose proof (Z_div_mod (16384000 * 2 ^ d) (Zpos my) ltac:(lia)) as Hdm.
  destruct (Z.div_eucl (16384000 * 2 ^ d) (Zpos my)) as [q r].
  destruct Hdm as [Hq Hr].
  rewrite Hd24 in *.
  replace (24 - 1) with 23 in Hd by lia.
  change (2 ^ 24) with 16777216 in *. change (2 ^ 23) with 8388608 in *.
  assert (Hq1 : 16384000 <= q) by nia.
  split; [lia |].
  unfold below_top.
  replace (32 - 23 - (-14 - 24 - ey)) with (47 + ey) by lia.
  split; [lia |].
  change (2 ^ 23) with 8388608.
  destruct Hlo as [Hlt | [Heq Hmy]].
  - assert (H4 : 2 ^ 2 <= 2 ^ (47 + ey)) by (apply Z.pow_le_mono_r; lia).
    change (2 ^ 2) with 4 in H4.
    assert (Hq2 : q <= 32768000) by nia.
    lia.
  - subst ey. change (2 ^ (47 + -46)) with 2.
    destruct (Z_le_gt_dec q 16777214) as [H | H]; [lia | exfalso]. nia.
Qed.

(** For a frequency in (1000 * 2^-32, 1000] the conversion of line 159 is
    defined, and what it gives is at least 1. *)
Lemma interval_in_range (newHz : float32) :
  F32.valid newHz = true ->
  F32.ltb f32_threshold newHz = true ->
  F32.leb newHz (F32.of_Z 1000) = true ->
  exists n, F32.to_ulong (F32.div (F32.of_Z 1000) newHz) = Some n /\
            1 <= n < 2 ^ 32.
Proof.
  rewrite of_Z_1000.
  destruct newHz as [s | s | | s my ey]; try destruct s; intros Hv Hlo Hle;
    try discriminate Hlo; try discriminate Hle.
  unfold F32.div, SFdiv.
  pose proof (div_core_ge_one my ey Hv Hle) as G.
  pose proof (div_core_below_top my ey Hv Hle Hlo) as T.
  change F32.prec with 24. change F32.emax with 128.
  destruct (SFdiv_core_binary 24 128 16384000 (-14) (Zpos my) ey) as [[q e] l].
  cbn [xorb]. destruct T as [Hq T].
  destruct (binary_round_aux_below_top q e l 32 G Hq T ltac:(lia))
    as (m' & e' & Hfin & G' & L').
  rewrite Hfin. unfold F32.to_ulong, F32.trunc.
  pose proof (shiftl_ge_one m' e' G') as Hs.
  pose proof (shiftl_lt_pow m' e' 32 ltac:(lia) L') as Hu.
  exists (Z.shiftl (Zpos m') e').
  assert (Hr : (0 <=? Z.shiftl (Zpos m') e') && (Z.shiftl (Zpos m') e' <? 2 ^ 32) = true).
  { apply andb_true_iff. split; [apply Z.leb_le; lia | apply Z.ltb_lt; exact Hu]. }
  rewrite Hr. split; [reflexivity | lia].
Qed.

Lemma compare_cont_swap (p q : positive) :
  Pos.compare_cont Eq q p = CompOpp (Pos.compare_cont Eq p q).
Proof. exact (eq_sym (Pos.compare_cont_antisym p q Eq)). Qed.

(** Every binary32 value above zero lies in one of the three ranges. *)
Lemma accepted_ranges (newHz : float32) :
  F32.ltb F32.zero newHz = true ->
  F32.leb newHz f32_threshold = true \/
  (F32.ltb f32_threshold newHz = true /\ F32.leb newHz (F32.of_Z 1000) = true) \/
  F32.ltb (F32.of_Z 1000) newHz = true.
Proof.
  rewrite of_Z_1000.
  destruct newHz as [sg | sg | | sg my ey]; try destruct sg; intros Hpos;
    try discriminate Hpos.
  - right. right. reflexivity.
  - unfold F32.leb, F32.ltb, f32_threshold, SFleb, SFltb, SFcompare.
    rewrite (compare_cont_swap my 16384000).
    destruct (Z.compare_spec ey (-46)) as [E | E | E].
    + subst ey. rewrite !Z.compare_refl.
      destruct (Pos.compare_cont Eq my 16384000); cbn [CompOpp];
        [left | left | right; left; split]; reflexivity.
    + left. reflexivity.
    + right. rewrite (proj2 (Z.compare_lt_iff (-46) ey)) by lia.
      destruct (Z.compare_spec ey (-14)) as [E' | E' | E'].
      * subst ey. rewrite !Z.compare_refl.
        destruct (Pos.compare_cont Eq my 16384000); cbn [CompOpp];
          [left; split | left; split | right]; reflexivity.
      * left. split; reflexivity.
      * right. rewrite (proj2 (Z.compare_lt_iff (-14) ey)) by lia. reflexivity.
Qed.

(** ** The interval after the 'f' command, for every frequency *)

Lemma above_zero_of_above (x newHz : float32) :
  F32.ltb F32.zero x = true -> F32.is_finite x = true ->
  F32.ltb x newHz = true -> F32.ltb F32.zero newHz = true.
Proof.
  destruct x as [sx | sx | | sx mx ex]; try destruct sx; intros Hx Hf;
    try discriminate Hx; try discriminate Hf.
  destruct newHz as [sg | sg | | sg my ey]; try destruct sg; intros H;
    try discriminate H; reflexivity.
Qed.

Section Interval_ranges.

Context {B : Board}.

(** C6 (amended): the interval starts at 10 and a run of the 'f' command
    that returns never makes it negative.  When nothing arrives in time or
    the frequency is not above zero the command returns with the interval as
    it was.  Every other binary32 frequency is accepted and lies in one of
    three ranges.  Above 1000 * 2^-32 Hz and up to 1000 Hz the command
    returns and the interval is the integer part of 1000.0f divided by the
    frequency, strictly positive and below 2^32 (at most 2^31 from 2^-21 Hz
    on).  Above 1000 Hz the command returns and the interval is 0.  From
    1000 * 2^-32 Hz down the quotient is 2^32 or more and its conversion to
    [unsigned long] is undefined: the command gives no interval at all. *)
Theorem case_f_interval (s : Sketch) (p0 : poll) (idle : list poll) (p : poll)
    (rest : list poll) (e : store) :
  Forall (fun q => wrap32 (now q - now p0) < 5000 /\ available q = false) idle ->
  5000 <= wrap32 (now p - now p0) \/ available p = true ->
  let w := {| cur := p0; future := idle ++ p :: rest |} in
  let w' := {| cur := p; future := rest |} in
  let newHz := parseFloat (rx p) in
  sampleIntervalMs (power_on e) = 10 /\
  (available p = false \/ F32.ltb F32.zero newHz = false ->
     exists s', case_f s w = Ret (s', w') /\
                sampleIntervalMs s' = sampleIntervalMs s) /\
  (available p = true -> F32.valid newHz = true ->
   F32.leb f32_slowest newHz = true -> F32.leb newHz (F32.of_Z 1000) = true ->
     exists s', case_f s w = Ret (s', w') /\
                F32.to_ulong (F32.div (F32.of_Z 1000) newHz)
                  = Some (sampleIntervalMs s') /\
                0 < sampleIntervalMs s' <= 2 ^ 31) /\
  (forall s' w1, case_f s w = Ret (s', w1) ->
     (0 <= sampleIntervalMs s -> 0 <= sampleIntervalMs s') /\
     (available p = true -> F32.ltb F32.zero newHz = true ->
      F32.to_ulong (F32.div (F32.of_Z 1000) newHz) = Some (sampleIntervalMs s') /\
      (F32.valid newHz = true -> F32.leb newHz (F32.of_Z 1000) = true ->
       0 < sampleIntervalMs s'))) /\
  (available p = true -> F32.valid newHz = true ->
   F32.ltb f32_threshold newHz = true -> F32.leb newHz (F32.of_Z 1000) = true ->
     exists s', case_f s w = Ret (s', w') /\
                F32.to_ulong (F32.div (F32.of_Z 1000) newHz)
                  = Some (sampleIntervalMs s') /\
                0 < sampleIntervalMs s' < 2 ^ 32) /\
  (available p = true -> F32.valid newHz = true ->
   F32.ltb (F32.of_Z 1000) newHz = true ->
     exists s', case_f s w = Ret (s', w') /\ sampleIntervalMs s' = 0) /\
  (available p = true -> F32.valid newHz = true ->
   F32.ltb F32.zero newHz = true -> F32.leb newHz f32_threshold = true ->
     case_f s w = Undefined) /\
  (F32.ltb F32.zero newHz = true ->
     F32.leb newHz f32_threshold = true \/
     (F32.ltb f32_threshold newHz = true /\
      F32.leb newHz (F32.of_Z 1000) = true) \/
     F32.ltb (F32.of_Z 1000) newHz = true).
Proof.
  intros Hidle Hend w w' newHz.
  pose proof (case_f_after_wait s p0 idle p rest Hidle Hend) as Hrun.
  cbv zeta in Hrun. fold w w' newHz in Hrun.
  split; [reflexivity |]. repeat (split; [shelve |]). exact (accepted_ranges newHz).
  Unshelve.
  - intros Hrej. rewrite Hrun.
    destruct (available p) eqn:Ea.
    + destruct Hrej as [Hx | Hx]; [discriminate Hx |]. rewrite Hx.
      eexists. split; reflexivity.
    + eexists. split; reflexivity.
  - intros Ha Hv Hlo Hhi.
    destruct (interval_defined newHz Hv Hlo Hhi) as (n & Hn & Hn1 & Hn2).
    assert (Hpos : F32.ltb F32.zero newHz = true).
    { destruct newHz as [sg | sg | | sg my ey]; try destruct sg;
        try discriminate Hlo; reflexivity. }
    rewrite Hrun, Ha, Hpos, Hn. eexists. split; [reflexivity |].
    cbn [sampleIntervalMs emit set_sampleIntervalMs]. split; [reflexivity | lia].
  - intros s' w1 Hret.
    assert (Hw1 : w1 = w').
    { rewrite Hrun in Hret.
      destruct (available p); [destruct (F32.ltb F32.zero newHz);
        [destruct (F32.to_ulong (F32.div (F32.of_Z 1000) newHz));
           [| discriminate Hret] |] |];
        unfold ret in Hret; injection Hret as _ <-; reflexivity. }
    subst w1.
    destruct (case_f_ret_inv s s' w w' Hret) as [Hkeep Hset].
    unfold w' in Hkeep, Hset. cbn [cur] in Hkeep, Hset.
    fold newHz in Hkeep, Hset.
    split.
    + intros H0. destruct (available p) eqn:Ea;
        [destruct (F32.ltb F32.zero newHz) eqn:El |].
      * pose proof (to_ulong_range _ _ (Hset eq_refl eq_refl)). lia.
      * rewrite (Hkeep (or_intror eq_refl)). exact H0.
      * rewrite (Hkeep (or_introl eq_refl)). exact H0.
    + intros Ha El. split; [exact (Hset Ha El) |].
      intros Hv Hhi.
      pose proof (interval_positive _ _ Hv El Hhi (Hset Ha El)). lia.
  - intros Ha Hv Hlo Hhi.
    destruct (interval_in_range newHz Hv Hlo Hhi) as (n & Hn & Hn1 & Hn2).
    assert (Hpos : F32.ltb F32.zero newHz = true).
    { exact (above_zero_of_above f32_threshold newHz eq_refl eq_refl Hlo). }
    rewrite Hrun, Ha, Hpos, Hn. eexists. split; [reflexivity |].
    cbn [sampleIntervalMs emit set_sampleIntervalMs]. split; [reflexivity | lia].
  - intros Ha Hv Hgt.
    assert (Hpos : F32.ltb F32.zero newHz = true).
    { pose proof Hgt as Hgt'. rewrite of_Z_1000 in Hgt'.
      exact (above_zero_of_above (S754_finite false 16384000 (-14)) newHz
               eq_refl eq_refl Hgt'). }
    rewrite Hrun, Ha, Hpos, (interval_zero newHz Hv Hgt).
    eexists. split; reflexivity.
  - intros Ha Hv Hpos Hle.
    rewrite Hrun, Ha, Hpos, (interval_undefined_below newHz Hv Hpos Hle).
    reflexivity.
Qed.

End Interval_ranges.

Lemma case_f_interval_witness :
  0 < sampleIntervalMs (ran fresh (@case_f uno fresh (frequency_session "50"))) /\
  sampleIntervalMs (ran fresh (@case_f uno fresh (frequency_session "-3"))) = 10 /\
  0 < sampleIntervalMs
        (ran fresh (@case_f uno fresh (frequency_session "0.0000003"))) < 2 ^ 32 /\
  sampleIntervalMs (ran fresh (@case_f uno fresh (frequency_session "2000"))) = 0 /\
  @case_f uno fresh (frequency_session "0.0000001") = Undefined.
Proof.
  assert (H1 : Forall (fun q => wrap32 (now q - now (typed 0 "f")) < 5000 /\
                               available q = false) [quiet 1]).
  { repeat constructor. }
  destruct (@case_f_interval uno fresh (typed 0 "f") [quiet 1] (typed 2 "50")
              [quiet 3] S754_nan H1 (or_intror eq_refl))
    as (_ & _ & Hset & _).
  destruct (@case_f_interval uno fresh (typed 0 "f") [quiet 1] (typed 2 "-3")
              [quiet 3] S754_nan H1 (or_intror eq_refl))
    as (_ & Hrej & _).
  destruct (@case_f_interval uno fresh (typed 0 "f") [quiet 1] (typed 2 "0.0000003")
              [quiet 3] S754_nan H1 (or_intror eq_refl))
    as (_ & _ & _ & _ & Hlow & _).
  destruct (@case_f_interval uno fresh (typed 0 "f") [quiet 1] (typed 2 "2000")
              [quiet 3] S754_nan H1 (or_intror eq_refl))
    as (_ & _ & _ & _ & _ & Hfast & _).
  destruct (@case_f_interval uno fresh (typed 0 "f") [quiet 1] (typed 2 "0.0000001")
              [quiet 3] S754_nan H1 (or_intror eq_refl))
    as (_ & _ & _ & _ & _ & _ & Hslow & _).
  destruct (Hset eq_refl eq_refl eq_refl eq_refl) as (s1 & E1 & _ & Hpos & _).
  destruct (Hrej (or_intror eq_refl)) as (s2 & E2 & Hkeep).
  destruct (Hlow eq_refl eq_refl eq_refl eq_refl) as (s3 & E3 & _ & Hin).
  destruct (Hfast eq_refl eq_refl eq_refl) as (s4 & E4 & Hzero).
  pose proof (Hslow eq_refl eq_refl eq_refl eq_refl) as E5.
  refine (conj _ (conj _ (conj _ (conj _ E5)))).
  - change (frequency_session "50")
      with {| cur := typed 0 "f"; future := [quiet 1] ++ typed 2 "50" :: [quiet 3] |}.
    rewrite E1. exact Hpos.
  - change (frequency_session "-3")
      with {| cur := typed 0 "f"; future := [quiet 1] ++ typed 2 "-3" :: [quiet 3] |}.
    rewrite E2. exact Hkeep.
  - change (frequency_session "0.0000003")
      with {| cur := typed 0 "f";
              future := [quiet 1] ++ typed 2 "0.0000003" :: [quiet 3] |}.
    rewrite E3. exact Hin.
  - change (frequency_session "2000")
      with {| cur := typed 0 "f"; future := [quiet 1] ++ typed 2 "2000" :: [quiet 3] |}.
    rewrite E4. exact Hzero.
Defined.

(** ** Waiting for the operator *)

Section Never.

Context {B : Board}.


(** X18: the 'c' command has no time-out either: it does not return while
    no non-zero value has been entered, nor after that while neither 'y'
    nor 'n' has been read. *)
Theorem changeSavedCalFactor_waits (s : Sketch) (p0 : poll) (idle1 : list poll)
    (pv : poll) (idle2 : list poll) :
  Forall (fun q => mass_entered q = false) idle1 ->
  changeSavedCalFactor s {| cur := p0; future := idle1 |} = Starved /\
  (mass_entered pv = true ->
   Forall (fun q => decision q = None) idle2 ->
   changeSavedCalFactor s {| cur := p0; future := idle1 ++ pv :: idle2 |}
     = Starved).
Proof.
  intros H1. split; [| intros Hv H2].
  - unfold changeSavedCalFactor, bind, busy_wait. cbn [future].
    rewrite (wait_loop_starved factor_iter mass_entered factor_iter_ends _ idle1 H1).
    reflexivity.
  - assert (H2' : Forall (fun q => decided q = false) idle2).
    { eapply Forall_impl; [| exact H2]. intros q. apply decided_false. }
    unfold changeSavedCalFactor, bind, busy_wait. cbn [future].
    rewrite (wait_loop_ret factor_iter mass_entered factor_iter_ends _ idle1 pv _ H1 Hv).
    match goal with
    | |- context [factor_iter pv ?st] => destruct st as [t v0]
    end.
    rewrite (factor_iter_accepts pv t v0 Hv). cbn [fst snd future].
    rewrite (wait_loop_starved decision_iter decided decision_iter_ends _ idle2 H2').
    reflexivity.
Qed.

End Never.


Lemma changeSavedCalFactor_waits_witness :
  @changeSavedCalFactor uno fresh
    {| cur := typed 0 "c"; future := [quiet 1; typed 2 "0"; quiet 3] |} = Starved.
Proof.
  refine (proj1 (@changeSavedCalFactor_waits uno fresh (typed 0 "c")
                   [quiet 1; typed 2 "0"; quiet 3] (quiet 4) [] _)).
  repeat constructor.
Defined.
